(** * QR scanner: payload decoders, record store and scan-result handler

    A shallow embedding of the JavaScript sources of the repository:

    - [src/app.js] (the identity-card scanner): module [Aadhaar];
    - [src/unnamed/part_000], first program (the contact-card scanner with a
      persisted record store): module [Contacts].

    The second program of [src/unnamed/part_000] keeps a history of raw
    strings and has neither decoder nor record store; it is not modelled.

    JavaScript strings are modelled as [string]: one [ascii] per UTF-16 code
    unit, restricted to code units below 256.  Objects whose set of
    properties varies ([record] objects of [src/app.js], XML attributes,
    the [Map] of records) are finite maps ([gmap]); [null]/[undefined]
    results are [None]. *)

From Equations Require Import Equations.
From stdpp Require Import gmap strings list.
From Stdlib Require Import ZArith Lia Ascii.

#[local] Open Scope string_scope.
#[local] Open Scope Z_scope.

(** ** Built-in string operations used by the sources *)

Module JsText.

(** Code unit of a character. *)
Definition code (c : ascii) : N := N_of_ascii c.

(** The characters matched by [\s] and removed by [trim()], among the code
    units below 256: TAB, LF, VT, FF, CR, SPACE and NBSP. *)
Definition is_ws (c : ascii) : bool :=
  match code c with
  | 9%N | 10%N | 11%N | 12%N | 13%N | 32%N | 160%N => true
  | _ => false
  end.

(** [\d]. *)
Definition is_digit (c : ascii) : bool :=
  ((48 <=? code c)%N && (code c <=? 57)%N)%bool.

(** Truthiness of a string value: only the empty string is falsy. *)
Definition truthy (s : string) : bool :=
  match s with EmptyString => false | String _ _ => true end.

(** [a || b] on two strings. *)
Definition or_else (a b : string) : string := if truthy a then a else b.

(** [v || ''] where [v] may be [null] or [undefined]. *)
Definition or_empty (v : option string) : string :=
  match v with Some s => s | None => "" end.

Fixpoint trimStart (s : string) : string :=
  match s with
  | EmptyString => EmptyString
  | String c s' => if is_ws c then trimStart s' else s
  end.

Fixpoint trimEnd (s : string) : string :=
  match s with
  | EmptyString => EmptyString
  | String c s' =>
      let t := trimEnd s' in
      if (is_ws c && negb (truthy t))%bool then EmptyString else String c t
  end.

(** [s.trim()]. *)
Definition trim (s : string) : string := trimEnd (trimStart s).

(** [s.replace(/\s+/g, ' ')]: every maximal run of white space becomes one
    space.  [inrun] tells that the previous character was white space. *)
Fixpoint collapse_from (inrun : bool) (s : string) : string :=
  match s with
  | EmptyString => EmptyString
  | String c s' =>
      if is_ws c
      then (if inrun then collapse_from true s'
            else String " " (collapse_from true s'))
      else String c (collapse_from false s')
  end.

Definition collapse_ws (s : string) : string := collapse_from false s.

(** Keep the characters satisfying [p]: [s.replace(/[^...]/g, '')]. *)
Fixpoint keep (p : ascii -> bool) (s : string) : string :=
  match s with
  | EmptyString => EmptyString
  | String c s' => if p c then String c (keep p s') else keep p s'
  end.

(** [s.replace(/\s+/g, '')]. *)
Definition strip_ws (s : string) : string := keep (fun c => negb (is_ws c)) s.

Fixpoint all_chars (p : ascii -> bool) (s : string) : bool :=
  match s with
  | EmptyString => true
  | String c s' => (p c && all_chars p s')%bool
  end.

(** [/^\d{50,}$/.test(s)]. *)
Definition looks_numeric (s : string) : bool :=
  (all_chars is_digit s && (50 <=? String.length s)%nat)%bool.

Definition lower_char (c : ascii) : ascii :=
  let n := code c in
  if ((65 <=? n) && (n <=? 90))%N%bool then ascii_of_N (n + 32)
  else if ((192 <=? n) && (n <=? 222) && negb (n =? 215))%N%bool
       then ascii_of_N (n + 32)
  else c.

(** [s.toLowerCase()] on code units below 256. *)
Fixpoint toLowerCase (s : string) : string :=
  match s with
  | EmptyString => EmptyString
  | String c s' => String (lower_char c) (toLowerCase s')
  end.

(** [s.startsWith(c)] for a one-character needle. *)
Definition startsWith (s : string) (c : ascii) : bool :=
  match s with
  | String d _ => if ascii_dec d c then true else false
  | EmptyString => false
  end.

(** [s.includes(c)] for a one-character needle. *)
Fixpoint includes (s : string) (c : ascii) : bool :=
  match s with
  | EmptyString => false
  | String d s' => if ascii_dec d c then true else includes s' c
  end.

(** [s.indexOf(c)] for a one-character needle; [None] is -1. *)
Fixpoint indexOf (s : string) (c : ascii) : option nat :=
  match s with
  | EmptyString => None
  | String d s' =>
      if ascii_dec d c then Some 0%nat
      else option_map S (indexOf s' c)
  end.

(** [s.slice(n)]. *)
Fixpoint slice_from (n : nat) (s : string) : string :=
  match n, s with
  | O, _ => s
  | S n', String _ s' => slice_from n' s'
  | S _, EmptyString => EmptyString
  end.

(** [s.split(c)] for a one-character separator, as the list of pieces. *)
Fixpoint split_on (c : ascii) (s : string) : list string :=
  match s with
  | EmptyString => [EmptyString]
  | String d s' =>
      match split_on c s' with
      | p :: ps =>
          if ascii_dec d c then EmptyString :: p :: ps
          else String d p :: ps
      | [] => [String d EmptyString]
      end
  end.

(** [parts.join(sep)]. *)
Fixpoint join (sep : string) (parts : list string) : string :=
  match parts with
  | [] => EmptyString
  | [p] => p
  | p :: ps => p +:+ sep +:+ join sep ps
  end.

End JsText.

Import JsText.

(** ** Helpers that the programs share verbatim *)

(** [cleanText(value)]: [(value || '').replace(/\s+/g, ' ').trim()]. *)
Definition cleanText (value : option string) : string :=
  trim (collapse_ws (or_empty value)).

(** [normalizeGender(value)]. *)
Definition normalizeGender (value : option string) : string :=
  let cleaned := trim (or_empty value) in
  if negb (truthy cleaned) then ""
  else
    let lower := toLowerCase cleaned in
    if startsWith lower "m" then "Male"
    else if startsWith lower "f" then "Female"
    else if startsWith lower "t" then "Transgender"
    else cleaned.

(** [config.duplicateCooldownMs], the same in every program. *)
Definition duplicateCooldownMs : Z := 1200.

(** ** Consulted grammars

    The decoders are cascades of grammar attempts.  To state which grammars a
    cascade consults, every attempt is recorded: a computation returns its
    value together with the list of grammars it consulted, in order. *)

Module Trace.

Definition Traced (G A : Type) : Type := A * list G.

#[export] Instance traced_ret {G} : MRet (Traced G) := fun A a => (a, []).

#[export] Instance traced_bind {G} : MBind (Traced G) :=
  fun A B k m => let (b, t) := k (fst m) in (b, (snd m ++ t)%list).

(** One grammar attempt: [g] has been called and has returned [r]. *)
Definition consult {G A} (g : G) (r : A) : Traced G A := (r, [g]).

(** The cascade as a first-success fold over an ordered list of grammars,
    following the words of the specification. *)
Fixpoint first_success {G A B} (gs : list (G * (A -> option B))) (x : A)
  : Traced G (option B) :=
  match gs with
  | [] => (None, [])
  | (g, f) :: gs' =>
      match f x with
      | Some r => (Some r, [g])
      | None => let (r, t) := first_success gs' x in (r, g :: t)
      end
  end.

End Trace.

Import Trace.

(** ** The identity-card scanner, [src/app.js] *)

Module Aadhaar.

(** *** Environment

    What the browser provides: the XML parser, the presence of
    [DecompressionStream] in [window] and what piping bytes through
    [new DecompressionStream('deflate')] gives ([None] when the stream
    raises). *)

(** An element of a parsed document. *)
#[warnings="-register-all"] Inductive Element : Type :=
  Elem (tagName : string) (attributes : gmap string string)
       (children : list Element).

Record Env : Type := {
  (** [new DOMParser().parseFromString(xmlText, 'text/xml')], as the
      document element; a parse error gives a document that contains a
      [parsererror] element. *)
  parseFromString : string -> Element;
  hasDecompressionStream : bool;
  decompress : list Z -> option (list Z)
}.

Definition tagName_of (e : Element) : string :=
  match e with Elem t _ _ => t end.

(** [node.getAttribute(name)]. *)
Definition getAttribute (e : Element) (name : string) : option string :=
  match e with Elem _ a _ => a !! name end.

(** The element and its descendants, in document order. *)
Fixpoint subtree (e : Element) : list Element :=
  match e with Elem _ _ ks => e :: flat_map subtree ks end.

Definition has_tag (tag : string) (e : Element) : bool :=
  if decide (tagName_of e = tag) then true else false.

(** [doc.getElementsByTagName(tag)]. *)
Definition doc_getElementsByTagName (root : Element) (tag : string)
  : list Element :=
  List.filter (has_tag tag) (subtree root).

(** [element.getElementsByTagName(tag)]: descendants only. *)
Definition getElementsByTagName (e : Element) (tag : string) : list Element :=
  match e with
  | Elem _ _ ks => List.filter (has_tag tag) (flat_map subtree ks)
  end.

(** *** Records

    A record is a JavaScript object: a finite map from property names to
    string values.  An absent property reads as [undefined]. *)

Definition object (props : list (string * string)) : gmap string string :=
  list_to_map props.

(** [joinAddress(parts)]. *)
Definition joinAddress (parts : list (option string)) : string :=
  join ", " (List.filter truthy (List.map cleanText parts)).

(** [recordKey(record)]: [record.uid || record.referenceId || '']. *)
Definition recordKey (record : gmap string string) : string :=
  or_else (or_else (or_empty (record !! "uid"))
                   (or_empty (record !! "referenceId"))) "".

(** *** The structured-markup grammar *)

(** [extractXml(raw)]. *)
Definition extractXml (raw : string) : option string :=
  match indexOf raw "<" with
  | None => None
  | Some start => Some (trim (slice_from start raw))
  end.

(** [parsePrintLetter(node)]. *)
Definition parsePrintLetter (node : Element) : gmap string string :=
  let attr := fun name => or_empty (getAttribute node name) in
  let uid := attr "uid" in
  let name := attr "name" in
  let gender := attr "gender" in
  let dob := attr "dob" in
  let yob := attr "yob" in
  let pin := attr "pc" in
  let address :=
    joinAddress
      [Some (attr "co"); Some (attr "house"); Some (attr "street");
       Some (attr "lm"); Some (attr "loc"); Some (attr "vtc");
       Some (attr "po"); Some (attr "dist"); Some (attr "subdist");
       Some (attr "state"); Some pin] in
  object [("uid", uid); ("name", name); ("gender", gender); ("dob", dob);
          ("yob", yob); ("address", address); ("pin", pin);
          ("source", "PrintLetterBarcodeData")].

(** [parseOfflinePaperless(root)]. *)
Definition parseOfflinePaperless (root : Element) : gmap string string :=
  let referenceId :=
    or_else (or_else (or_empty (getAttribute root "referenceId"))
                     (or_empty (getAttribute root "referenceid"))) "" in
  let poi := head (getElementsByTagName root "Poi") in
  let poa := head (getElementsByTagName root "Poa") in
  let of_poi := fun name =>
    match poi with
    | Some e => or_empty (getAttribute e name)
    | None => ""
    end in
  let name := of_poi "name" in
  let dob := of_poi "dob" in
  let yob := of_poi "yob" in
  let gender := of_poi "gender" in
  let pin :=
    match poa with
    | Some e => or_empty (getAttribute e "pc")
    | None => ""
    end in
  let address :=
    match poa with
    | Some e =>
        joinAddress
          [getAttribute e "house"; getAttribute e "street";
           getAttribute e "lm"; getAttribute e "loc"; getAttribute e "vtc";
           getAttribute e "subdist"; getAttribute e "dist";
           getAttribute e "state"; Some pin; getAttribute e "po"]
    | None => ""
    end in
  object [("referenceId", referenceId); ("name", name); ("gender", gender);
          ("dob", dob); ("yob", yob); ("address", address); ("pin", pin);
          ("source", "OfflinePaperlessKyc")].

(** [parseOkY(oky)]. *)
Definition parseOkY (oky : Element) : gmap string string :=
  let name := or_empty (getAttribute oky "n") in
  let referenceId := or_empty (getAttribute oky "r") in
  let dob := or_empty (getAttribute oky "d") in
  let gender := or_empty (getAttribute oky "g") in
  let address := or_empty (getAttribute oky "a") in
  object [("referenceId", referenceId); ("name", name); ("gender", gender);
          ("dob", dob); ("address", address); ("source", "OKY")].

(** [parseXmlPayload(raw)]. *)
Definition parseXmlPayload (env : Env) (raw : string)
  : option (gmap string string) :=
  match extractXml raw with
  | None => None
  | Some xmlText =>
      if negb (truthy xmlText) then None
      else
        let doc := parseFromString env xmlText in
        match doc_getElementsByTagName doc "parsererror" with
        | _ :: _ => None
        | [] =>
            match doc_getElementsByTagName doc "PrintLetterBarcodeData" with
            | node :: _ => Some (parsePrintLetter node)
            | [] =>
                match doc_getElementsByTagName doc "OfflinePaperlessKyc" with
                | node :: _ => Some (parseOfflinePaperless node)
                | [] =>
                    match doc_getElementsByTagName doc "OKY" with
                    | node :: _ => Some (parseOkY node)
                    | [] => None
                    end
                end
            end
        end
  end.

(** *** The binary Secure-format grammar *)

(** Number of bits of a positive integer, 0 otherwise: what the loop of
    [bigIntToBytes] consumes, eight bits at a time. *)
Definition bit_length (temp : Z) : nat :=
  if 0 <? temp then S (Z.to_nat (Z.log2 temp)) else 0%nat.

(** The loop of [bigIntToBytes]: while [temp > 0n], put the low 8 bits in
    front of [bytes] and shift [temp] right by 8. *)
Equations? bigIntToBytes_loop (temp : Z) (bytes : list Z) : list Z
  by wf (bit_length temp) lt :=
  bigIntToBytes_loop temp bytes with Z_gt_dec temp 0 => {
    | left _ := bigIntToBytes_loop (Z.shiftr temp 8) (Z.land temp 255 :: bytes);
    | right _ := bytes }.
Proof.
  unfold bit_length.
  replace (0 <? temp) with true by (symmetry; apply Z.ltb_lt; lia).
  destruct (Z.ltb_spec 0 (Z.shiftr temp 8)) as [Hs|Hs]; [|lia].
  rewrite Z.log2_shiftr by lia.
  assert (8 <= Z.log2 temp); [|lia].
  apply Z.log2_le_pow2; [lia|].
  rewrite Z.shiftr_div_pow2 in Hs by lia.
  destruct (Z.le_gt_cases (2 ^ 8) temp) as [H|H]; [exact H|].
  rewrite Z.div_small in Hs by lia. lia.
Qed.

(** [bigIntToBytes(value)]. *)
Definition bigIntToBytes (value : Z) : list Z :=
  if value =? 0 then [0] else bigIntToBytes_loop value [].

(** Value of a decimal digit character. *)
Definition digit_value (c : ascii) : Z := Z.of_N (code c) - 48.

(** [BigInt(digits)] for a string of decimal digits. *)
Fixpoint BigInt_from (acc : Z) (digits : string) : Z :=
  match digits with
  | EmptyString => acc
  | String c s => BigInt_from (acc * 10 + digit_value c) s
  end.

Definition BigInt_of_digits (digits : string) : Z := BigInt_from 0 digits.

(** [inflateBytes(bytes)]. *)
Definition inflateBytes (env : Env) (bytes : list Z) : option (list Z) :=
  if negb (hasDecompressionStream env) then None
  else decompress env bytes.

(** [bytes.slice(start, i)]. *)
Definition slice (start i : nat) (bytes : list Z) : list Z :=
  take (i - start) (drop start bytes).

(** The [for] loop of [parseSecureQrBytes], entered with the loop variable
    [i], the start [start] of the current field and the [fields] pushed so
    far.  Every iteration increments [i], so [fuel] bounds the number of
    iterations left. *)
Fixpoint scan_loop (fuel : nat) (bytes : list Z) (i start : nat)
    (fields : list (list Z)) : list (list Z) :=
  match fuel with
  | O => fields
  | S fuel' =>
      if ((i <? length bytes)%nat && (length fields <? 16)%nat)%bool then
        if decide (bytes !! i = Some 255)
        then scan_loop fuel' bytes (S i) (S i)
                       (fields ++ [slice start i bytes])%list
        else scan_loop fuel' bytes (S i) start fields
      else fields
  end.

(** The fields collected by the loop, run from [i = 0]. *)
Definition scan_fields (bytes : list Z) : list (list Z) :=
  scan_loop (length bytes) bytes 0 0 [].

(** [textDecoder.decode(chunk)] for the single-byte decoder
    [new TextDecoder('iso-8859-1')]: one character per byte.  The characters
    that a browser gives for the bytes 0x80 to 0x9F lie outside the code
    units modelled here; like the code units 0x80 to 0x9F that stand for
    them, none of them is white space. *)
Definition textDecoder_decode (chunk : list Z) : string :=
  fold_right (fun b s => String (ascii_of_N (Z.to_N b)) s) EmptyString chunk.

(** [parseSecureQrBytes(bytes)]. *)
Definition parseSecureQrBytes (bytes : list Z) : option (gmap string string) :=
  let fields := scan_fields bytes in
  if (length fields <? 16)%nat then None
  else
    let decoded :=
      List.map (fun chunk => cleanText (Some (textDecoder_decode chunk))) fields in
    let at_ := fun k : nat => or_empty (decoded !! k) in
    let indicator := at_ 0%nat in
    let referenceId := at_ 1%nat in
    let name := at_ 2%nat in
    let dob := at_ 3%nat in
    let gender := at_ 4%nat in
    let careOf := at_ 5%nat in
    let district := at_ 6%nat in
    let landmark := at_ 7%nat in
    let house := at_ 8%nat in
    let location := at_ 9%nat in
    let pin := at_ 10%nat in
    let postOffice := at_ 11%nat in
    let state := at_ 12%nat in
    let street := at_ 13%nat in
    let subDistrict := at_ 14%nat in
    let vtc := at_ 15%nat in
    if (negb (truthy indicator) || negb (truthy referenceId))%bool then None
    else
      let address :=
        joinAddress
          [Some careOf; Some house; Some street; Some landmark;
           Some location; Some vtc; Some subDistrict; Some district;
           Some state; Some pin; Some postOffice] in
      Some (object [("referenceId", referenceId); ("name", name);
                    ("gender", gender); ("dob", dob); ("address", address);
                    ("pin", pin); ("source", "Secure QR")]).

(** [parseSecureQr(raw)]. *)
Definition parseSecureQr (env : Env) (raw : string)
  : option (gmap string string) :=
  let digits := strip_ws raw in
  if negb (looks_numeric digits) then None
  else
    let big := BigInt_of_digits digits in
    let bytes := bigIntToBytes big in
    match inflateBytes env bytes with
    | None => None
    | Some inflated => parseSecureQrBytes inflated
    end.

(** *** The cascade *)

Inductive Grammar : Type := XmlGrammar | SecureGrammar.

(** [parseAadhaarPayload(raw)], with the grammars it consults. *)
Definition parseAadhaarPayload (env : Env) (raw : string)
  : Traced Grammar (option (gmap string string)) :=
  let trimmed := trim raw in
  if negb (truthy trimmed) then mret None
  else
    xmlRecord ← consult XmlGrammar (parseXmlPayload env trimmed);
    match xmlRecord with
    | Some r => mret (Some r)
    | None =>
        secureRecord ← consult SecureGrammar (parseSecureQr env trimmed);
        match secureRecord with
        | Some r => mret (Some r)
        | None => mret None
        end
    end.

(** The grammars of [parseAadhaarPayload] in their priority order. *)
Definition grammars (env : Env)
  : list (Grammar * (string -> option (gmap string string))) :=
  [(XmlGrammar, parseXmlPayload env); (SecureGrammar, parseSecureQr env)].

(** *** State, record store and scan-result handler *)

(** The second argument of [setStatus]: ['error'] or nothing. *)
Inductive Tone : Type := Plain | Error.

(** The module-level [state] object, the status line of the page, and the
    log of the grammar attempts made so far (each with the raw string
    given to [parseAadhaarPayload]). *)
Record State : Type := {
  scanning : bool;
  lastValue : option string;
  lastValueTs : Z;
  records : gmap string (gmap string string);
  order : list string;
  status : string * Tone;
  decodeLog : list (Grammar * string)
}.

(** The [state] the script starts with. *)
Definition initial : State :=
  {| scanning := false; lastValue := None; lastValueTs := 0;
     records := ∅; order := []; status := ("", Plain); decodeLog := [] |}.

(** [setStatus(message, tone)]. *)
Definition setStatus (st : State) (message : string) (tone : Tone) : State :=
  {| scanning := scanning st; lastValue := lastValue st;
     lastValueTs := lastValueTs st; records := records st;
     order := order st; status := (message, tone);
     decodeLog := decodeLog st |}.

(** [upsertRecord(record)]; [stamp] is [formatLastSeen(new Date())]. *)
Definition upsertRecord (st : State) (record : gmap string string)
    (stamp : string) : State :=
  let key := recordKey record in
  if negb (truthy key) then setStatus st "UID not found in QR data." Error
  else
    let existing := records st !! key in
    let next := <["lastSeen" := stamp]> (record ∪ default ∅ existing) in
    {| scanning := scanning st; lastValue := lastValue st;
       lastValueTs := lastValueTs st;
       records := <[key := next]> (records st);
       order := key :: List.filter (fun item => negb (String.eqb item key)) (order st);
       status := (match existing with
                  | Some _ => "Record updated."
                  | None => "Record captured."
                  end, Plain);
       decodeLog := decodeLog st |}.

(** The duplicate test of [handleScanResult]:
    [value === state.lastValue && now - state.lastValueTs < 1200]. *)
Definition is_duplicate (st : State) (value : string) (now : Z) : bool :=
  ((if decide (lastValue st = Some value) then true else false)
   && (now - lastValueTs st <? duplicateCooldownMs))%bool.

(** [handleScanResult(value)]; [now] is [Date.now()] and [stamp] the
    formatted date that [upsertRecord] would take.  The function is
    asynchronous and is modelled here run to completion, which is what a
    call does when no other call runs while it waits: the duplicate test,
    the two assignments that arm the window and the capability test come
    before its only [await], and [upsertRecord], the only writer of the
    store, is synchronous.  The calls that overlap are those of [Overlap]
    below, where the handler is split at its [await]. *)
Definition handleScanResult (env : Env) (st : State) (value : string)
    (now : Z) (stamp : string) : State :=
  if is_duplicate st value now then st
  else
    let st1 :=
      {| scanning := scanning st; lastValue := Some value;
         lastValueTs := now; records := records st; order := order st;
         status := status st; decodeLog := decodeLog st |} in
    let compact := strip_ws value in
    let looksNumeric := looks_numeric compact in
    if (looksNumeric && negb (hasDecompressionStream env))%bool then
      setStatus st1 "Secure QR needs a compatible browser to decode." Error
    else
      let (record, consulted) := parseAadhaarPayload env value in
      let st2 :=
        {| scanning := scanning st1; lastValue := lastValue st1;
           lastValueTs := lastValueTs st1; records := records st1;
           order := order st1; status := status st1;
           decodeLog :=
             (decodeLog st1 ++ List.map (fun g => (g, value)) consulted)%list |} in
      match record with
      | None =>
          setStatus st2
            (if looksNumeric then "Secure QR could not be decoded."
             else "Not an Aadhaar QR format.") Error
      | Some r => upsertRecord st2 r stamp
      end.

(** The text of the gender cell that [renderRecords] builds for a record:
    [normalizeGender(record.gender) || '-']. *)
Definition genderCell (record : gmap string string) : string :=
  or_else (normalizeGender (record !! "gender")) "-".

End Aadhaar.

(** ** The contact-card scanner, first program of [src/unnamed/part_000] *)

Module Contacts.

(** *** Values produced by [JSON.parse] *)

(** A number is kept only as far as the decoder observes it: whether it is
    zero (falsy) or not. *)
#[warnings="-register-all"] Inductive Json : Type :=
| JNull
| JBool (b : bool)
| JNumber (nonzero : bool)
| JString (s : string)
| JArray (items : list Json)
| JObject (props : gmap string Json).

(** *** Environment

    [JSON.parse] ([None] when it raises), the successive matches of the
    key-value regular expression
    [/([^:=;\n|,]+)\s*[:=]\s*([^;\n|,]+)/g] on a string (each as the pair of
    its two groups), and whether [localStorage.setItem] accepts a payload
    of a given number of entries. *)
Record Env : Type := {
  JSON_parse : string -> option Json;
  kv_matches : string -> list (string * string);
  setItem_ok : nat -> bool
}.

(** *** Records *)

Record Record_ : Type := {
  username : string;
  dob : string;
  age : string;
  gender : string;
  mobile : string;
  email : string
}.

(** [cleanPhone(value)]. *)
Definition cleanPhone (value : option string) : string :=
  match value with
  | None => ""
  | Some v =>
      if negb (truthy v) then ""
      else keep (fun c => (is_digit c || if ascii_dec c "+" then true else false)%bool) v
  end.

(** [cleanEmail(value)]. *)
Definition cleanEmail (value : option string) : string :=
  toLowerCase (trim (or_empty value)).

(** [recordKey(record)]. *)
Definition recordKey (record : Record_) : string :=
  if truthy (email record) then "email:" +:+ email record
  else if truthy (mobile record) then "mobile:" +:+ mobile record
  else if (truthy (username record) && truthy (dob record))%bool
       then "user:" +:+ toLowerCase (username record) +:+ "|" +:+ dob record
  else if truthy (username record)
       then "user:" +:+ toLowerCase (username record)
  else "".

(** *** The JSON-object grammar *)

(** Truthiness of a value; [None] is [undefined]. *)
Definition js_truthy (v : option Json) : bool :=
  match v with
  | None | Some JNull => false
  | Some (JBool b) => b
  | Some (JNumber nonzero) => nonzero
  | Some (JString s) => truthy s
  | Some (JArray _) | Some (JObject _) => true
  end.

(** [a || b]. *)
Definition js_or (a b : option Json) : option Json :=
  if js_truthy a then a else b.

(** [parsed.name] on an object or an array. *)
Definition prop (parsed : Json) (name : string) : option Json :=
  match parsed with
  | JObject props => props !! name
  | _ => None
  end.

(** The string on which a cleaning helper calls [replace] or [trim]:
    a falsy argument counts as the empty string, a non-empty string is
    itself, and any other truthy value has no such method, so that the
    call raises ([None]). *)
Definition text_arg (v : option Json) : option string :=
  if js_truthy v then
    match v with
    | Some (JString s) => Some s
    | _ => None
    end
  else Some "".

(** [parseJsonPayload(raw)]; a raised exception gives [null]. *)
Definition parseJsonPayload (env : Env) (raw : string) : option Record_ :=
  match JSON_parse env raw with
  | None => None
  | Some parsed =>
      match parsed with
      | JObject _ | JArray _ =>
          let p := prop parsed in
          u ← text_arg (js_or (js_or (p "username") (p "user")) (p "name"));
          d ← text_arg (js_or (js_or (js_or (p "dob") (p "dateOfBirth"))
                                     (p "birth")) (p "birthDate"));
          a ← text_arg (p "age");
          g ← text_arg (p "gender");
          m ← text_arg (js_or (js_or (p "mobile") (p "phone")) (p "phoneNumber"));
          e ← text_arg (js_or (p "email") (p "mail"));
          Some {| username := cleanText (Some u); dob := cleanText (Some d);
                  age := cleanText (Some a); gender := normalizeGender (Some g);
                  mobile := cleanPhone (Some m); email := cleanEmail (Some e) |}
      | _ => None
      end
  end.

(** *** The key-value grammar *)

(** The body of the [while] loop over the matches: [record[key] = value],
    unless the key is empty.  Assigning a string to [__proto__] leaves a
    plain object unchanged. *)
Definition kv_assign (record : gmap string string) (m : string * string)
  : gmap string string :=
  let key := toLowerCase (trim (fst m)) in
  let value := trim (snd m) in
  if negb (truthy key) then record
  else if String.eqb key "__proto__" then record
  else <[key := value]> record.

(** [a || b] on two properties of an object with string values. *)
Definition alt (a b : option string) : option string :=
  match a with
  | Some s => if truthy s then a else b
  | None => b
  end.

(** [parseKeyValuePayload(raw)]. *)
Definition parseKeyValuePayload (env : Env) (raw : string) : option Record_ :=
  if negb (includes raw "=" || includes raw ":")%bool then None
  else
    let record := fold_left kv_assign (kv_matches env raw) ∅ in
    if decide (record = ∅) then None
    else
      let p := fun name : string => record !! name in
      Some {| username := cleanText (alt (alt (p "username") (p "user")) (p "name"));
              dob := cleanText (alt (alt (alt (p "dob") (p "dateofbirth"))
                                         (p "birth")) (p "birthdate"));
              age := cleanText (p "age");
              gender := normalizeGender (p "gender");
              mobile := cleanPhone (alt (alt (p "mobile") (p "phone")) (p "phonenumber"));
              email := cleanEmail (alt (p "email") (p "mail")) |}.

(** *** The fixed-position delimited grammar *)

(** [parseDelimitedPayload(raw)]. *)
Definition parseDelimitedPayload (raw : string) : option Record_ :=
  let trimmed := trim raw in
  if negb (truthy trimmed) then None
  else
    let delimiter :=
      if includes trimmed "|" then Some "|"%char
      else if includes trimmed "," then Some ","%char
      else if includes trimmed ";" then Some ";"%char
      else None in
    match delimiter with
    | None => None
    | Some d =>
        let parts := List.filter truthy (List.map trim (split_on d trimmed)) in
        match parts with
        | u :: b :: a :: g :: m :: e :: _ =>
            Some {| username := cleanText (Some u); dob := cleanText (Some b);
                    age := cleanText (Some a); gender := normalizeGender (Some g);
                    mobile := cleanPhone (Some m); email := cleanEmail (Some e) |}
        | _ => None
        end
    end.

(** *** The cascade *)

Inductive Grammar : Type := JsonGrammar | KeyValueGrammar | DelimitedGrammar.

(** [parseQrPayload(raw)], with the grammars it consults. *)
Definition parseQrPayload (env : Env) (raw : string)
  : Traced Grammar (option Record_) :=
  let trimmed := trim raw in
  if negb (truthy trimmed) then mret None
  else
    jsonRecord ← consult JsonGrammar (parseJsonPayload env trimmed);
    match jsonRecord with
    | Some r => mret (Some r)
    | None =>
        kvRecord ← consult KeyValueGrammar (parseKeyValuePayload env trimmed);
        match kvRecord with
        | Some r => mret (Some r)
        | None =>
            delimitedRecord ←
              consult DelimitedGrammar (parseDelimitedPayload trimmed);
            match delimitedRecord with
            | Some r => mret (Some r)
            | None => mret None
            end
        end
    end.

(** The grammars of [parseQrPayload] in their priority order. *)
Definition grammars (env : Env) : list (Grammar * (string -> option Record_)) :=
  [(JsonGrammar, parseJsonPayload env);
   (KeyValueGrammar, parseKeyValuePayload env);
   (DelimitedGrammar, parseDelimitedPayload)].

(** [isRecordUsable(record)]. *)
Definition isRecordUsable (record : option Record_) : bool :=
  match record with
  | None => false
  | Some r => (truthy (username r) || truthy (email r) || truthy (mobile r))%bool
  end.

(** *** State, record store and scan-result handler *)

Inductive Tone : Type := Plain | Error.

(** An object of the persisted array: [{ key, ...record }].  A property
    that the stored object lacks is [None]. *)
Record Entry : Type := {
  e_key : option string;
  e_username : option string;
  e_dob : option string;
  e_age : option string;
  e_gender : option string;
  e_mobile : option string;
  e_email : option string
}.

(** The module-level [state] object, the status line of the page, the
    array held by [localStorage] under [config.storageKey] (if any), and
    the log of the grammar attempts made so far. *)
Record State : Type := {
  scanning : bool;
  lastValue : option string;
  lastValueTs : Z;
  records : gmap string Record_;
  order : list string;
  awaitingGesture : bool;
  status : string * Tone;
  storage : option (list Entry);
  decodeLog : list (Grammar * string)
}.

(** The [state] the script starts with, over a given stored item. *)
Definition initial (stored : option (list Entry)) : State :=
  {| scanning := false; lastValue := None; lastValueTs := 0;
     records := ∅; order := []; awaitingGesture := false;
     status := ("", Plain); storage := stored; decodeLog := [] |}.

Definition with_store (st : State) (recs : gmap string Record_)
    (ord : list string) : State :=
  {| scanning := scanning st; lastValue := lastValue st;
     lastValueTs := lastValueTs st; records := recs; order := ord;
     awaitingGesture := awaitingGesture st; status := status st;
     storage := storage st; decodeLog := decodeLog st |}.

(** [setStatus(message, tone)]. *)
Definition setStatus (st : State) (message : string) (tone : Tone) : State :=
  {| scanning := scanning st; lastValue := lastValue st;
     lastValueTs := lastValueTs st; records := records st;
     order := order st; awaitingGesture := awaitingGesture st;
     status := (message, tone); storage := storage st;
     decodeLog := decodeLog st |}.

Definition entry_of (key : string) (r : Record_) : Entry :=
  {| e_key := Some key; e_username := Some (username r);
     e_dob := Some (dob r); e_age := Some (age r);
     e_gender := Some (gender r); e_mobile := Some (mobile r);
     e_email := Some (email r) |}.

(** The [payload] of [saveRecords]: the records in the order of
    [state.order], keys without a record left out. *)
Definition snapshot (st : State) : list Entry :=
  omap (fun key => entry_of key <$> records st !! key) (order st).

(** [saveRecords()]; [quota_ok] tells whether [localStorage.setItem]
    accepts the payload. *)
Definition saveRecords (quota_ok : bool) (st : State) : State :=
  let payload := snapshot st in
  if quota_ok then
    {| scanning := scanning st; lastValue := lastValue st;
       lastValueTs := lastValueTs st; records := records st;
       order := order st; awaitingGesture := awaitingGesture st;
       status := status st; storage := Some payload;
       decodeLog := decodeLog st |}
  else setStatus st "Storage full. Unable to save more records." Error.

(** [upsertRecord(record)]. *)
Definition upsertRecord (env : Env) (st : State) (record : Record_) : State :=
  let key := recordKey record in
  if negb (truthy key) then
    setStatus st "Missing unique fields for de-duplication." Error
  else
    let existing := records st !! key in
    let old := fun f : Record_ -> string =>
      match existing with Some r => f r | None => "" end in
    let next :=
      {| username := or_else (or_else (username record) (old username)) "";
         dob := or_else (or_else (dob record) (old dob)) "";
         age := or_else (or_else (age record) (old age)) "";
         gender := or_else (or_else (gender record) (old gender)) "";
         mobile := or_else (or_else (mobile record) (old mobile)) "";
         email := or_else (or_else (email record) (old email)) "" |} in
    let st1 :=
      with_store st (<[key := next]> (records st))
        (key :: List.filter (fun item => negb (String.eqb item key)) (order st)) in
    let st2 := saveRecords (setItem_ok env (length (snapshot st1))) st1 in
    setStatus st2
      (if (truthy (old username) || truthy (old email) || truthy (old mobile))%bool
       then "Record updated." else "Record stored.") Plain.

(** The duplicate test of [handleScanResult]. *)
Definition is_duplicate (st : State) (value : string) (now : Z) : bool :=
  ((if decide (lastValue st = Some value) then true else false)
   && (now - lastValueTs st <? duplicateCooldownMs))%bool.

(** [handleScanResult(value)]; [now] is [Date.now()]. *)
Definition handleScanResult (env : Env) (st : State) (value : string)
    (now : Z) : State :=
  if is_duplicate st value now then st
  else
    let st1 :=
      {| scanning := scanning st; lastValue := Some value;
         lastValueTs := now; records := records st; order := order st;
         awaitingGesture := awaitingGesture st; status := status st;
         storage := storage st; decodeLog := decodeLog st |} in
    let (record, consulted) := parseQrPayload env value in
    let st2 :=
      {| scanning := scanning st1; lastValue := lastValue st1;
         lastValueTs := lastValueTs st1; records := records st1;
         order := order st1; awaitingGesture := awaitingGesture st1;
         status := status st1; storage := storage st1;
         decodeLog :=
           (decodeLog st1 ++ List.map (fun g => (g, value)) consulted)%list |} in
    if negb (isRecordUsable record) then
      setStatus st2 "QR format not recognized." Error
    else
      match record with
      | Some r => upsertRecord env st2 r
      | None => st2
      end.

(** The body of the [forEach] of [loadRecords]. *)
Definition load_entry (st : State) (entry : Entry) : State :=
  match e_key entry with
  | None => st
  | Some key =>
      if negb (truthy key) then st
      else
        let record :=
          {| username := cleanText (e_username entry);
             dob := cleanText (e_dob entry);
             age := cleanText (e_age entry);
             gender := normalizeGender (e_gender entry);
             mobile := cleanPhone (e_mobile entry);
             email := cleanEmail (e_email entry) |} in
        with_store st (<[key := record]> (records st)) (order st ++ [key])%list
  end.

(** [loadRecords()], the stored item being an array of objects with string
    properties. *)
Definition loadRecords (st : State) : State :=
  match storage st with
  | None => st
  | Some parsed => fold_left load_entry parsed st
  end.

End Contacts.

(** ** Notions used to state the properties *)

(** The integer that a byte sequence denotes, most significant byte first.
    This follows the words of the specification; the sources only convert
    in the other direction. *)
Definition be_value (bytes : list Z) : Z :=
  fold_left (fun acc b => acc * 256 + b) bytes 0.

(** The record store is in lockstep: no key occurs twice in the order
    sequence, and the keys of the sequence are those of the mapping. *)
Definition lockstep {V : Type} (records : gmap string V) (order : list string)
  : Prop :=
  NoDup order /\ forall key, key ∈ order <-> is_Some (records !! key).

(** A field of the Secure format followed by its delimiter. *)
Definition closed (f : list Z) : list Z := (f ++ [255])%list.

(** What the loop of [parseSecureQrBytes] has established when its variable
    is [i]: the bytes before [i] are the fields pushed so far, each with its
    delimiter, followed by the field that is still open. *)
Definition scanned (bytes : list Z) (i start : nat) (fields : list (list Z))
  : Prop :=
  ((start <= i)%nat /\ (i <= length bytes)%nat)
  /\ (take i bytes
      = (concat (List.map closed fields) ++ Aadhaar.slice start i bytes)%list)
  /\ Forall (fun f => 255 ∉ f) fields
  /\ (255 ∉ Aadhaar.slice start i bytes)
  /\ (length fields <= 16)%nat.

(** What the loop returns: a splitting of the input into at most 16
    delimited fields and a rest, which holds no delimiter unless 16 fields
    have been found. *)
Definition split_result (bytes : list Z) (fields : list (list Z)) : Prop :=
  exists rest,
    bytes = (concat (List.map closed fields) ++ rest)%list
    /\ Forall (fun f => 255 ∉ f) fields
    /\ (length fields <= 16)%nat
    /\ ((length fields < 16)%nat -> 255 ∉ rest).

(** The states that the identity-card scanner can reach: it starts from the
    initial state, and scan results are handled one after the other.
    [upsertRecord] is also taken on any record. *)
Inductive aadhaar_reachable (env : Aadhaar.Env) : Aadhaar.State -> Prop :=
| aadhaar_start : aadhaar_reachable env Aadhaar.initial
| aadhaar_scan st value now stamp :
    aadhaar_reachable env st ->
    aadhaar_reachable env (Aadhaar.handleScanResult env st value now stamp)
| aadhaar_upsert st record stamp :
    aadhaar_reachable env st ->
    aadhaar_reachable env (Aadhaar.upsertRecord st record stamp).

(** The key under which [loadRecords] takes an entry, if it takes it. *)
Definition usable_key (entry : Contacts.Entry) : option string :=
  match Contacts.e_key entry with
  | Some key => if truthy key then Some key else None
  | None => None
  end.

Definition usable_keys (entries : list Contacts.Entry) : list string :=
  omap usable_key entries.

(** The states that the contact-card scanner can reach: [init()] restores
    the store, into the initial state, from nothing or from what an earlier
    run has left in the storage; scan results are then handled one after the
    other.  [upsertRecord] is also taken on any record. *)
Inductive contacts_reachable (env : Contacts.Env) : Contacts.State -> Prop :=
| contacts_fresh :
    contacts_reachable env (Contacts.loadRecords (Contacts.initial None))
| contacts_reload st :
    contacts_reachable env st ->
    contacts_reachable env
      (Contacts.loadRecords (Contacts.initial (Contacts.storage st)))
| contacts_scan st value now :
    contacts_reachable env st ->
    contacts_reachable env (Contacts.handleScanResult env st value now)
| contacts_upsert st record :
    contacts_reachable env st ->
    contacts_reachable env (Contacts.upsertRecord env st record).

(** What must hold of the stored array for [loadRecords] to give a store in
    lockstep: the keys it takes are pairwise distinct. *)
Definition storage_ok (stored : option (list Contacts.Entry)) : Prop :=
  match stored with
  | None => True
  | Some entries => NoDup (usable_keys entries)
  end.

(** What every reachable state of the contact-card scanner satisfies. *)
Definition store_inv (st : Contacts.State) : Prop :=
  lockstep (Contacts.records st) (Contacts.order st)
  /\ storage_ok (Contacts.storage st).

(** The fields of a contact record. *)
Definition contact_fields : list (Contacts.Record_ -> string) :=
  [Contacts.username; Contacts.dob; Contacts.age; Contacts.gender;
   Contacts.mobile; Contacts.email].

(** A contact record whose fields are in the form that the cleaning helpers
    give: each is left unchanged by the helper of its field. *)
Definition contact_cleaned (r : Contacts.Record_) : Prop :=
  cleanText (Some (Contacts.username r)) = Contacts.username r
  /\ cleanText (Some (Contacts.dob r)) = Contacts.dob r
  /\ cleanText (Some (Contacts.age r)) = Contacts.age r
  /\ normalizeGender (Some (Contacts.gender r)) = Contacts.gender r
  /\ Contacts.cleanPhone (Some (Contacts.mobile r)) = Contacts.mobile r
  /\ Contacts.cleanEmail (Some (Contacts.email r)) = Contacts.email r.

(** ** Sample inputs *)

(** The document element of
    [<PrintLetterBarcodeData uid='123412341234' name='A' gender='M'/>]. *)
Definition sample_card : Aadhaar.Element :=
  Aadhaar.Elem "PrintLetterBarcodeData"
    (list_to_map [("uid", "123412341234"); ("name", "A"); ("gender", "M")]) [].

(** The document element of [<PrintLetterBarcodeData uid='123412341234'/>]. *)
Definition sample_card_unnamed : Aadhaar.Element :=
  Aadhaar.Elem "PrintLetterBarcodeData"
    (list_to_map [("uid", "123412341234")]) [].

Definition sample_card_xml : string :=
  "<PrintLetterBarcodeData uid='123412341234' name='A' gender='M'/>".

Definition sample_card_unnamed_xml : string :=
  "<PrintLetterBarcodeData uid='123412341234'/>".

(** The element [<OKY g='M' gender='F'/>] and the element
    [<OfflinePaperlessKyc gender='F'><Poi gender='M'/></OfflinePaperlessKyc>]. *)
Definition sample_short_form : Aadhaar.Element :=
  Aadhaar.Elem "OKY" (list_to_map [("g", "M"); ("gender", "F")]) [].

Definition sample_offline_form : Aadhaar.Element :=
  Aadhaar.Elem "OfflinePaperlessKyc" (list_to_map [("gender", "F")])
    [Aadhaar.Elem "Poi" (list_to_map [("gender", "M")]) []].

(** A browser that parses the two sample documents, with or without
    [DecompressionStream]; the stream rejects every input. *)
Definition sample_browser (streams : bool) : Aadhaar.Env :=
  {| Aadhaar.parseFromString := fun xml =>
       if String.eqb xml sample_card_unnamed_xml then sample_card_unnamed
       else if String.eqb xml sample_card_xml then sample_card
       else Aadhaar.Elem "parsererror" ∅ [];
     Aadhaar.hasDecompressionStream := streams;
     Aadhaar.decompress := fun _ => None |}.

(** Inflated bytes of the Secure format: the fields [2], [1234], [A  B],
    an empty date of birth, [M] and eleven empty fields, each followed by
    0xFF. *)
Definition sample_secure_bytes : list Z :=
  ([50; 255; 49; 50; 51; 52; 255; 65; 32; 32; 66; 255; 255; 77; 255]
   ++ List.repeat 255 11)%list.

(** Sixty decimal digits. *)
Definition sample_digits : string :=
  "123456789012345678901234567890123456789012345678901234567890".

(** An environment of the contact-card scanner in which [JSON.parse] raises
    on every input, the key-value expression matches nowhere and the storage
    accepts every payload. *)
Definition sample_contacts_env : Contacts.Env :=
  {| Contacts.JSON_parse := fun _ => None;
     Contacts.kv_matches := fun _ => [];
     Contacts.setItem_ok := fun _ => true |}.

Definition sample_contact : Contacts.Record_ :=
  {| Contacts.username := "Jane"; Contacts.dob := "1990-01-01";
     Contacts.age := "34"; Contacts.gender := "Female";
     Contacts.mobile := "9990001111"; Contacts.email := "jane@x.com" |}.

Definition sample_contact_other : Contacts.Record_ :=
  {| Contacts.username := "Joe"; Contacts.dob := ""; Contacts.age := "";
     Contacts.gender := "Male"; Contacts.mobile := "";
     Contacts.email := "joe@x.com" |}.

(** The same contact, known by its e-mail address only. *)
Definition sample_contact_blank : Contacts.Record_ :=
  {| Contacts.username := ""; Contacts.dob := ""; Contacts.age := "";
     Contacts.gender := ""; Contacts.mobile := "";
     Contacts.email := "jane@x.com" |}.

(** ** Further code of the programs *)

From stdpp Require Import pretty.

#[local] Open Scope string_scope.
#[local] Open Scope Z_scope.

(** *** Rendering of the record table, [src/app.js] *)

Module Display.

(** [digits.replace(/(\d{4})(?=\d)/g, '$1 ')]: from left to right, four
    digits that a digit follows get a space after them and the search goes
    on after them; where there is no such match the character is kept and
    the search goes on at the next one. *)
Fixpoint group4 (s : string) : string :=
  match s with
  | EmptyString => EmptyString
  | String a t =>
      match t with
      | String b (String c (String d rest)) =>
          if (is_digit a && is_digit b && is_digit c && is_digit d
              && match rest with
                 | String e _ => is_digit e
                 | EmptyString => false
                 end)%bool
          then String a (String b (String c (String d (String " " (group4 rest)))))
          else String a (group4 t)
      | _ => String a (group4 t)
      end
  end.

(** [formatUid(value)]. *)
Definition formatUid (value : string) : string :=
  if negb (truthy value) then ""
  else
    let digits := strip_ws value in
    if negb (all_chars is_digit digits && (String.length digits =? 12)%nat)%bool
    then value
    else group4 digits.

(** A row of the table body: the row of the empty table, with its only
    cell, or the six cells of a record. *)
Inductive Row : Type :=
| EmptyRow (text : string)
| RecordRow (cells : list string).

(** What [renderRecords] leaves in the page: the rows of [el.recordsBody]
    and the text of [el.recordsBadge]. *)
Record View : Type := {
  recordsBody : list Row;
  recordsBadge : string
}.

(** The row that the [forEach] of [renderRecords] appends for a record. *)
Definition record_row (record : gmap string string) : Row :=
  let get := fun name : string => or_empty (record !! name) in
  RecordRow
    [ if truthy (get "uid") then formatUid (get "uid")
      else "Ref " +:+ or_else (get "referenceId") "-";
      or_else (get "name") "-";
      or_else (normalizeGender (record !! "gender")) "-";
      or_else (or_else (get "dob") (get "yob")) "-";
      or_else (get "address") "-";
      or_else (get "lastSeen") "-" ].

(** [renderRecords()]. *)
Definition renderRecords (st : Aadhaar.State) : View :=
  match Aadhaar.order st with
  | [] => {| recordsBody := [EmptyRow "No scans yet."];
             recordsBadge := "0 records" |}
  | _ :: _ =>
      {| recordsBody :=
           omap (fun key => record_row <$> Aadhaar.records st !! key)
                (Aadhaar.order st);
         recordsBadge := pretty (length (Aadhaar.order st)) +:+ " records" |}
  end.

End Display.

(** *** The scanner with a history, second program of [src/unnamed/part_000] *)

Module History.

(** [config.maxHistory]. *)
Definition maxHistory : nat := 20.

Inductive Tone : Type := Plain | Error.

(** The module-level [state] object (its [history] holds the pairs of a
    value and a formatted time) and what the handlers write in the page:
    the result text, the result badge with its [neutral] class, whether the
    copy button is disabled, the items of the history list (time, value) and
    the history badge. *)
Record State : Type := {
  scanning : bool;
  torchEnabled : bool;
  lastValue : option string;
  lastValueTs : Z;
  history : list (string * string);
  resultText : string;
  resultBadge : string * bool;
  copyDisabled : bool;
  historyList : list (string * string);
  historyBadge : string
}.

(** [handleScanResult(value)]; [now] is [Date.now()] and [time] is
    [formatTime(new Date())].  [setBadge] and [updateHistory] are inlined. *)
Definition handleScanResult (st : State) (value : string) (now : Z)
    (time : string) : State :=
  if ((if decide (lastValue st = Some value) then true else false)
      && (now - lastValueTs st <? duplicateCooldownMs))%bool
  then st
  else
    let history' := take maxHistory ((value, time) :: history st) in
    {| scanning := scanning st; torchEnabled := torchEnabled st;
       lastValue := Some value; lastValueTs := now;
       history := history';
       resultText := value;
       resultBadge := ("Scan captured", false);
       copyDisabled := false;
       historyList := List.map (fun entry => (snd entry, fst entry)) history';
       historyBadge := pretty (length history') +:+ " items" |}.

(** [clearResults()]. *)
Definition clearResults (st : State) : State :=
  {| scanning := scanning st; torchEnabled := torchEnabled st;
     lastValue := None; lastValueTs := 0;
     history := [];
     resultText := "-";
     resultBadge := ("No scans yet", true);
     copyDisabled := true;
     historyList := [];
     historyBadge := "0 items" |}.

(** What the user does and what the scanner delivers. *)
Inductive Event : Type :=
| Scan (value : string) (now : Z) (time : string)
| Clear.

Definition step (st : State) (ev : Event) : State :=
  match ev with
  | Scan value now time => handleScanResult st value now time
  | Clear => clearResults st
  end.

End History.

(** *** The frame loop of [QrScanner], the same in the three programs *)

Module Scanner.

Section Loop.

(** The time stamps that [requestAnimationFrame] gives are numbers with a
    fractional part; their type, the number 0 and the test
    [timestamp - this.lastScanTs >= config.scanIntervalMs], in this order
    of its arguments, are left to the environment. *)
Variable T : Type.
Variable zero : T.
Variable interval_elapsed : T -> T -> bool.

(** The fields of the scanner that the loop uses, and the time stamps of
    the calls of [scanFrame] made so far.  Which frame callbacks are pending
    is the environment's: it calls [loop] with the time stamp of each
    frame. *)
Record State : Type := {
  active : bool;
  lastScanTs : T;
  attempts : list T
}.

(** [loop(timestamp)]. *)
Definition loop (s : State) (timestamp : T) : State :=
  if negb (active s) then s
  else if interval_elapsed timestamp (lastScanTs s) then
    {| active := active s; lastScanTs := timestamp;
       attempts := (attempts s ++ [timestamp])%list |}
  else s.

(** [start()]. *)
Definition start (s : State) : State :=
  loop {| active := true; lastScanTs := zero; attempts := attempts s |} zero.

(** [stop()]. *)
Definition stop (s : State) : State :=
  {| active := false; lastScanTs := lastScanTs s; attempts := attempts s |}.

(** Attempts that follow one another at the pace of the test: each is due
    with respect to the one before, the first with respect to [last]. *)
Fixpoint paced (last : T) (ts : list T) : Prop :=
  match ts with
  | [] => True
  | t :: rest => interval_elapsed t last = true /\ paced t rest
  end.

End Loop.

(** The test on whole milliseconds, [config.scanIntervalMs] being 200. *)
Definition interval_elapsed_ms (timestamp last : Z) : bool :=
  200 <=? timestamp - last.

(** Time stamps that are at least 200 apart, the first from [last]. *)
Fixpoint spaced (last : Z) (ts : list Z) : Prop :=
  match ts with
  | [] => True
  | t :: rest => 200 <= t - last /\ spaced t rest
  end.

End Scanner.

(** *** Starting and stopping the scan, [src/app.js] *)

Module Session.

(** How [camera.start()] settles: the stream is there, or the promise is
    rejected with an error of the given name ([OtherError] carries the
    message of any other error, that of a browser without camera access
    among them). *)
Inductive StartOutcome : Type :=
| Started
| NotAllowedError
| SecurityError
| NotFoundError
| OtherError (message : string).

(** What the browser provides: [window.isSecureContext] and the presence of
    [window.BarcodeDetector] and of [window.jsQR]. *)
Record Env : Type := {
  isSecureContext : bool;
  hasBarcodeDetector : bool;
  hasJsQR : bool
}.

Inductive Tone : Type := Plain | Error.

(** [state.scanning], the module variable [awaitingGesture], the status
    line, whether the camera holds a stream, whether the scanner is active,
    and three counters: the [click] listeners registered with [once] and not
    yet run, the calls of [startScan] that wait for [camera.start()], and
    the calls of [camera.start()] made so far. *)
Record State : Type := {
  scanning : bool;
  awaitingGesture : bool;
  status : string * Tone;
  stream : bool;
  scannerActive : bool;
  clickListeners : nat;
  inFlight : nat;
  cameraRequests : nat
}.

Definition initial : State :=
  {| scanning := false; awaitingGesture := false; status := ("", Plain);
     stream := false; scannerActive := false; clickListeners := 0;
     inFlight := 0; cameraRequests := 0 |}.

(** [setStatus(message, tone)]. *)
Definition setStatus (st : State) (message : string) (tone : Tone) : State :=
  {| scanning := scanning st; awaitingGesture := awaitingGesture st;
     status := (message, tone); stream := stream st;
     scannerActive := scannerActive st; clickListeners := clickListeners st;
     inFlight := inFlight st; cameraRequests := cameraRequests st |}.

(** [queueGestureStart()]. *)
Definition queueGestureStart (st : State) : State :=
  if awaitingGesture st then st
  else
    {| scanning := scanning st; awaitingGesture := true; status := status st;
       stream := stream st; scannerActive := scannerActive st;
       clickListeners := S (clickListeners st);
       inFlight := inFlight st; cameraRequests := cameraRequests st |}.

(** [startScan()] up to its [await camera.start()]. *)
Definition startScan_begin (env : Env) (st : State) : State :=
  if scanning st then st
  else if negb (isSecureContext env) then
    setStatus st "Secure context required." Error
  else
    let st1 := setStatus st "Requesting camera access..." Plain in
    {| scanning := scanning st1; awaitingGesture := awaitingGesture st1;
       status := status st1; stream := stream st1;
       scannerActive := scannerActive st1;
       clickListeners := clickListeners st1;
       inFlight := S (inFlight st1);
       cameraRequests := S (cameraRequests st1) |}.

(** [startScan()] from the point where [camera.start()] has settled, for
    one of the calls that wait for it. *)
Definition startScan_settle (st : State) (outcome : StartOutcome) : State :=
  match inFlight st with
  | O => st
  | S waiting =>
      let st0 :=
        {| scanning := scanning st; awaitingGesture := awaitingGesture st;
           status := status st; stream := stream st;
           scannerActive := scannerActive st;
           clickListeners := clickListeners st;
           inFlight := waiting; cameraRequests := cameraRequests st |} in
      match outcome with
      | Started =>
          {| scanning := true; awaitingGesture := awaitingGesture st0;
             status := ("Scanning...", Plain); stream := true;
             scannerActive := true; clickListeners := clickListeners st0;
             inFlight := inFlight st0; cameraRequests := cameraRequests st0 |}
      | NotAllowedError | SecurityError =>
          queueGestureStart
            (setStatus st0 "Camera permission required. Tap to allow." Error)
      | NotFoundError => setStatus st0 "No camera found." Error
      | OtherError message =>
          setStatus st0 (or_else message "Unable to access camera.") Error
      end
  end.

(** [stopScan()]: [scanner.stop()], [camera.stop()] and the flag. *)
Definition stopScan (st : State) : State :=
  if negb (scanning st) then st
  else
    {| scanning := false; awaitingGesture := awaitingGesture st;
       status := status st; stream := false; scannerActive := false;
       clickListeners := clickListeners st; inFlight := inFlight st;
       cameraRequests := cameraRequests st |}.

(** The listener that [queueGestureStart] registers, up to the [await] of
    its [startScan()]. *)
Definition gesture_listener (env : Env) (st : State) : State :=
  startScan_begin env
    {| scanning := scanning st; awaitingGesture := false; status := status st;
       stream := stream st; scannerActive := scannerActive st;
       clickListeners := clickListeners st; inFlight := inFlight st;
       cameraRequests := cameraRequests st |}.

(** A click on the document: the registered listeners run, each once, and
    are gone. *)
Definition click (env : Env) (st : State) : State :=
  Nat.iter (clickListeners st) (gesture_listener env)
    {| scanning := scanning st; awaitingGesture := awaitingGesture st;
       status := status st; stream := stream st;
       scannerActive := scannerActive st; clickListeners := 0;
       inFlight := inFlight st; cameraRequests := cameraRequests st |}.

(** The listener of [beforeunload]: [scanner.stop(); camera.stop()]. *)
Definition beforeUnload (st : State) : State :=
  {| scanning := scanning st; awaitingGesture := awaitingGesture st;
     status := status st; stream := false; scannerActive := false;
     clickListeners := clickListeners st; inFlight := inFlight st;
     cameraRequests := cameraRequests st |}.

(** [init()], up to the [await] of the [startScan()] it ends with:
    [updateCapabilityBadge()] and [scanner.initDetector()] both succeed when
    the context is secure and one of the two detectors is present. *)
Definition init (env : Env) (st : State) : State :=
  if negb (isSecureContext env && (hasBarcodeDetector env || hasJsQR env))%bool
  then setStatus st "Scanner unavailable." Error
  else startScan_begin env (setStatus st "Ready." Plain).

(** What happens to the page. *)
Inductive Event : Type :=
| Init
| Click
| CameraSettles (outcome : StartOutcome)
| Hidden
| PageHide
| BeforeUnload.

Definition step (env : Env) (st : State) (ev : Event) : State :=
  match ev with
  | Init => init env st
  | Click => click env st
  | CameraSettles outcome => startScan_settle st outcome
  | Hidden | PageHide => stopScan st
  | BeforeUnload => beforeUnload st
  end.

(** The state after a sequence of events, from the initial state. *)
Definition run (env : Env) (events : list Event) : State :=
  fold_left (step env) events initial.

End Session.

(** *** Notions used to state the further properties *)

(** Number of occurrences of a character in a string. *)
Definition occurrences (c : ascii) (s : string) : nat :=
  String.length (keep (fun x => if ascii_dec x c then true else false) s).

(** The delimiter that [parseDelimitedPayload] chooses for a trimmed
    payload in which one of the three occurs. *)
Definition chosen_delimiter (trimmed : string) : ascii :=
  if includes trimmed "|" then "|"%char
  else if includes trimmed "," then ","%char
  else ";"%char.

(** A store of the contact-card scanner whose content is clean: the two
    structures are in lockstep, no key is empty and every record is in the
    form that the cleaning helpers give. *)
Definition store_clean (st : Contacts.State) : Prop :=
  lockstep (Contacts.records st) (Contacts.order st)
  /\ Forall (fun key => truthy key = true) (Contacts.order st)
  /\ forall key r, Contacts.records st !! key = Some r -> contact_cleaned r.

(** The page of the scanner with a history agrees with its state: the
    history has at most [maxHistory] entries, the list and the badge show
    them, the result text is the value scanned last (or the dash of the
    cleared page) and the copy button is disabled exactly when there is no
    entry. *)
Definition history_shown (st : History.State) : Prop :=
  (length (History.history st) <= History.maxHistory)%nat
  /\ History.historyList st
     = List.map (fun entry => (snd entry, fst entry)) (History.history st)
  /\ History.historyBadge st
     = pretty (length (History.history st)) +:+ " items"
  /\ History.resultText st
     = match History.history st with
       | [] => "-"
       | entry :: _ => fst entry
       end
  /\ History.copyDisabled st
     = match History.history st with [] => true | _ :: _ => false end.

(** What holds of the page of [src/app.js] after any sequence of events:
    there is a registered click listener exactly when [awaitingGesture] is
    set, and never more than one; the scanner is active only while
    [state.scanning] is set. *)
Definition session_inv (st : Session.State) : Prop :=
  Session.clickListeners st = (if Session.awaitingGesture st then 1 else 0)%nat
  /\ (Session.scannerActive st = true -> Session.scanning st = true).

(** *** The scan-result handler of [src/app.js] around its [await]

    [handleScanResult] of [src/app.js] suspends once, at
    [await parseAadhaarPayload(value)]: what stands before runs when the
    scan result is delivered, what stands after runs when the decoding has
    settled, and other calls of the handler may run in between.  The
    handler of the contact-card scanner has no [await] and runs to its
    end. *)

Module Overlap.

(** What a call does up to its [await], in the order of its statements: it
    records the raw string with its time stamp, and it starts the grammars
    ([parseXmlPayload] runs to its end, [parseSecureQr] up to the [await] of
    [inflateBytes]). *)
Inductive Event : Type :=
| Armed (value : string) (now : Z)
| Attempt (g : Aadhaar.Grammar) (value : string).

(** The page: the [state] object, the [value] of each call that waits at
    its [await], in the order of their arrival, and what has happened so
    far. *)
Record Page : Type := {
  state : Aadhaar.State;
  waiting : list string;
  trace : list Event
}.

Definition initial : Page :=
  {| state := Aadhaar.initial; waiting := []; trace := [] |}.

(** [handleScanResult(value)] up to its [await]; [now] is [Date.now()]. *)
Definition handleScanResult_begin (env : Aadhaar.Env) (p : Page)
    (value : string) (now : Z) : Page :=
  let st := state p in
  if Aadhaar.is_duplicate st value now then p
  else
    let st1 :=
      {| Aadhaar.scanning := Aadhaar.scanning st;
         Aadhaar.lastValue := Some value;
         Aadhaar.lastValueTs := now;
         Aadhaar.records := Aadhaar.records st;
         Aadhaar.order := Aadhaar.order st;
         Aadhaar.status := Aadhaar.status st;
         Aadhaar.decodeLog := Aadhaar.decodeLog st |} in
    let trace1 := (trace p ++ [Armed value now])%list in
    let compact := strip_ws value in
    let looksNumeric := looks_numeric compact in
    if (looksNumeric && negb (Aadhaar.hasDecompressionStream env))%bool then
      {| state :=
           Aadhaar.setStatus st1
             "Secure QR needs a compatible browser to decode." Aadhaar.Error;
         waiting := waiting p;
         trace := trace1 |}
    else
      let consulted := snd (Aadhaar.parseAadhaarPayload env value) in
      {| state :=
           {| Aadhaar.scanning := Aadhaar.scanning st1;
              Aadhaar.lastValue := Aadhaar.lastValue st1;
              Aadhaar.lastValueTs := Aadhaar.lastValueTs st1;
              Aadhaar.records := Aadhaar.records st1;
              Aadhaar.order := Aadhaar.order st1;
              Aadhaar.status := Aadhaar.status st1;
              Aadhaar.decodeLog :=
                (Aadhaar.decodeLog st1
                 ++ List.map (fun g => (g, value)) consulted)%list |};
         waiting := (waiting p ++ [value])%list;
         trace :=
           (trace1 ++ List.map (fun g => Attempt g value) consulted)%list |}.

(** [handleScanResult] from its [await] on, for the waiting call number
    [k]: the decoding of its [value] has settled; [stamp] is the formatted
    date that [upsertRecord] would take. *)
Definition handleScanResult_resume (env : Aadhaar.Env) (p : Page) (k : nat)
    (stamp : string) : Page :=
  match waiting p !! k with
  | None => p
  | Some value =>
      let record := fst (Aadhaar.parseAadhaarPayload env value) in
      let looksNumeric := looks_numeric (strip_ws value) in
      {| state :=
           match record with
           | None =>
               Aadhaar.setStatus (state p)
                 (if looksNumeric then "Secure QR could not be decoded."
                  else "Not an Aadhaar QR format.") Aadhaar.Error
           | Some r => Aadhaar.upsertRecord (state p) r stamp
           end;
         waiting := delete k (waiting p);
         trace := trace p |}
  end.

(** What happens to the page: a scan result is delivered, or the decoding
    of a waiting call settles. *)
Inductive Step : Type :=
| Deliver (value : string) (now : Z)
| Resume (k : nat) (stamp : string).

Definition step (env : Aadhaar.Env) (p : Page) (s : Step) : Page :=
  match s with
  | Deliver value now => handleScanResult_begin env p value now
  | Resume k stamp => handleScanResult_resume env p k stamp
  end.

Definition run (env : Aadhaar.Env) (steps : list Step) : Page :=
  fold_left (step env) steps initial.

(** The scan results delivered in a sequence of steps, with their times. *)
Definition deliveries (steps : list Step) : list (string * Z) :=
  omap (fun s => match s with
                 | Deliver value now => Some (value, now)
                 | Resume _ _ => None
                 end) steps.

End Overlap.

(** The duplicate window in the words of the amended claim: it holds the
    raw string and the time of the last delivery that was accepted, and it
    drops a delivery of the same string less than 1200 ms after that
    time.  A dropped delivery leaves the window as it is. *)
Definition window_drops (window : option (string * Z)) (value : string)
    (now : Z) : bool :=
  match window with
  | Some (v, t) =>
      ((if decide (v = value) then true else false) && (now - t <? 1200))%bool
  | None => false
  end.

Definition window_after (window : option (string * Z)) (d : string * Z)
  : option (string * Z) :=
  if window_drops window d.1 d.2 then window else Some d.

(** The last accepted delivery of a sequence of deliveries. *)
Definition last_accepted (ds : list (string * Z)) : option (string * Z) :=
  fold_left window_after ds None.

(** The window that a state of each program holds. *)
Definition aadhaar_window (st : Aadhaar.State) : option (string * Z) :=
  (fun v => (v, Aadhaar.lastValueTs st)) <$> Aadhaar.lastValue st.

Definition contacts_window (st : Contacts.State) : option (string * Z) :=
  (fun v => (v, Contacts.lastValueTs st)) <$> Contacts.lastValue st.

(** The contact-card scanner after a sequence of deliveries. *)
Definition contacts_deliver (env : Contacts.Env) (st : Contacts.State)
    (ds : list (string * Z)) : Contacts.State :=
  fold_left (fun st d => Contacts.handleScanResult env st d.1 d.2) ds st.

(** A step of the page that accepts no raw string other than [value]: the
    decoding of a waiting call settles, or [value] itself is delivered. *)
Definition no_other_string (value : string) (s : Overlap.Step) : Prop :=
  match s with
  | Overlap.Deliver v _ => v = value
  | Overlap.Resume _ _ => True
  end.

(** Every attempt of a grammar comes after the recording of its raw string,
    with nothing in between but attempts on that string; [current] is the
    raw string recorded last. *)
Fixpoint armed_first (current : option string) (events : list Overlap.Event)
  : bool :=
  match events with
  | [] => true
  | Overlap.Armed value _ :: rest => armed_first (Some value) rest
  | Overlap.Attempt _ value :: rest =>
      ((if decide (current = Some value) then true else false)
       && armed_first current rest)%bool
  end.

(** The contact record that the helpers give for six raw values, each
    field with the helper of that field. *)
Definition cleaned_record (u d a g m e : option string) : Contacts.Record_ :=
  {| Contacts.username := cleanText u; Contacts.dob := cleanText d;
     Contacts.age := cleanText a; Contacts.gender := normalizeGender g;
     Contacts.mobile := Contacts.cleanPhone m;
     Contacts.email := Contacts.cleanEmail e |}.

(** The attributes that the markup grammar reads, with the field each one
    gives: those of a print letter, those of the first [Poi] descendant of
    the offline form, and those of the short form. *)
Definition printLetter_attributes : list (string * string) :=
  [("uid", "uid"); ("name", "name"); ("gender", "gender"); ("dob", "dob");
   ("yob", "yob"); ("pin", "pc")].

Definition printLetter_address : list string :=
  ["co"; "house"; "street"; "lm"; "loc"; "vtc"; "po"; "dist"; "subdist";
   "state"; "pc"].

Definition poi_attributes : list (string * string) :=
  [("name", "name"); ("dob", "dob"); ("yob", "yob"); ("gender", "gender")].

Definition poa_address : list string :=
  ["house"; "street"; "lm"; "loc"; "vtc"; "subdist"; "dist"; "state"].

Definition oky_attributes : list (string * string) :=
  [("referenceId", "r"); ("name", "n"); ("gender", "g"); ("dob", "d");
   ("address", "a")].

(** The field [fa.1] of the record is the attribute [fa.2] of the element
    as it is, or the empty string without element or attribute. *)
Definition copied (r : gmap string string) (source : option Aadhaar.Element)
    (fa : string * string) : Prop :=
  r !! fa.1
  = Some (or_empty (source ≫= fun e => Aadhaar.getAttribute e fa.2)).

(** The fields of a record of the Secure format with the positions of the
    decoded fields they come from. *)
Definition secure_fields : list (string * nat) :=
  [("referenceId", 1); ("name", 2); ("dob", 3); ("gender", 4);
   ("pin", 10)]%nat.

(** The positions, among the decoded fields of the Secure format, of the
    parts of the address, in the order in which they are joined. *)
Definition secure_address : list nat :=
  [5; 8; 13; 7; 9; 15; 14; 6; 12; 10; 11]%nat.

(** * Properties *)

(** ** White space, trimming and cleaning *)

Section TextFacts.

Lemma is_ws_space : is_ws " " = true.
Proof. reflexivity. Qed.

Lemma truthy_false (s : string) : truthy s = false -> s = "".
Proof. destruct s; [reflexivity | discriminate]. Qed.

Lemma or_else_empty_r (s : string) : or_else s "" = s.
Proof. destruct s; reflexivity. Qed.

(** [trimEnd] gives the empty string exactly on white space only. *)
Lemma trimEnd_truthy (s : string) :
  truthy (trimEnd s) = negb (all_chars is_ws s).
Proof.
  induction s as [|c s IH]; [reflexivity|].
  cbn [trimEnd all_chars]. destruct (is_ws c) eqn:Hc; cbn.
  - rewrite <- IH. destruct (truthy (trimEnd s)); reflexivity.
  - reflexivity.
Qed.

Lemma trimStart_all_ws (s : string) :
  all_chars is_ws s = true -> trimStart s = "".
Proof.
  induction s as [|c s IH]; [reflexivity|].
  cbn. destruct (is_ws c); cbn; [exact IH | discriminate].
Qed.

Lemma trimStart_head (s : string) :
  match trimStart s with
  | String c _ => is_ws c = false
  | EmptyString => True
  end.
Proof.
  induction s as [|c s IH]; [exact I|].
  cbn. destruct (is_ws c) eqn:Hc; [exact IH | exact Hc].
Qed.

Lemma trimStart_fixed (s : string) :
  match s with String c _ => is_ws c = false | EmptyString => True end ->
  trimStart s = s.
Proof. destruct s as [|c s]; [reflexivity|]. cbn. intros ->. reflexivity. Qed.

Lemma trimStart_idem (s : string) : trimStart (trimStart s) = trimStart s.
Proof. apply trimStart_fixed, trimStart_head. Qed.

Lemma trimEnd_idem (s : string) : trimEnd (trimEnd s) = trimEnd s.
Proof.
  induction s as [|c s IH]; [reflexivity|].
  cbn [trimEnd].
  destruct (is_ws c && negb (truthy (trimEnd s)))%bool eqn:E; [reflexivity|].
  cbn [trimEnd]. rewrite IH, E. reflexivity.
Qed.

(** Trimming the end keeps the first character of what is left. *)
Lemma trimEnd_head (s : string) :
  match s with String c _ => is_ws c = false | EmptyString => True end ->
  match trimEnd s with String c _ => is_ws c = false | EmptyString => True end.
Proof.
  destruct s as [|c s]; [trivial|].
  cbn. intros Hc. rewrite Hc. exact Hc.
Qed.

Lemma trim_idem (s : string) : trim (trim s) = trim s.
Proof.
  unfold trim.
  rewrite (trimStart_fixed (trimEnd (trimStart s))).
  - apply trimEnd_idem.
  - apply trimEnd_head, trimStart_head.
Qed.

Lemma trim_head (s : string) :
  match trim s with String c _ => is_ws c = false | EmptyString => True end.
Proof. apply trimEnd_head, trimStart_head. Qed.

(** [replace(/\s+/g, ' ')] and trimming commute. *)
Lemma trimStart_collapse (b : bool) (s : string) :
  trimStart (collapse_from b s) = collapse_from false (trimStart s).
Proof.
  revert b. induction s as [|c s IH]; intros b; [reflexivity|].
  cbn [collapse_from trimStart]. destruct (is_ws c) eqn:Hc.
  - destruct b; cbn [trimStart]; rewrite ?is_ws_space; apply IH.
  - cbn [trimStart collapse_from]. rewrite Hc. reflexivity.
Qed.

Lemma collapse_truthy (b : bool) (s : string) :
  all_chars is_ws s = false -> truthy (collapse_from b s) = true.
Proof.
  revert b. induction s as [|c s IH]; intros b; [discriminate|].
  cbn. destruct (is_ws c); cbn; [|reflexivity].
  intros H. destruct b; [apply IH, H | reflexivity].
Qed.

Lemma trimEnd_not_all_ws (s : string) :
  truthy (trimEnd s) = true -> all_chars is_ws (trimEnd s) = false.
Proof.
  intros H. rewrite <- trimEnd_idem, trimEnd_truthy in H.
  destruct (all_chars is_ws (trimEnd s)); [discriminate | reflexivity].
Qed.

Lemma trimEnd_collapse (b : bool) (s : string) :
  trimEnd (collapse_from b s) = collapse_from b (trimEnd s).
Proof.
  revert b. induction s as [|c s IH]; intros b; [reflexivity|].
  cbn [collapse_from trimEnd]. destruct (is_ws c) eqn:Hc; cbn [andb].
  - destruct (truthy (trimEnd s)) eqn:Ht; cbn [negb].
    + cbn [collapse_from]. rewrite Hc.
      destruct b; [apply IH|].
      cbn [trimEnd]. rewrite IH, is_ws_space.
      rewrite (collapse_truthy true _ (trimEnd_not_all_ws _ Ht)). reflexivity.
    + apply truthy_false in Ht.
      assert (Hx : trimEnd (collapse_from true s) = "")
        by (rewrite IH, Ht; reflexivity).
      destruct b; [exact Hx|].
      cbn [trimEnd]. rewrite Hx, is_ws_space. reflexivity.
  - cbn [collapse_from trimEnd]. rewrite Hc, IH. reflexivity.
Qed.

Lemma collapse_idem_aux (s : string) :
  (forall b, collapse_from false (collapse_from b s) = collapse_from b s)
  /\ collapse_from true (collapse_from true s) = collapse_from true s.
Proof.
  induction s as [|c s [IH1 IH2]]; [split; [intros []|]; reflexivity|].
  split; [intros b|]; cbn [collapse_from]; destruct (is_ws c) eqn:Hc.
  - destruct b; [apply IH1|].
    cbn [collapse_from]. rewrite is_ws_space, IH2. reflexivity.
  - cbn [collapse_from]. rewrite Hc, IH1. reflexivity.
  - apply IH2.
  - cbn [collapse_from]. rewrite Hc, IH1. reflexivity.
Qed.

Lemma collapse_ws_idem (s : string) :
  collapse_ws (collapse_ws s) = collapse_ws s.
Proof. apply collapse_idem_aux. Qed.

Lemma trim_collapse (s : string) :
  trim (collapse_ws s) = collapse_ws (trim s).
Proof.
  unfold trim, collapse_ws. rewrite trimStart_collapse, trimEnd_collapse.
  reflexivity.
Qed.

(** Cleaning a cleaned text changes nothing. *)
Lemma cleanText_idem (v : option string) :
  cleanText (Some (cleanText v)) = cleanText v.
Proof.
  unfold cleanText. cbn [or_empty].
  rewrite (trim_collapse (or_empty v)), collapse_ws_idem.
  rewrite <- trim_collapse. apply trim_idem.
Qed.

End TextFacts.

Section CleaningFacts.

Lemma lower_char_idem (c : ascii) : lower_char (lower_char c) = lower_char c.
Proof. destruct c as [[] [] [] [] [] [] [] []]; reflexivity. Qed.

Lemma is_ws_lower_char (c : ascii) : is_ws (lower_char c) = is_ws c.
Proof. destruct c as [[] [] [] [] [] [] [] []]; reflexivity. Qed.

Lemma toLowerCase_idem (s : string) :
  toLowerCase (toLowerCase s) = toLowerCase s.
Proof.
  induction s as [|c s IH]; [reflexivity|].
  cbn. rewrite lower_char_idem, IH. reflexivity.
Qed.

Lemma truthy_toLowerCase (s : string) : truthy (toLowerCase s) = truthy s.
Proof. destruct s; reflexivity. Qed.

Lemma trimStart_toLowerCase (s : string) :
  trimStart (toLowerCase s) = toLowerCase (trimStart s).
Proof.
  induction s as [|c s IH]; [reflexivity|].
  cbn. rewrite is_ws_lower_char. destruct (is_ws c); [exact IH | reflexivity].
Qed.

Lemma trimEnd_toLowerCase (s : string) :
  trimEnd (toLowerCase s) = toLowerCase (trimEnd s).
Proof.
  induction s as [|c s IH]; [reflexivity|].
  cbn. rewrite is_ws_lower_char, IH, truthy_toLowerCase.
  destruct (is_ws c && negb (truthy (trimEnd s)))%bool; reflexivity.
Qed.

Lemma trim_toLowerCase (s : string) :
  trim (toLowerCase s) = toLowerCase (trim s).
Proof.
  unfold trim. rewrite trimStart_toLowerCase, trimEnd_toLowerCase.
  reflexivity.
Qed.

Lemma cleanEmail_idem (v : option string) :
  Contacts.cleanEmail (Some (Contacts.cleanEmail v)) = Contacts.cleanEmail v.
Proof.
  unfold Contacts.cleanEmail. cbn [or_empty].
  rewrite trim_toLowerCase, trim_idem. apply toLowerCase_idem.
Qed.

Lemma keep_idem (p : ascii -> bool) (s : string) :
  keep p (keep p s) = keep p s.
Proof.
  induction s as [|c s IH]; [reflexivity|].
  cbn. destruct (p c) eqn:Hc; [|exact IH].
  cbn. rewrite Hc, IH. reflexivity.
Qed.

Lemma cleanPhone_idem (v : option string) :
  Contacts.cleanPhone (Some (Contacts.cleanPhone v)) = Contacts.cleanPhone v.
Proof.
  destruct v as [[|c s]|]; [reflexivity| |reflexivity].
  change (Contacts.cleanPhone (Some (String c s)))
    with (keep (fun c => (is_digit c || if ascii_dec c "+" then true else false)%bool)
               (String c s)).
  unfold Contacts.cleanPhone.
  destruct (truthy (keep _ (String c s))) eqn:Hk; cbn [negb].
  - apply keep_idem.
  - apply truthy_false in Hk. symmetry. exact Hk.
Qed.

Lemma normalizeGender_idem (v : option string) :
  normalizeGender (Some (normalizeGender v)) = normalizeGender v.
Proof.
  unfold normalizeGender. cbn [or_empty]. cbv zeta.
  set (cl := trim (or_empty v)).
  destruct (truthy cl) eqn:Ht; cbn [negb]; [|reflexivity].
  destruct (startsWith (toLowerCase cl) "m") eqn:Hm; [reflexivity|].
  destruct (startsWith (toLowerCase cl) "f") eqn:Hf; [reflexivity|].
  destruct (startsWith (toLowerCase cl) "t") eqn:Htr; [reflexivity|].
  assert (Hcl : trim cl = cl) by apply trim_idem.
  rewrite Hcl, Ht, Hm, Hf, Htr. reflexivity.
Qed.

End CleaningFacts.

(** ** Big integers to bytes *)

Section BigIntFacts.

Import Aadhaar.

Lemma bigIntToBytes_loop_unfold (temp : Z) (bytes : list Z) :
  bigIntToBytes_loop temp bytes =
  if Z_gt_dec temp 0
  then bigIntToBytes_loop (Z.shiftr temp 8) (Z.land temp 255 :: bytes)
  else bytes.
Proof.
  rewrite bigIntToBytes_loop_equation_1.
  destruct (Z_gt_dec temp 0); reflexivity.
Qed.

Lemma shiftr8_lt (temp : Z) : 0 < temp -> 0 <= Z.shiftr temp 8 < temp.
Proof.
  intros H. rewrite Z.shiftr_div_pow2 by lia. split.
  - apply Z.div_pos; lia.
  - apply Z.div_lt; lia.
Qed.

Lemma land255 (temp : Z) : Z.land temp 255 = temp mod 256.
Proof. change 255 with (Z.ones 8). rewrite Z.land_ones by lia. reflexivity. Qed.

(** The loop puts the bytes of [temp] in front of what it was given. *)
Lemma bigIntToBytes_loop_app (temp : Z) :
  0 <= temp ->
  forall bytes,
    bigIntToBytes_loop temp bytes = (bigIntToBytes_loop temp [] ++ bytes)%list.
Proof.
  intros Hpos. pattern temp.
  apply Zlt_0_ind; [|exact Hpos]. clear temp Hpos.
  intros temp IH Hpos bytes.
  rewrite (bigIntToBytes_loop_unfold temp bytes),
          (bigIntToBytes_loop_unfold temp []).
  destruct (Z_gt_dec temp 0) as [Hgt|Hle]; [|reflexivity].
  pose proof (shiftr8_lt temp ltac:(lia)) as Hs.
  rewrite (IH (Z.shiftr temp 8) ltac:(lia) (_ :: bytes)).
  rewrite (IH (Z.shiftr temp 8) ltac:(lia) [_]).
  rewrite <- app_assoc. reflexivity.
Qed.

Lemma bigIntToBytes_loop_step (temp : Z) :
  0 < temp ->
  bigIntToBytes_loop temp [] =
  (bigIntToBytes_loop (Z.shiftr temp 8) [] ++ [temp mod 256])%list.
Proof.
  intros H. rewrite bigIntToBytes_loop_unfold.
  destruct (Z_gt_dec temp 0); [|lia].
  rewrite bigIntToBytes_loop_app by (apply shiftr8_lt; lia).
  rewrite land255. reflexivity.
Qed.

Lemma be_value_snoc (bytes : list Z) (b : Z) :
  be_value (bytes ++ [b]) = be_value bytes * 256 + b.
Proof. unfold be_value. rewrite fold_left_app. reflexivity. Qed.

Lemma be_value_loop (temp : Z) :
  0 <= temp -> be_value (bigIntToBytes_loop temp []) = temp.
Proof.
  intros Hpos. pattern temp.
  apply Zlt_0_ind; [|exact Hpos]. clear temp Hpos.
  intros temp IH Hpos.
  destruct (Z.eq_dec temp 0) as [->|Hne]; [reflexivity|].
  rewrite bigIntToBytes_loop_step by lia.
  pose proof (shiftr8_lt temp ltac:(lia)) as Hs.
  rewrite be_value_snoc, IH by lia.
  rewrite Z.shiftr_div_pow2 by lia. change (2 ^ 8) with 256.
  pose proof (Z.div_mod temp 256 ltac:(lia)). lia.
Qed.

Lemma bytes_range_loop (temp : Z) :
  0 <= temp -> Forall (fun b => 0 <= b < 256) (bigIntToBytes_loop temp []).
Proof.
  intros Hpos. pattern temp.
  apply Zlt_0_ind; [|exact Hpos]. clear temp Hpos.
  intros temp IH Hpos.
  destruct (Z.eq_dec temp 0) as [->|Hne]; [constructor|].
  rewrite bigIntToBytes_loop_step by lia.
  pose proof (shiftr8_lt temp ltac:(lia)) as Hs.
  apply Forall_app. split; [apply IH; lia|].
  constructor; [|constructor]. apply Z.mod_pos_bound. lia.
Qed.

(** No leading zero byte. *)
Lemma leading_byte_loop (temp : Z) :
  0 <= temp -> 0 < temp ->
  exists b rest, bigIntToBytes_loop temp [] = b :: rest /\ b <> 0.
Proof.
  intros Hpos. pattern temp.
  apply Zlt_0_ind; [|exact Hpos]. clear temp Hpos.
  intros temp IH _ Hpos.
  rewrite bigIntToBytes_loop_step by lia.
  pose proof (shiftr8_lt temp Hpos) as Hs.
  destruct (Z.eq_dec (Z.shiftr temp 8) 0) as [Hz|Hnz].
  - rewrite Hz. exists (temp mod 256), []. split; [reflexivity|].
    rewrite Z.shiftr_div_pow2 in Hz by lia. change (2 ^ 8) with 256 in Hz.
    pose proof (Z.div_mod temp 256 ltac:(lia)). lia.
  - destruct (IH (Z.shiftr temp 8) ltac:(lia) ltac:(lia)) as (b & rest & -> & Hb).
    exists b, (rest ++ [temp mod 256])%list. split; [reflexivity | exact Hb].
Qed.

(** C4.  For every non-negative integer, the bytes of [bigIntToBytes],
    read most significant byte first, give the integer back; they are
    bytes, the sequence is minimal (a positive integer gets no leading
    zero byte), and zero converts to the single byte 0. *)
Theorem bigIntToBytes_roundtrip (value : Z) :
  0 <= value ->
  be_value (bigIntToBytes value) = value
  /\ Forall (fun b => 0 <= b < 256) (bigIntToBytes value)
  /\ (0 < value -> exists b rest, bigIntToBytes value = b :: rest /\ b <> 0)
  /\ bigIntToBytes 0 = [0].
Proof.
  intros Hpos. unfold bigIntToBytes.
  destruct (Z.eqb_spec value 0) as [->|Hne].
  - repeat split; [repeat constructor; lia | lia].
  - repeat split.
    + apply be_value_loop, Hpos.
    + apply bytes_range_loop, Hpos.
    + intros H. apply leading_byte_loop; lia.
Qed.

Lemma bigIntToBytes_roundtrip_witness :
  0 <= 2 ^ 70 + 5
  /\ be_value (bigIntToBytes (2 ^ 70 + 5)) = 2 ^ 70 + 5
  /\ exists b rest, bigIntToBytes (2 ^ 70 + 5) = b :: rest /\ b <> 0.
Proof.
  assert (H : 0 <= 2 ^ 70 + 5) by (vm_compute; discriminate).
  split; [exact H|].
  split; [exact (proj1 (bigIntToBytes_roundtrip (2 ^ 70 + 5) H))|].
  apply (proj1 (proj2 (proj2 (bigIntToBytes_roundtrip (2 ^ 70 + 5) H)))).
  vm_compute. reflexivity.
Defined.

End BigIntFacts.


(** ** The field loop of the Secure format *)

Section SecureFieldFacts.

Import Aadhaar.

Lemma slice_same (i : nat) (bytes : list Z) : slice i i bytes = [].
Proof. unfold slice. rewrite Nat.sub_diag. reflexivity. Qed.

Lemma slice_step (start i : nat) (bytes : list Z) (b : Z) :
  (start <= i)%nat -> bytes !! i = Some b ->
  slice start (S i) bytes = (slice start i bytes ++ [b])%list.
Proof.
  intros Hle Hb. unfold slice.
  replace (S i - start)%nat with (S (i - start)) by lia.
  apply take_S_r. rewrite lookup_drop.
  replace (start + (i - start))%nat with i by lia. exact Hb.
Qed.

Lemma scanned_exit (bytes : list Z) (i start : nat) (fields : list (list Z)) :
  scanned bytes i start fields ->
  (i = length bytes \/ length fields = 16%nat) ->
  split_result bytes fields.
Proof.
  intros (Hi & Htake & Hf & Hopen & Hlen) Hexit.
  exists (slice start i bytes ++ drop i bytes)%list.
  split; [|split; [exact Hf | split; [exact Hlen|]]].
  - rewrite app_assoc, <- Htake, take_drop. reflexivity.
  - intros Hlt. destruct Hexit as [->|Heq]; [|lia].
    rewrite drop_all, app_nil_r. exact Hopen.
Qed.

Lemma scan_loop_split (fuel : nat) (bytes : list Z) :
  forall i start fields,
    (length bytes - i <= fuel)%nat ->
    scanned bytes i start fields ->
    split_result bytes (scan_loop fuel bytes i start fields).
Proof.
  induction fuel as [|fuel IH]; intros i start fields Hfuel Hinv.
  - apply (scanned_exit bytes i start); [exact Hinv|].
    left. destruct Hinv as ((_ & Hi) & _). lia.
  - cbn [scan_loop].
    destruct (i <? length bytes)%nat eqn:Hi; cbn [andb];
      [apply Nat.ltb_lt in Hi | apply Nat.ltb_ge in Hi].
    + destruct (length fields <? 16)%nat eqn:Hn;
        [apply Nat.ltb_lt in Hn | apply Nat.ltb_ge in Hn].
      * destruct Hinv as ((Hs & _) & Htake & Hf & Hopen & Hlen).
        destruct (lookup_lt_is_Some_2 bytes i Hi) as [b Hb].
        destruct (decide (bytes !! i = Some 255)) as [H255|Hno].
        -- apply IH; [lia|]. repeat split; try lia.
           ++ rewrite (take_S_r _ _ _ H255), Htake, slice_same, app_nil_r.
              rewrite List.map_app, concat_app. cbn. rewrite app_nil_r. unfold closed.
              rewrite <- app_assoc. reflexivity.
           ++ apply Forall_app. split; [exact Hf|]. constructor; [exact Hopen|constructor].
           ++ rewrite slice_same. apply not_elem_of_nil.
           ++ rewrite length_app. cbn. lia.
        -- apply IH; [lia|]. repeat split; try lia.
           ++ rewrite (take_S_r _ _ _ Hb), Htake, (slice_step _ _ _ _ Hs Hb).
              rewrite <- app_assoc. reflexivity.
           ++ exact Hf.
           ++ rewrite (slice_step _ _ _ _ Hs Hb).
              rewrite not_elem_of_app. split; [exact Hopen|].
              rewrite list_elem_of_singleton. intros <-. apply Hno, Hb.
      * apply (scanned_exit bytes i start); [exact Hinv|].
        right. destruct Hinv as (_ & _ & _ & _ & Hlen). lia.
    + apply (scanned_exit bytes i start); [exact Hinv|].
      left. destruct Hinv as ((_ & Hi') & _). lia.
Qed.

Lemma scan_fields_split (bytes : list Z) : split_result bytes (scan_fields bytes).
Proof.
  apply scan_loop_split; [lia|].
  split; [split; lia|].
  split; [reflexivity|].
  split; [constructor|].
  split; [apply not_elem_of_nil | cbn; lia].
Qed.

(** More fuel than the bytes left does not change what the loop returns:
    the loop ends by itself. *)
Lemma scan_loop_fuel (fuel : nat) (bytes : list Z) :
  forall i start fields extra,
    (length bytes - i <= fuel)%nat ->
    scan_loop (fuel + extra) bytes i start fields
    = scan_loop fuel bytes i start fields.
Proof.
  induction fuel as [|fuel IH]; intros i start fields extra Hfuel.
  - destruct extra as [|extra]; [reflexivity|]. cbn [Nat.add scan_loop].
    replace (i <? length bytes)%nat with false; [reflexivity|].
    symmetry. apply Nat.ltb_ge. lia.
  - cbn [Nat.add scan_loop].
    destruct (i <? length bytes)%nat eqn:Hi; [|reflexivity].
    destruct (length fields <? 16)%nat; [|reflexivity]. cbn [andb].
    destruct (decide (bytes !! i = Some 255)); apply IH; lia.
Qed.

Lemma count_closed_fields (fields : list (list Z)) :
  Forall (fun f => 255 ∉ f) fields ->
  count_occ Z.eq_dec (concat (List.map closed fields)) 255 = length fields.
Proof.
  induction 1 as [|f fields Hf _ IH]; [reflexivity|].
  cbn [List.map concat]. unfold closed at 1.
  rewrite !count_occ_app, IH. cbn.
  rewrite (proj1 (count_occ_not_In Z.eq_dec f 255)).
  - reflexivity.
  - intros Hin. apply Hf, list_elem_of_In, Hin.
Qed.

Lemma split_result_length (bytes : list Z) (fields : list (list Z)) :
  split_result bytes fields ->
  length fields = Nat.min 16 (count_occ Z.eq_dec bytes 255).
Proof.
  intros (rest & -> & Hf & Hlen & Hrest).
  rewrite count_occ_app, (count_closed_fields _ Hf).
  destruct (decide (length fields < 16)%nat) as [Hlt|Hge]; [|lia].
  rewrite (proj1 (count_occ_not_In Z.eq_dec rest 255)); [lia|].
  intros Hin. apply (Hrest Hlt), list_elem_of_In, Hin.
Qed.

(** C3.  The field step of the Secure format splits the bytes on 0xFF and
    stops once 16 delimited fields have been collected; it returns no
    record when fewer than 16 fields are found, and none either when the
    first or the second field is empty after decoding and cleaning.  In
    every other case it returns a record.  The loop ends by itself: running
    it for more iterations than there are bytes gives the same fields. *)
Theorem parseSecureQrBytes_fields (bytes : list Z) :
  let fields := scan_fields bytes in
  let decoded :=
    List.map (fun chunk => cleanText (Some (textDecoder_decode chunk))) fields in
  split_result bytes fields
  /\ length fields = Nat.min 16 (count_occ Z.eq_dec bytes 255)
  /\ ((length fields < 16)%nat -> parseSecureQrBytes bytes = None)
  /\ (or_empty (decoded !! 0%nat) = "" \/ or_empty (decoded !! 1%nat) = "" ->
      parseSecureQrBytes bytes = None)
  /\ (length fields = 16%nat ->
      or_empty (decoded !! 0%nat) <> "" -> or_empty (decoded !! 1%nat) <> "" ->
      is_Some (parseSecureQrBytes bytes))
  /\ (forall extra, scan_loop (length bytes + extra) bytes 0 0 [] = fields).
Proof.
  intros fields decoded.
  pose proof (scan_fields_split bytes) as Hsplit. fold fields in Hsplit.
  split; [exact Hsplit|].
  split; [apply split_result_length, Hsplit|].
  unfold parseSecureQrBytes. fold fields. cbv zeta. fold decoded.
  split; [|split; [|split]]; cycle 3.
  { intros extra. apply scan_loop_fuel. lia. }
  - intros Hlt. apply Nat.ltb_lt in Hlt. rewrite Hlt. reflexivity.
  - intros Hempty. destruct (length fields <? 16)%nat; [reflexivity|].
    destruct Hempty as [-> | ->]; [reflexivity|].
    rewrite orb_true_r. reflexivity.
  - intros Hlen H0 H1.
    replace (length fields <? 16)%nat with false
      by (symmetry; apply Nat.ltb_ge; lia).
    destruct (or_empty (decoded !! 0%nat)) eqn:E0; [congruence|].
    destruct (or_empty (decoded !! 1%nat)) eqn:E1; [congruence|].
    cbn [truthy negb orb]. eexists. reflexivity.
Qed.

(** Fifteen delimiters only, and sixteen with an empty second field. *)
Lemma parseSecureQrBytes_fields_witness :
  parseSecureQrBytes ([50; 255; 49; 255] ++ List.repeat 255 13) = None
  /\ parseSecureQrBytes ([50; 255; 32; 255] ++ List.repeat 255 14) = None
  /\ is_Some (parseSecureQrBytes ([50; 255; 49; 255] ++ List.repeat 255 14)).
Proof.
  split; [|split].
  - apply (proj1 (proj2 (proj2 (parseSecureQrBytes_fields _)))).
    vm_compute. lia.
  - apply (proj1 (proj2 (proj2 (proj2 (parseSecureQrBytes_fields _))))).
    right. reflexivity.
  - apply (proj1 (proj2 (proj2 (proj2 (proj2 (parseSecureQrBytes_fields _)))))).
    + reflexivity.
    + vm_compute. discriminate.
    + vm_compute. discriminate.
Defined.

End SecureFieldFacts.

(** ** The order sequence and the mapping *)

Section LockstepFacts.

Context {V : Type}.

Implicit Types (records : gmap string V) (order : list string).

Lemma lockstep_empty : lockstep (∅ : gmap string V) [].
Proof.
  split; [constructor|]. intros key. rewrite lookup_empty. split.
  - intros H. inversion H.
  - intros [v H]. discriminate.
Qed.

(** [order.filter((item) => item !== key)]. *)
Lemma elem_of_without (key k : string) order :
  k ∈ List.filter (fun item => negb (String.eqb item key)) order
  <-> k ∈ order /\ k <> key.
Proof.
  rewrite !list_elem_of_In, List.filter_In.
  destruct (String.eqb_spec k key) as [->|Hne]; cbn; intuition congruence.
Qed.

(** What an upsert does to the two structures keeps them in lockstep. *)
Lemma lockstep_upsert records order (key : string) (v : V) :
  lockstep records order ->
  lockstep (<[key := v]> records)
           (key :: List.filter (fun item => negb (String.eqb item key)) order).
Proof.
  intros [Hnd Hdom]. split.
  - constructor.
    + rewrite elem_of_without. tauto.
    + apply NoDup_ListNoDup, List.NoDup_filter, NoDup_ListNoDup, Hnd.
  - intros k. rewrite elem_of_cons, elem_of_without.
    destruct (decide (k = key)) as [->|Hne].
    + rewrite lookup_insert_eq. split; [eauto | tauto].
    + rewrite lookup_insert_ne by congruence. rewrite <- Hdom. tauto.
Qed.

(** What [loadRecords] does for one entry keeps them in lockstep when the
    key is new. *)
Lemma lockstep_push records order (key : string) (v : V) :
  lockstep records order -> key ∉ order ->
  lockstep (<[key := v]> records) (order ++ [key])%list.
Proof.
  intros [Hnd Hdom] Hnew. split.
  - apply NoDup_app. split; [exact Hnd|]. split.
    + intros k Hk. rewrite list_elem_of_singleton. intros ->. exact (Hnew Hk).
    + apply NoDup_singleton.
  - intros k. rewrite elem_of_app, list_elem_of_singleton.
    destruct (decide (k = key)) as [->|Hne].
    + rewrite lookup_insert_eq. split; [eauto | tauto].
    + rewrite lookup_insert_ne by congruence. rewrite <- Hdom. tauto.
Qed.

End LockstepFacts.

(** ** The record store of [src/app.js] *)

Section AadhaarStoreFacts.

Import Aadhaar.

Lemma aadhaar_setStatus_store (st : State) (message : string) (tone : Tone) :
  records (setStatus st message tone) = records st
  /\ order (setStatus st message tone) = order st.
Proof. split; reflexivity. Qed.

Lemma aadhaar_upsert_store (st : State) (record : gmap string string)
    (stamp : string) :
  truthy (recordKey record) = true ->
  records (upsertRecord st record stamp)
  = <[recordKey record :=
        <["lastSeen" := stamp]> (record ∪ default ∅ (records st !! recordKey record))]>
      (records st)
  /\ order (upsertRecord st record stamp)
     = recordKey record
       :: List.filter (fun item => negb (String.eqb item (recordKey record)))
                      (order st).
Proof. intros H. unfold upsertRecord. rewrite H. split; reflexivity. Qed.

Lemma aadhaar_upsert_lockstep (st : State) (record : gmap string string)
    (stamp : string) :
  lockstep (records st) (order st) ->
  lockstep (records (upsertRecord st record stamp))
           (order (upsertRecord st record stamp)).
Proof.
  intros H. destruct (truthy (recordKey record)) eqn:Hk.
  - destruct (aadhaar_upsert_store st record stamp Hk) as [-> ->].
    apply lockstep_upsert, H.
  - unfold upsertRecord. rewrite Hk. exact H.
Qed.

Lemma aadhaar_handle_lockstep (env : Env) (st : State) (value : string)
    (now : Z) (stamp : string) :
  lockstep (records st) (order st) ->
  lockstep (records (handleScanResult env st value now stamp))
           (order (handleScanResult env st value now stamp)).
Proof.
  intros H. unfold handleScanResult.
  destruct (is_duplicate st value now); [exact H|].
  destruct (looks_numeric (strip_ws value) && negb (hasDecompressionStream env))%bool;
    [exact H|].
  destruct (parseAadhaarPayload env value) as [[r|] consulted]; [|exact H].
  apply aadhaar_upsert_lockstep. exact H.
Qed.

Lemma aadhaar_reachable_lockstep (env : Env) (st : State) :
  aadhaar_reachable env st -> lockstep (records st) (order st).
Proof.
  induction 1 as [|st value now stamp _ IH|st record stamp _ IH].
  - apply lockstep_empty.
  - apply aadhaar_handle_lockstep, IH.
  - apply aadhaar_upsert_lockstep, IH.
Qed.

End AadhaarStoreFacts.

(** ** The record store of the contact-card scanner *)

Section ContactsStoreFacts.

Import Contacts.

Lemma contacts_save_store (quota_ok : bool) (st : State) :
  records (saveRecords quota_ok st) = records st
  /\ order (saveRecords quota_ok st) = order st.
Proof. destruct quota_ok; split; reflexivity. Qed.

Lemma contacts_upsert_store (env : Env) (st : State) (record : Record_) :
  truthy (recordKey record) = true ->
  (exists next,
     records (upsertRecord env st record) = <[recordKey record := next]> (records st)
     /\ Forall (fun f : Record_ -> string =>
                  f next = or_else (f record)
                             (match records st !! recordKey record with
                              | Some old => f old
                              | None => ""
                              end)) contact_fields)
  /\ order (upsertRecord env st record)
     = recordKey record
       :: List.filter (fun item => negb (String.eqb item (recordKey record)))
                      (order st).
Proof.
  intros H. unfold upsertRecord. rewrite H. cbn [negb].
  cbn [records order setStatus].
  match goal with
  | |- context [saveRecords ?q ?s] =>
      destruct (contacts_save_store q s) as [-> ->]
  end.
  split; [|reflexivity].
  eexists. split; [reflexivity|].
  repeat constructor; cbn; apply or_else_empty_r.
Qed.

Lemma snapshot_keys_sublist (recs : gmap string Record_) (ord : list string) :
  usable_keys (omap (fun key => entry_of key <$> recs !! key) ord)
    `sublist_of` ord.
Proof.
  induction ord as [|key ord IH]; [constructor|].
  cbn [omap list_omap]. destruct (recs !! key) as [r|]; cbn [fmap option_fmap option_map].
  - unfold usable_keys. cbn [omap list_omap usable_key entry_of e_key].
    destruct (truthy key).
    + apply sublist_skip, IH.
    + apply sublist_cons, IH.
  - apply sublist_cons, IH.
Qed.

Lemma snapshot_storage_ok (st : State) :
  NoDup (order st) -> storage_ok (Some (snapshot st)).
Proof.
  intros H. cbn. unfold snapshot.
  eapply sublist_NoDup; [exact H | apply snapshot_keys_sublist].
Qed.

Lemma contacts_save_storage_ok (quota_ok : bool) (st : State) :
  NoDup (order st) -> storage_ok (storage st) ->
  storage_ok (storage (saveRecords quota_ok st)).
Proof.
  intros Hnd Hok. destruct quota_ok; [|exact Hok].
  apply snapshot_storage_ok, Hnd.
Qed.

Lemma load_entry_effect (st : State) (entry : Entry) :
  match usable_key entry with
  | Some key =>
      exists r, records (load_entry st entry) = <[key := r]> (records st)
                /\ order (load_entry st entry) = (order st ++ [key])%list
  | None => load_entry st entry = st
  end.
Proof.
  unfold usable_key, load_entry.
  destruct (e_key entry) as [key|]; [|reflexivity].
  destruct (truthy key); cbn [negb]; [|reflexivity].
  eexists. split; reflexivity.
Qed.

(** Restoring: [loadRecords] keeps the store in lockstep when the keys it
    takes are pairwise distinct and not yet in the order sequence. *)
Lemma load_entries_lockstep (entries : list Entry) :
  forall st,
    lockstep (records st) (order st) ->
    NoDup (order st ++ usable_keys entries) ->
    lockstep (records (fold_left load_entry entries st))
             (order (fold_left load_entry entries st)).
Proof.
  induction entries as [|entry entries IH]; intros st Hls Hnd; [exact Hls|].
  cbn [fold_left]. unfold usable_keys in Hnd. cbn [omap list_omap] in Hnd.
  pose proof (load_entry_effect st entry) as He.
  destruct (usable_key entry) as [key|].
  - destruct He as (r & Hr & Ho).
    apply NoDup_app in Hnd. destruct Hnd as (Hord & Hdisj & Hk).
    apply NoDup_cons in Hk. destruct Hk as [Hnew Hk].
    apply IH; rewrite ?Hr, Ho.
    + apply lockstep_push; [exact Hls|].
      intros Hin. apply (Hdisj _ Hin). left.
    + rewrite <- app_assoc. cbn. apply NoDup_app. split; [exact Hord|]. split.
      * intros k Hin. exact (Hdisj k Hin).
      * apply NoDup_cons. split; assumption.
  - rewrite He. apply IH; assumption.
Qed.

Lemma load_entries_order (entries : list Entry) :
  forall st,
    order (fold_left load_entry entries st)
    = (order st ++ usable_keys entries)%list.
Proof.
  induction entries as [|entry entries IH]; intros st.
  - cbn. rewrite app_nil_r. reflexivity.
  - cbn [fold_left]. rewrite IH. unfold usable_keys. cbn [omap list_omap].
    pose proof (load_entry_effect st entry) as He.
    destruct (usable_key entry) as [key|].
    + destruct He as (r & _ & ->). rewrite <- app_assoc. reflexivity.
    + rewrite He. reflexivity.
Qed.

Lemma load_entries_storage (entries : list Entry) :
  forall st, storage (fold_left load_entry entries st) = storage st.
Proof.
  induction entries as [|entry entries IH]; intros st; [reflexivity|].
  cbn [fold_left]. rewrite IH. unfold load_entry.
  destruct (e_key entry) as [key|]; [|reflexivity].
  destruct (truthy key); reflexivity.
Qed.

Lemma loadRecords_lockstep (st : State) :
  lockstep (records st) (order st) ->
  (forall entries, storage st = Some entries ->
                   NoDup (order st ++ usable_keys entries)) ->
  lockstep (records (loadRecords st)) (order (loadRecords st)).
Proof.
  intros Hls Hok. unfold loadRecords.
  destruct (storage st) as [entries|]; [|exact Hls].
  apply load_entries_lockstep; [exact Hls | apply Hok; reflexivity].
Qed.

Lemma loadRecords_storage (st : State) : storage (loadRecords st) = storage st.
Proof.
  unfold loadRecords. destruct (storage st) eqn:E; [|exact E].
  rewrite load_entries_storage. exact E.
Qed.

Lemma contacts_init_inv (stored : option (list Entry)) :
  storage_ok stored -> store_inv (loadRecords (initial stored)).
Proof.
  intros Hok. split.
  - apply loadRecords_lockstep; [apply lockstep_empty|].
    cbn. intros entries ->. exact Hok.
  - rewrite loadRecords_storage. exact Hok.
Qed.

Lemma contacts_upsert_inv (env : Env) (st : State) (record : Record_) :
  store_inv st -> store_inv (upsertRecord env st record).
Proof.
  intros [Hls Hok]. destruct (truthy (recordKey record)) eqn:Hk.
  - destruct (contacts_upsert_store env st record Hk) as [(next & Hr & _) Ho].
    assert (Hls' : lockstep (records (upsertRecord env st record))
                            (order (upsertRecord env st record))).
    { rewrite Hr, Ho. apply lockstep_upsert, Hls. }
    split; [exact Hls'|].
    unfold upsertRecord. rewrite Hk. cbn [negb storage setStatus].
    apply contacts_save_storage_ok; cbn [order storage with_store].
    + apply NoDup_cons. split.
      * rewrite elem_of_without. tauto.
      * apply NoDup_ListNoDup, List.NoDup_filter, NoDup_ListNoDup, Hls.
    + exact Hok.
  - unfold upsertRecord. rewrite Hk. split; assumption.
Qed.

Lemma contacts_handle_inv (env : Env) (st : State) (value : string) (now : Z) :
  store_inv st -> store_inv (handleScanResult env st value now).
Proof.
  intros H. unfold handleScanResult.
  destruct (is_duplicate st value now); [exact H|].
  destruct (parseQrPayload env value) as [record consulted].
  destruct (negb (isRecordUsable record)); [exact H|].
  destruct record as [r|]; [|exact H].
  apply contacts_upsert_inv. exact H.
Qed.

Lemma contacts_reachable_inv (env : Env) (st : State) :
  contacts_reachable env st -> store_inv st.
Proof.
  induction 1 as [|st _ IH|st value now _ IH|st record _ IH].
  - apply contacts_init_inv. exact I.
  - apply contacts_init_inv, IH.
  - apply contacts_handle_inv, IH.
  - apply contacts_upsert_inv, IH.
Qed.

End ContactsStoreFacts.

(** ** The merge policy, the order sequence and the lockstep invariant *)

Section StoreClaims.

(** C1, as stated, fails on [src/app.js]: the record of a second scan of the
    same card that carries an empty name blanks the stored name. *)
Lemma merge_blanks_stored_name :
  let env := sample_browser true in
  let st1 := Aadhaar.handleScanResult env Aadhaar.initial sample_card_xml 5000 "t1" in
  let st2 := Aadhaar.handleScanResult env st1 sample_card_unnamed_xml 9000 "t2" in
  Aadhaar.recordKey (Aadhaar.parsePrintLetter sample_card)
  = Aadhaar.recordKey (Aadhaar.parsePrintLetter sample_card_unnamed)
  /\ Aadhaar.parsePrintLetter sample_card_unnamed !! "name" = Some ""
  /\ Aadhaar.records st1 !! "123412341234" ≫= (.!! "name") = Some "A"
  /\ Aadhaar.records st2 !! "123412341234" ≫= (.!! "name") = Some "".
Proof. vm_compute. repeat split. Qed.

(** C1, amended.  In the contact-card scanner the merge is field-wise and
    an empty incoming field never overwrites: each field of the record
    written is the incoming value if that is not empty and the stored value
    otherwise.  In [src/app.js] the merge is an object spread: each property
    that the incoming record carries, empty or not, replaces the stored one,
    the properties it does not carry keep their stored value, and
    [lastSeen] is stamped. *)
Theorem merge_policy :
  (forall env st record old,
      truthy (Contacts.recordKey record) = true ->
      Contacts.records st !! Contacts.recordKey record = Some old ->
      exists next,
        Contacts.records (Contacts.upsertRecord env st record)
          !! Contacts.recordKey record = Some next
        /\ Forall (fun f : Contacts.Record_ -> string =>
                     f next = if truthy (f record) then f record else f old)
                  contact_fields)
  /\ (forall st record stamp old,
         truthy (Aadhaar.recordKey record) = true ->
         Aadhaar.records st !! Aadhaar.recordKey record = Some old ->
         exists next,
           Aadhaar.records (Aadhaar.upsertRecord st record stamp)
             !! Aadhaar.recordKey record = Some next
           /\ next !! "lastSeen" = Some stamp
           /\ forall field, field <> "lastSeen" ->
                next !! field = match record !! field with
                                | Some v => Some v
                                | None => old !! field
                                end).
Proof.
  split.
  - intros env st record old Hk Hold.
    destruct (contacts_upsert_store env st record Hk) as [(next & Hr & Hf) _].
    exists next. rewrite Hr, lookup_insert_eq. split; [reflexivity|].
    rewrite Hold in Hf. exact Hf.
  - intros st record stamp old Hk Hold.
    destruct (aadhaar_upsert_store st record stamp Hk) as [Hr _].
    rewrite Hold in Hr. change (default ∅ (Some old)) with old in Hr.
    exists (<["lastSeen" := stamp]> (record ∪ old)).
    rewrite Hr, lookup_insert_eq. split; [reflexivity|].
    split; [apply lookup_insert_eq|].
    intros field Hne. rewrite lookup_insert_ne by congruence.
    rewrite lookup_union.
    destruct (record !! field), (old !! field); reflexivity.
Qed.

Lemma merge_policy_witness :
  (exists next,
      Contacts.records
        (Contacts.upsertRecord sample_contacts_env
           (Contacts.upsertRecord sample_contacts_env (Contacts.initial None)
              sample_contact)
           sample_contact_blank)
        !! "email:jane@x.com" = Some next
      /\ Contacts.username next = "Jane")
  /\ (exists next,
         Aadhaar.records
           (Aadhaar.upsertRecord
              (Aadhaar.upsertRecord Aadhaar.initial
                 (Aadhaar.parsePrintLetter sample_card) "t1")
              (Aadhaar.parseOkY (Aadhaar.Elem "OKY" {["r" := "123412341234"]} []))
              "t2")
           !! "123412341234" = Some next
         /\ next !! "uid" = Some "123412341234").
Proof.
  split.
  - destruct (proj1 merge_policy sample_contacts_env
                (Contacts.upsertRecord sample_contacts_env (Contacts.initial None)
                   sample_contact)
                sample_contact_blank sample_contact)
      as (next & Hnext & Hf); [reflexivity | reflexivity |].
    exists next. split; [exact Hnext|].
    apply Forall_cons in Hf. exact (proj1 Hf).
  - destruct (proj2 merge_policy
                (Aadhaar.upsertRecord Aadhaar.initial
                   (Aadhaar.parsePrintLetter sample_card) "t1")
                (Aadhaar.parseOkY (Aadhaar.Elem "OKY" {["r" := "123412341234"]} []))
                "t2"
                (<["lastSeen" := "t1"]> (Aadhaar.parsePrintLetter sample_card)))
      as (next & Hnext & _ & Hf); [reflexivity | vm_compute; reflexivity |].
    exists next. split; [exact Hnext|].
    rewrite (Hf "uid") by discriminate. reflexivity.
Defined.

Lemma without_self_other (a b : string) :
  a <> b ->
  List.filter (fun item => negb (String.eqb item a)) [b; a] = [b].
Proof.
  intros Hne. cbn.
  destruct (String.eqb_spec b a) as [->|_]; [congruence|].
  rewrite String.eqb_refl. reflexivity.
Qed.

Lemma without_other (a b : string) :
  a <> b -> List.filter (fun item => negb (String.eqb item b)) [a] = [a].
Proof.
  intros Hne. cbn. rewrite (proj2 (String.eqb_neq _ _) Hne). reflexivity.
Qed.

(** C8.  A successful upsert removes the key of the record from the order
    sequence and puts it in front, so that the key touched last is first;
    from an empty store, upserting records with keys A, B, A leaves the
    sequence [A, B].  This holds in both programs. *)
Theorem upsert_order :
  (forall st record stamp,
      truthy (Aadhaar.recordKey record) = true ->
      Aadhaar.order (Aadhaar.upsertRecord st record stamp)
      = Aadhaar.recordKey record
        :: List.filter (fun item => negb (String.eqb item (Aadhaar.recordKey record)))
                       (Aadhaar.order st))
  /\ (forall env st record,
         truthy (Contacts.recordKey record) = true ->
         Contacts.order (Contacts.upsertRecord env st record)
         = Contacts.recordKey record
           :: List.filter (fun item => negb (String.eqb item (Contacts.recordKey record)))
                          (Contacts.order st))
  /\ (forall st a b s1 s2 s3,
         Aadhaar.order st = [] ->
         truthy (Aadhaar.recordKey a) = true ->
         truthy (Aadhaar.recordKey b) = true ->
         Aadhaar.recordKey a <> Aadhaar.recordKey b ->
         Aadhaar.order
           (Aadhaar.upsertRecord
              (Aadhaar.upsertRecord (Aadhaar.upsertRecord st a s1) b s2) a s3)
         = [Aadhaar.recordKey a; Aadhaar.recordKey b])
  /\ (forall env st a b,
         Contacts.order st = [] ->
         truthy (Contacts.recordKey a) = true ->
         truthy (Contacts.recordKey b) = true ->
         Contacts.recordKey a <> Contacts.recordKey b ->
         Contacts.order
           (Contacts.upsertRecord env
              (Contacts.upsertRecord env (Contacts.upsertRecord env st a) b) a)
         = [Contacts.recordKey a; Contacts.recordKey b]).
Proof.
  split; [|split; [|split]].
  - intros st record stamp Hk. apply aadhaar_upsert_store, Hk.
  - intros env st record Hk. apply contacts_upsert_store, Hk.
  - intros st a b s1 s2 s3 Hempty Ha Hb Hne.
    rewrite (proj2 (aadhaar_upsert_store _ a s3 Ha)).
    rewrite (proj2 (aadhaar_upsert_store _ b s2 Hb)).
    rewrite (proj2 (aadhaar_upsert_store _ a s1 Ha)).
    rewrite Hempty.
    change (List.filter _ []) with (@nil string).
    rewrite (without_other _ _ Hne), (without_self_other _ _ Hne).
    reflexivity.
  - intros env st a b Hempty Ha Hb Hne.
    rewrite (proj2 (contacts_upsert_store env _ a Ha)).
    rewrite (proj2 (contacts_upsert_store env _ b Hb)).
    rewrite (proj2 (contacts_upsert_store env _ a Ha)).
    rewrite Hempty.
    change (List.filter _ []) with (@nil string).
    rewrite (without_other _ _ Hne), (without_self_other _ _ Hne).
    reflexivity.
Qed.

Lemma upsert_order_witness :
  Aadhaar.order
    (Aadhaar.upsertRecord
       (Aadhaar.upsertRecord
          (Aadhaar.upsertRecord Aadhaar.initial {["uid" := "A"]} "t1")
          {["uid" := "B"]} "t2")
       {["uid" := "A"]} "t3")
  = ["A"; "B"]
  /\ Contacts.order
       (Contacts.upsertRecord sample_contacts_env
          (Contacts.upsertRecord sample_contacts_env
             (Contacts.upsertRecord sample_contacts_env (Contacts.initial None)
                sample_contact)
             sample_contact_other)
          sample_contact)
     = ["email:jane@x.com"; "email:joe@x.com"]
  /\ Aadhaar.order (Aadhaar.upsertRecord Aadhaar.initial {["uid" := "A"]} "t1")
     = ["A"]
  /\ Contacts.order
       (Contacts.upsertRecord sample_contacts_env (Contacts.initial None)
          sample_contact)
     = ["email:jane@x.com"].
Proof.
  split; [|split; [|split]]; cycle 2.
  { etrans.
    - apply (proj1 upsert_order Aadhaar.initial {["uid" := "A"]} "t1").
      reflexivity.
    - reflexivity. }
  { etrans.
    - apply (proj1 (proj2 upsert_order) sample_contacts_env
               (Contacts.initial None) sample_contact).
      reflexivity.
    - reflexivity. }
  - etrans.
    + apply (proj1 (proj2 (proj2 upsert_order))
               Aadhaar.initial {["uid" := "A"]} {["uid" := "B"]} "t1" "t2" "t3");
        [reflexivity | reflexivity | reflexivity | vm_compute; discriminate].
    + reflexivity.
  - etrans.
    + apply (proj2 (proj2 (proj2 upsert_order)) sample_contacts_env
               (Contacts.initial None) sample_contact sample_contact_other);
        [reflexivity | reflexivity | reflexivity | vm_compute; discriminate].
    + reflexivity.
Defined.

(** C9, as stated, fails: [loadRecords] pushes every stored key without
    clearing the store, so that restoring, after an upsert, the snapshot that
    this upsert has saved leaves the key twice in the order sequence; and a
    stored array with a repeated key does the same from the empty store. *)
Lemma restore_breaks_lockstep :
  let st := Contacts.upsertRecord sample_contacts_env (Contacts.initial None)
              sample_contact in
  let st' := Contacts.loadRecords st in
  let twice := [Contacts.entry_of "email:jane@x.com" sample_contact;
                Contacts.entry_of "email:jane@x.com" sample_contact] in
  let st'' := Contacts.loadRecords (Contacts.initial (Some twice)) in
  Contacts.storage st = Some (Contacts.snapshot st)
  /\ Contacts.order st' = ["email:jane@x.com"; "email:jane@x.com"]
  /\ ~ lockstep (Contacts.records st') (Contacts.order st')
  /\ ~ lockstep (Contacts.records st'') (Contacts.order st'').
Proof.
  cbv zeta. split; [reflexivity|]. split; [reflexivity|].
  split; intros [Hnd _]; vm_compute in Hnd;
    apply NoDup_cons in Hnd; destruct Hnd as [Hin _]; apply Hin; left.
Qed.

(** C9, amended.  The two structures are in lockstep in every state that
    the programs reach: from the initial (empty) store, after a restore at
    start-up from what an earlier run has saved, and after every upsert and
    every handled scan result.  In general, [loadRecords] keeps a store in
    lockstep exactly when the keys it takes are pairwise distinct and not
    yet in the order sequence, as the keys of a saved snapshot restored
    into the empty store are. *)
Theorem store_lockstep :
  (forall env st,
      aadhaar_reachable env st ->
      lockstep (Aadhaar.records st) (Aadhaar.order st))
  /\ (forall env st,
         contacts_reachable env st ->
         lockstep (Contacts.records st) (Contacts.order st))
  /\ (forall st,
         lockstep (Contacts.records st) (Contacts.order st) ->
         lockstep (Contacts.records (Contacts.loadRecords st))
                  (Contacts.order (Contacts.loadRecords st))
         <-> (forall entries,
                 Contacts.storage st = Some entries ->
                 NoDup (Contacts.order st ++ usable_keys entries)))
  /\ (forall st,
         NoDup (Contacts.order st) ->
         NoDup (usable_keys (Contacts.snapshot st))).
Proof.
  split; [|split; [|split]].
  - intros env st H. apply (aadhaar_reachable_lockstep env), H.
  - intros env st H. apply (contacts_reachable_inv env), H.
  - intros st Hls. split.
    + intros [Hnd _] entries Hs. unfold Contacts.loadRecords in Hnd.
      rewrite Hs in Hnd. rewrite load_entries_order in Hnd. exact Hnd.
    + intros Hok. apply loadRecords_lockstep; assumption.
  - intros st H. apply (snapshot_storage_ok st H).
Qed.

Lemma store_lockstep_witness :
  lockstep
    (Contacts.records
       (Contacts.loadRecords
          (Contacts.initial
             (Contacts.storage
                (Contacts.handleScanResult sample_contacts_env
                   (Contacts.loadRecords (Contacts.initial None))
                   "Jane|1990-01-01|34|F|9990001111|jane@x.com" 5000)))))
    ["email:jane@x.com"]
  /\ lockstep
       (Aadhaar.records
          (Aadhaar.handleScanResult (sample_browser true) Aadhaar.initial
             sample_card_xml 5000 "t1"))
       ["123412341234"]
  /\ lockstep
       (Contacts.records
          (Contacts.loadRecords
             (Contacts.initial
                (Some [Contacts.entry_of "email:jane@x.com" sample_contact;
                       Contacts.entry_of "email:joe@x.com" sample_contact_other]))))
       ["email:jane@x.com"; "email:joe@x.com"]
  /\ NoDup
       (usable_keys
          (Contacts.snapshot
             (Contacts.upsertRecord sample_contacts_env (Contacts.initial None)
                sample_contact))).
Proof.
  split; [|split; [|split]]; cycle 2.
  { apply (proj2
             (proj1 (proj2 (proj2 store_lockstep))
                (Contacts.initial
                   (Some [Contacts.entry_of "email:jane@x.com" sample_contact;
                          Contacts.entry_of "email:joe@x.com"
                            sample_contact_other]))
                ltac:(apply lockstep_empty))).
    intros entries H. injection H as <-.
    change (NoDup ["email:jane@x.com"; "email:joe@x.com"]).
    apply NoDup_cons. split; [|apply NoDup_singleton].
    rewrite list_elem_of_singleton. discriminate. }
  { apply (proj2 (proj2 (proj2 store_lockstep))).
    apply NoDup_singleton. }
  - apply (proj1 (proj2 store_lockstep) sample_contacts_env
             (Contacts.loadRecords
                (Contacts.initial
                   (Contacts.storage
                      (Contacts.handleScanResult sample_contacts_env
                         (Contacts.loadRecords (Contacts.initial None))
                         "Jane|1990-01-01|34|F|9990001111|jane@x.com" 5000))))).
    apply contacts_reload, contacts_scan, contacts_fresh.
  - apply (proj1 store_lockstep (sample_browser true)
             (Aadhaar.handleScanResult (sample_browser true) Aadhaar.initial
                sample_card_xml 5000 "t1")).
    apply aadhaar_scan, aadhaar_start.
Defined.

End StoreClaims.

(** ** The scan-result handler *)

Section HandlerFacts.

Lemma aadhaar_is_duplicate_true (st : Aadhaar.State) (value : string) (now : Z) :
  Aadhaar.lastValue st = Some value ->
  now - Aadhaar.lastValueTs st < duplicateCooldownMs ->
  Aadhaar.is_duplicate st value now = true.
Proof.
  intros Hv Ht. unfold Aadhaar.is_duplicate.
  destruct (decide (Aadhaar.lastValue st = Some value)); [|contradiction].
  apply Z.ltb_lt in Ht. rewrite Ht. reflexivity.
Qed.

Lemma contacts_is_duplicate_true (st : Contacts.State) (value : string) (now : Z) :
  Contacts.lastValue st = Some value ->
  now - Contacts.lastValueTs st < duplicateCooldownMs ->
  Contacts.is_duplicate st value now = true.
Proof.
  intros Hv Ht. unfold Contacts.is_duplicate.
  destruct (decide (Contacts.lastValue st = Some value)); [|contradiction].
  apply Z.ltb_lt in Ht. rewrite Ht. reflexivity.
Qed.

Lemma aadhaar_upsert_last (st : Aadhaar.State) (record : gmap string string)
    (stamp : string) :
  Aadhaar.lastValue (Aadhaar.upsertRecord st record stamp) = Aadhaar.lastValue st
  /\ Aadhaar.lastValueTs (Aadhaar.upsertRecord st record stamp)
     = Aadhaar.lastValueTs st.
Proof.
  unfold Aadhaar.upsertRecord.
  destruct (negb (truthy (Aadhaar.recordKey record))); split; reflexivity.
Qed.

Lemma contacts_upsert_last (env : Contacts.Env) (st : Contacts.State)
    (record : Contacts.Record_) :
  Contacts.lastValue (Contacts.upsertRecord env st record) = Contacts.lastValue st
  /\ Contacts.lastValueTs (Contacts.upsertRecord env st record)
     = Contacts.lastValueTs st.
Proof.
  unfold Contacts.upsertRecord.
  destruct (negb (truthy (Contacts.recordKey record))); [split; reflexivity|].
  cbn [Contacts.lastValue Contacts.lastValueTs Contacts.setStatus].
  destruct (Contacts.setItem_ok env _); split; reflexivity.
Qed.

(** A scan result that is not suppressed arms the window, whatever becomes
    of its decoding. *)
Lemma aadhaar_handle_arms (env : Aadhaar.Env) (st : Aadhaar.State)
    (value : string) (now : Z) (stamp : string) :
  Aadhaar.is_duplicate st value now = false ->
  Aadhaar.lastValue (Aadhaar.handleScanResult env st value now stamp) = Some value
  /\ Aadhaar.lastValueTs (Aadhaar.handleScanResult env st value now stamp) = now.
Proof.
  intros Hd. unfold Aadhaar.handleScanResult. rewrite Hd.
  destruct (looks_numeric (strip_ws value)
            && negb (Aadhaar.hasDecompressionStream env))%bool;
    [split; reflexivity|].
  destruct (Aadhaar.parseAadhaarPayload env value) as [[r|] consulted];
    [|split; reflexivity].
  match goal with
  | |- context [Aadhaar.upsertRecord ?s r stamp] =>
      destruct (aadhaar_upsert_last s r stamp) as [-> ->]
  end.
  split; reflexivity.
Qed.

Lemma contacts_handle_arms (env : Contacts.Env) (st : Contacts.State)
    (value : string) (now : Z) :
  Contacts.is_duplicate st value now = false ->
  Contacts.lastValue (Contacts.handleScanResult env st value now) = Some value
  /\ Contacts.lastValueTs (Contacts.handleScanResult env st value now) = now.
Proof.
  intros Hd. unfold Contacts.handleScanResult. rewrite Hd.
  destruct (Contacts.parseQrPayload env value) as [record consulted].
  destruct (negb (Contacts.isRecordUsable record)); [split; reflexivity|].
  destruct record as [r|]; [|split; reflexivity].
  match goal with
  | |- context [Contacts.upsertRecord env ?s r] =>
      destruct (contacts_upsert_last env s r) as [-> ->]
  end.
  split; reflexivity.
Qed.

Lemma aadhaar_duplicate_noop (env : Aadhaar.Env) (st : Aadhaar.State)
    (value : string) (now : Z) (stamp : string) :
  Aadhaar.lastValue st = Some value ->
  now - Aadhaar.lastValueTs st < duplicateCooldownMs ->
  Aadhaar.handleScanResult env st value now stamp = st.
Proof.
  intros Hv Ht. unfold Aadhaar.handleScanResult.
  rewrite (aadhaar_is_duplicate_true st value now Hv Ht). reflexivity.
Qed.

Lemma contacts_duplicate_noop (env : Contacts.Env) (st : Contacts.State)
    (value : string) (now : Z) :
  Contacts.lastValue st = Some value ->
  now - Contacts.lastValueTs st < duplicateCooldownMs ->
  Contacts.handleScanResult env st value now = st.
Proof.
  intros Hv Ht. unfold Contacts.handleScanResult.
  rewrite (contacts_is_duplicate_true st value now Hv Ht). reflexivity.
Qed.

Section WindowFacts.

Import Overlap.

Lemma aadhaar_window_drops (st : Aadhaar.State) (value : string) (now : Z) :
  Aadhaar.is_duplicate st value now = window_drops (aadhaar_window st) value now.
Proof.
  unfold Aadhaar.is_duplicate, aadhaar_window, window_drops, duplicateCooldownMs.
  destruct (Aadhaar.lastValue st) as [v|]; cbn [fmap option_fmap option_map].
  - destruct (decide (Some v = Some value)) as [H|H],
      (decide (v = value)) as [H'|H']; try reflexivity; congruence.
  - destruct (decide (None = Some value)); [discriminate | reflexivity].
Qed.

Lemma contacts_window_drops (st : Contacts.State) (value : string) (now : Z) :
  Contacts.is_duplicate st value now
  = window_drops (contacts_window st) value now.
Proof.
  unfold Contacts.is_duplicate, contacts_window, window_drops, duplicateCooldownMs.
  destruct (Contacts.lastValue st) as [v|]; cbn [fmap option_fmap option_map].
  - destruct (decide (Some v = Some value)) as [H|H],
      (decide (v = value)) as [H'|H']; try reflexivity; congruence.
  - destruct (decide (None = Some value)); [discriminate | reflexivity].
Qed.

Lemma begin_dropped (env : Aadhaar.Env) (p : Page) (value : string) (now : Z) :
  Aadhaar.is_duplicate (state p) value now = true ->
  handleScanResult_begin env p value now = p.
Proof. intros H. unfold handleScanResult_begin. rewrite H. reflexivity. Qed.

Lemma begin_accepted (env : Aadhaar.Env) (p : Page) (value : string) (now : Z) :
  Aadhaar.is_duplicate (state p) value now = false ->
  Aadhaar.lastValue (state (handleScanResult_begin env p value now)) = Some value
  /\ Aadhaar.lastValueTs (state (handleScanResult_begin env p value now)) = now
  /\ exists gs,
       trace (handleScanResult_begin env p value now)
       = (trace p ++ Armed value now :: List.map (fun g => Attempt g value) gs)%list.
Proof.
  intros H. unfold handleScanResult_begin. rewrite H. cbv zeta.
  destruct (looks_numeric (strip_ws value)
            && negb (Aadhaar.hasDecompressionStream env))%bool.
  - split; [reflexivity|]. split; [reflexivity|]. exists []. reflexivity.
  - split; [reflexivity|]. split; [reflexivity|].
    exists (snd (Aadhaar.parseAadhaarPayload env value)).
    cbn [trace]. rewrite <- app_assoc. reflexivity.
Qed.

Lemma resume_window (env : Aadhaar.Env) (p : Page) (k : nat) (stamp : string) :
  Aadhaar.lastValue (state (handleScanResult_resume env p k stamp))
  = Aadhaar.lastValue (state p)
  /\ Aadhaar.lastValueTs (state (handleScanResult_resume env p k stamp))
     = Aadhaar.lastValueTs (state p)
  /\ trace (handleScanResult_resume env p k stamp) = trace p.
Proof.
  unfold handleScanResult_resume.
  destruct (waiting p !! k) as [value|]; [|repeat split].
  cbn [state trace].
  destruct (fst (Aadhaar.parseAadhaarPayload env value)) as [r|];
    [|repeat split].
  destruct (aadhaar_upsert_last (state p) r stamp) as [-> ->]. repeat split.
Qed.

Lemma step_window (env : Aadhaar.Env) (p : Page) (s : Step) :
  aadhaar_window (state (step env p s))
  = match s with
    | Deliver value now => window_after (aadhaar_window (state p)) (value, now)
    | Resume _ _ => aadhaar_window (state p)
    end.
Proof.
  destruct s as [value now|k stamp]; cbn [step].
  - unfold window_after. cbn [fst snd]. rewrite <- aadhaar_window_drops.
    destruct (Aadhaar.is_duplicate (state p) value now) eqn:Hd.
    + rewrite (begin_dropped env p value now Hd). reflexivity.
    + destruct (begin_accepted env p value now Hd) as (Hv & Ht & _).
      unfold aadhaar_window. rewrite Hv, Ht. reflexivity.
  - destruct (resume_window env p k stamp) as (Hv & Ht & _).
    unfold aadhaar_window. rewrite Hv, Ht. reflexivity.
Qed.

Lemma steps_window (env : Aadhaar.Env) (steps : list Step) :
  forall p,
    aadhaar_window (state (fold_left (step env) steps p))
    = fold_left window_after (deliveries steps) (aadhaar_window (state p)).
Proof.
  induction steps as [|s steps IH]; intros p; [reflexivity|].
  cbn [fold_left]. rewrite IH, step_window.
  destruct s; reflexivity.
Qed.

Lemma contacts_handle_window (env : Contacts.Env) (st : Contacts.State)
    (d : string * Z) :
  contacts_window (Contacts.handleScanResult env st d.1 d.2)
  = window_after (contacts_window st) d.
Proof.
  unfold window_after. rewrite <- contacts_window_drops.
  destruct (Contacts.is_duplicate st d.1 d.2) eqn:Hd.
  - unfold Contacts.handleScanResult. rewrite Hd. reflexivity.
  - destruct (contacts_handle_arms env st d.1 d.2 Hd) as [Hv Ht].
    unfold contacts_window. rewrite Hv, Ht. destruct d. reflexivity.
Qed.

Lemma contacts_deliver_window (env : Contacts.Env) (ds : list (string * Z)) :
  forall st,
    contacts_window (contacts_deliver env st ds)
    = fold_left window_after ds (contacts_window st).
Proof.
  induction ds as [|d ds IH]; intros st; [reflexivity|].
  unfold contacts_deliver in *. cbn [fold_left].
  rewrite IH, contacts_handle_window. reflexivity.
Qed.

Lemma handleScanResult_atomic (env : Aadhaar.Env) (p : Page) (value : string)
    (now : Z) (stamp : string) :
  state (handleScanResult_resume env (handleScanResult_begin env p value now)
           (length (waiting p)) stamp)
  = Aadhaar.handleScanResult env (state p) value now stamp.
Proof.
  unfold handleScanResult_begin, Aadhaar.handleScanResult. cbv zeta.
  destruct (Aadhaar.is_duplicate (state p) value now).
  { unfold handleScanResult_resume.
    rewrite lookup_ge_None_2 by lia. reflexivity. }
  destruct (looks_numeric (strip_ws value)
            && negb (Aadhaar.hasDecompressionStream env))%bool.
  { unfold handleScanResult_resume. cbn [waiting].
    rewrite lookup_ge_None_2 by lia. reflexivity. }
  unfold handleScanResult_resume. cbn [waiting state].
  rewrite lookup_app_r by lia. rewrite Nat.sub_diag. cbn [lookup list_lookup].
  destruct (Aadhaar.parseAadhaarPayload env value) as [[r|] consulted];
    reflexivity.
Qed.

Lemma armed_first_block (value : string) (gs : list Aadhaar.Grammar) :
  armed_first (Some value) (List.map (fun g => Attempt g value) gs) = true.
Proof.
  induction gs as [|g gs IH]; [reflexivity|].
  cbn [List.map armed_first]. rewrite decide_True by reflexivity. exact IH.
Qed.

Lemma armed_first_app (events : list Event) (value : string) (now : Z)
    (gs : list Aadhaar.Grammar) :
  forall current,
    armed_first current
      (events ++ Armed value now :: List.map (fun g => Attempt g value) gs)
    = armed_first current events.
Proof.
  induction events as [|e events IH]; intros current.
  - cbn [app armed_first]. apply armed_first_block.
  - destruct e as [v t|g v]; cbn [app armed_first]; rewrite IH; reflexivity.
Qed.

Lemma steps_armed_first (env : Aadhaar.Env) (steps : list Step) :
  forall p,
    armed_first None (trace p) = true ->
    armed_first None (trace (fold_left (step env) steps p)) = true.
Proof.
  induction steps as [|s steps IH]; intros p H; [exact H|].
  cbn [fold_left]. apply IH. destruct s as [value now|k stamp]; cbn [step].
  - destruct (Aadhaar.is_duplicate (state p) value now) eqn:Hd.
    + rewrite (begin_dropped env p value now Hd). exact H.
    + destruct (begin_accepted env p value now Hd) as (_ & _ & gs & ->).
      rewrite armed_first_app. exact H.
  - destruct (resume_window env p k stamp) as (_ & _ & ->). exact H.
Qed.

Lemma steps_keep_window (env : Aadhaar.Env) (value : string) (now : Z)
    (mid : list Step) :
  forall p,
    Forall (no_other_string value) mid ->
    Aadhaar.lastValue (state p) = Some value ->
    now <= Aadhaar.lastValueTs (state p) ->
    Aadhaar.lastValue (state (fold_left (step env) mid p)) = Some value
    /\ now <= Aadhaar.lastValueTs (state (fold_left (step env) mid p)).
Proof.
  induction mid as [|s mid IH]; intros p Hmid Hv Ht; [split; assumption|].
  apply Forall_cons in Hmid. destruct Hmid as [Hs Hmid].
  cbn [fold_left]. apply IH; [exact Hmid| |];
    destruct s as [v n|k stamp]; cbn [step no_other_string] in *.
  - subst v. destruct (Aadhaar.is_duplicate (state p) value n) eqn:Hd.
    + rewrite (begin_dropped env p value n Hd). exact Hv.
    + apply (begin_accepted env p value n Hd).
  - destruct (resume_window env p k stamp) as (-> & _ & _). exact Hv.
  - subst v. destruct (Aadhaar.is_duplicate (state p) value n) eqn:Hd.
    + rewrite (begin_dropped env p value n Hd). exact Ht.
    + destruct (begin_accepted env p value n Hd) as (_ & -> & _).
      unfold Aadhaar.is_duplicate in Hd.
      rewrite decide_True in Hd by exact Hv. cbn [andb] in Hd.
      apply Z.ltb_ge in Hd. unfold duplicateCooldownMs in Hd. lia.
  - destruct (resume_window env p k stamp) as (_ & -> & _). exact Ht.
Qed.

Lemma contacts_keep_window (env : Contacts.Env) (value : string) (now : Z)
    (mid : list Z) :
  forall st,
    Contacts.lastValue st = Some value ->
    now <= Contacts.lastValueTs st ->
    let st' := contacts_deliver env st (List.map (fun t => (value, t)) mid) in
    Contacts.lastValue st' = Some value /\ now <= Contacts.lastValueTs st'.
Proof.
  induction mid as [|n mid IH]; intros st Hv Ht; [split; assumption|].
  cbn [List.map]. unfold contacts_deliver. cbn [fold_left fst snd].
  apply IH.
  - destruct (Contacts.is_duplicate st value n) eqn:Hd.
    + unfold Contacts.handleScanResult. rewrite Hd. exact Hv.
    + apply (contacts_handle_arms env st value n Hd).
  - destruct (Contacts.is_duplicate st value n) eqn:Hd.
    + unfold Contacts.handleScanResult. rewrite Hd. exact Ht.
    + destruct (contacts_handle_arms env st value n Hd) as [_ ->].
      unfold Contacts.is_duplicate in Hd.
      rewrite decide_True in Hd by exact Hv. cbn [andb] in Hd.
      apply Z.ltb_ge in Hd. unfold duplicateCooldownMs in Hd. lia.
Qed.

(** C7, as stated, fails: the window is measured from the last delivery
    that was accepted, and a suppressed delivery does not move it.  Of three
    deliveries of one raw string at 5000, 6199 and 6200, the second is
    dropped and the third, which equals the string delivered 1 ms before
    it, is decoded again and changes the store.  This holds in both
    programs. *)
Lemma suppressed_delivery_does_not_rearm :
  let env := sample_browser true in
  let a1 := Aadhaar.handleScanResult env Aadhaar.initial sample_card_xml 5000 "t1" in
  let a2 := Aadhaar.handleScanResult env a1 sample_card_xml 6199 "t2" in
  let a3 := Aadhaar.handleScanResult env a2 sample_card_xml 6200 "t3" in
  let line := "Jane|1990-01-01|34|F|9990001111|jane@x.com" in
  let c1 := Contacts.handleScanResult sample_contacts_env (Contacts.initial None)
              line 5000 in
  let c2 := Contacts.handleScanResult sample_contacts_env c1 line 6199 in
  let c3 := Contacts.handleScanResult sample_contacts_env c2 line 6200 in
  (a2 = a1 /\ 6200 - 6199 < 1200
   /\ Aadhaar.decodeLog a3
      = (Aadhaar.decodeLog a2 ++ [(Aadhaar.XmlGrammar, sample_card_xml)])%list
   /\ Aadhaar.records a2 !! "123412341234" ≫= (.!! "lastSeen") = Some "t1"
   /\ Aadhaar.records a3 !! "123412341234" ≫= (.!! "lastSeen") = Some "t3")
  /\ (c2 = c1
      /\ Contacts.decodeLog c3
         = (Contacts.decodeLog c2
            ++ [(Contacts.JsonGrammar, line); (Contacts.KeyValueGrammar, line);
                (Contacts.DelimitedGrammar, line)])%list
      /\ Contacts.status c2 = ("Record stored.", Contacts.Plain)
      /\ Contacts.status c3 = ("Record updated.", Contacts.Plain)).
Proof.
  cbv zeta. split.
  - split; [reflexivity|]. split; [reflexivity|]. vm_compute. repeat split.
  - split; [reflexivity|]. vm_compute. repeat split.
Qed.

(** C7, amended.  A raw string equal to the one that the handler accepted
    last and arriving less than 1200 ms after that accepted delivery leaves
    everything as it is: no grammar is attempted and the record store is
    not touched.  After any sequence of deliveries, and in [src/app.js] of
    decodings that settle in between, the window that the state holds is
    the last accepted delivery of the sequence; a further delivery is
    dropped exactly when this window drops it, and is accepted otherwise,
    which records it as the new window.  This holds in both programs. *)
Theorem duplicate_suppressed :
  (forall env st value now stamp,
      Aadhaar.lastValue st = Some value ->
      now - Aadhaar.lastValueTs st < 1200 ->
      Aadhaar.handleScanResult env st value now stamp = st)
  /\ (forall env st value now,
         Contacts.lastValue st = Some value ->
         now - Contacts.lastValueTs st < 1200 ->
         Contacts.handleScanResult env st value now = st)
  /\ (forall env steps value now,
         let p := run env steps in
         aadhaar_window (state p) = last_accepted (deliveries steps)
         /\ (window_drops (last_accepted (deliveries steps)) value now = true ->
             handleScanResult_begin env p value now = p)
         /\ (window_drops (last_accepted (deliveries steps)) value now = false ->
             aadhaar_window (state (handleScanResult_begin env p value now))
             = Some (value, now)
             /\ exists gs,
                  trace (handleScanResult_begin env p value now)
                  = (trace p
                     ++ Armed value now
                        :: List.map (fun g => Attempt g value) gs)%list))
  /\ (forall env st0 ds value now,
         Contacts.lastValue st0 = None ->
         let st := contacts_deliver env st0 ds in
         contacts_window st = last_accepted ds
         /\ (window_drops (last_accepted ds) value now = true ->
             Contacts.handleScanResult env st value now = st)
         /\ (window_drops (last_accepted ds) value now = false ->
             contacts_window (Contacts.handleScanResult env st value now)
             = Some (value, now))).
Proof.
  split; [|split; [|split]].
  - intros env st value now stamp Hv Ht.
    apply aadhaar_duplicate_noop; assumption.
  - intros env st value now Hv Ht.
    apply contacts_duplicate_noop; assumption.
  - intros env steps value now p.
    assert (Hw : aadhaar_window (state p) = last_accepted (deliveries steps)).
    { unfold p, run, last_accepted. rewrite steps_window. reflexivity. }
    split; [exact Hw|]. rewrite <- Hw, <- aadhaar_window_drops. split.
    + apply begin_dropped.
    + intros Hd. destruct (begin_accepted env p value now Hd) as (Hv & Ht & Htr).
      split; [|exact Htr]. unfold aadhaar_window. rewrite Hv, Ht. reflexivity.
  - intros env st0 ds value now H0 st.
    assert (Hw : contacts_window st = last_accepted ds).
    { unfold st, last_accepted. rewrite contacts_deliver_window.
      unfold contacts_window at 1. rewrite H0. reflexivity. }
    split; [exact Hw|]. rewrite <- Hw, <- contacts_window_drops. split.
    + intros Hd. unfold Contacts.handleScanResult. rewrite Hd. reflexivity.
    + intros Hd. pose proof (contacts_handle_window env st (value, now)) as H.
      cbn [fst snd] in H. rewrite H. unfold window_after. cbn [fst snd].
      rewrite <- contacts_window_drops, Hd. reflexivity.
Qed.

Lemma duplicate_suppressed_witness :
  let st := Aadhaar.handleScanResult (sample_browser true) Aadhaar.initial
              sample_card_xml 5000 "t1" in
  let ct := Contacts.handleScanResult sample_contacts_env (Contacts.initial None)
              "Jane|1990-01-01|34|F|9990001111|jane@x.com" 5000 in
  let p := run (sample_browser true)
             [Deliver sample_card_xml 5000; Resume 0 "t1";
              Deliver sample_card_xml 6199] in
  let cs := contacts_deliver sample_contacts_env (Contacts.initial None)
              [("hello", 5000); ("hello", 6199)] in
  Aadhaar.handleScanResult (sample_browser true) st sample_card_xml 6199 "t2" = st
  /\ Contacts.handleScanResult sample_contacts_env ct
       "Jane|1990-01-01|34|F|9990001111|jane@x.com" 6199 = ct
  /\ handleScanResult_begin (sample_browser true) p sample_card_xml 6199 = p
  /\ aadhaar_window
       (state (handleScanResult_begin (sample_browser true) p sample_card_xml 6200))
     = Some (sample_card_xml, 6200)
  /\ Contacts.handleScanResult sample_contacts_env cs "hello" 6199 = cs
  /\ contacts_window (Contacts.handleScanResult sample_contacts_env cs "hello" 6200)
     = Some ("hello", 6200).
Proof.
  cbv zeta. split; [|split; [|split; [|split; [|split]]]].
  - apply (proj1 duplicate_suppressed (sample_browser true)); [reflexivity|].
    vm_compute. reflexivity.
  - apply (proj1 (proj2 duplicate_suppressed) sample_contacts_env);
      [reflexivity|].
    vm_compute. reflexivity.
  - apply (proj1 (proj2 (proj1 (proj2 (proj2 duplicate_suppressed))
                           (sample_browser true)
                           [Deliver sample_card_xml 5000; Resume 0 "t1";
                            Deliver sample_card_xml 6199]
                           sample_card_xml 6199))).
    vm_compute. reflexivity.
  - apply (proj2 (proj2 (proj1 (proj2 (proj2 duplicate_suppressed))
                           (sample_browser true)
                           [Deliver sample_card_xml 5000; Resume 0 "t1";
                            Deliver sample_card_xml 6199]
                           sample_card_xml 6200))).
    vm_compute. reflexivity.
  - apply (proj1 (proj2 (proj2 (proj2 (proj2 duplicate_suppressed))
                           sample_contacts_env (Contacts.initial None)
                           [("hello", 5000); ("hello", 6199)] "hello" 6199
                           eq_refl))).
    vm_compute. reflexivity.
  - apply (proj2 (proj2 (proj2 (proj2 (proj2 duplicate_suppressed))
                           sample_contacts_env (Contacts.initial None)
                           [("hello", 5000); ("hello", 6199)] "hello" 6200
                           eq_refl))).
    vm_compute. reflexivity.
Defined.

(** C10, as stated, fails: the window holds one raw string only.  After a
    raw string whose decoding fails at 5000 and another raw string at 5100,
    the first raw string delivered again at 5200, within 1200 ms of its
    failed decoding, is given to the grammars again.  This holds in both
    programs. *)
Lemma other_string_reopens_window :
  let env := sample_browser true in
  let a1 := Aadhaar.handleScanResult env Aadhaar.initial "hello" 5000 "t1" in
  let a2 := Aadhaar.handleScanResult env a1 "other" 5100 "t2" in
  let a3 := Aadhaar.handleScanResult env a2 "hello" 5200 "t3" in
  let c1 := Contacts.handleScanResult sample_contacts_env (Contacts.initial None)
              "hello" 5000 in
  let c2 := Contacts.handleScanResult sample_contacts_env c1 "other" 5100 in
  let c3 := Contacts.handleScanResult sample_contacts_env c2 "hello" 5200 in
  5200 - 5000 < 1200
  /\ (Aadhaar.status a1 = ("Not an Aadhaar QR format.", Aadhaar.Error)
      /\ Aadhaar.decodeLog a3
         = (Aadhaar.decodeLog a2
            ++ [(Aadhaar.XmlGrammar, "hello"); (Aadhaar.SecureGrammar, "hello")])%list)
  /\ (Contacts.status c1 = ("QR format not recognized.", Contacts.Error)
      /\ Contacts.decodeLog c3
         = (Contacts.decodeLog c2
            ++ [(Contacts.JsonGrammar, "hello");
                (Contacts.KeyValueGrammar, "hello");
                (Contacts.DelimitedGrammar, "hello")])%list).
Proof. cbv zeta. split; [reflexivity|]. vm_compute. repeat split. Qed.

(** C10, amended.  The handler records the raw string and its time stamp
    for every scan result that it does not suppress, whatever the outcome
    of the decoding: failed decodings arm the window like the others.  As
    long as no other raw string is accepted, the same raw string arriving
    less than 1200 ms after the recorded time is dropped and no grammar is
    attempted again.  In [src/app.js], whose handler waits at an [await]
    for the decoding, the recording comes before any grammar is attempted:
    the same raw string is dropped also while the first decoding has not
    settled, and whatever decodings settle in between; in every run of the
    page each attempt of a grammar comes after the recording of its raw
    string; and a call that no other call overlaps does what the handler
    run to completion does.  The handler of the contact-card scanner has no
    [await] and runs to its end before the next delivery. *)
Theorem failed_decode_arms_window :
  (forall env st value now stamp,
      Aadhaar.is_duplicate st value now = false ->
      let st1 := Aadhaar.handleScanResult env st value now stamp in
      Aadhaar.lastValue st1 = Some value
      /\ Aadhaar.lastValueTs st1 = now
      /\ forall now' stamp',
           now' - now < 1200 ->
           Aadhaar.handleScanResult env st1 value now' stamp' = st1)
  /\ (forall env st value now,
         Contacts.is_duplicate st value now = false ->
         let st1 := Contacts.handleScanResult env st value now in
         Contacts.lastValue st1 = Some value
         /\ Contacts.lastValueTs st1 = now
         /\ forall now',
              now' - now < 1200 ->
              Contacts.handleScanResult env st1 value now' = st1)
  /\ (forall env p value now,
         Aadhaar.is_duplicate (state p) value now = false ->
         let p1 := handleScanResult_begin env p value now in
         (exists gs,
            trace p1
            = (trace p
               ++ Armed value now :: List.map (fun g => Attempt g value) gs)%list)
         /\ forall mid now',
              Forall (no_other_string value) mid ->
              now' - now < 1200 ->
              handleScanResult_begin env (fold_left (step env) mid p1) value now'
              = fold_left (step env) mid p1)
  /\ (forall env steps, armed_first None (trace (run env steps)) = true)
  /\ (forall env p value now stamp,
         state (handleScanResult_resume env
                  (handleScanResult_begin env p value now)
                  (length (waiting p)) stamp)
         = Aadhaar.handleScanResult env (state p) value now stamp)
  /\ (forall env st value now,
         Contacts.is_duplicate st value now = false ->
         let st1 := Contacts.handleScanResult env st value now in
         forall mid now',
           now' - now < 1200 ->
           let st2 :=
             contacts_deliver env st1 (List.map (fun t => (value, t)) mid) in
           Contacts.handleScanResult env st2 value now' = st2).
Proof.
  split; [|split; [|split; [|split; [|split]]]].
  - intros env st value now stamp Hd st1.
    destruct (aadhaar_handle_arms env st value now stamp Hd) as [Hv Ht].
    split; [exact Hv|]. split; [exact Ht|].
    intros now' stamp' Hlt.
    apply aadhaar_duplicate_noop; [exact Hv|].
    fold st1 in Ht. rewrite Ht. exact Hlt.
  - intros env st value now Hd st1.
    destruct (contacts_handle_arms env st value now Hd) as [Hv Ht].
    split; [exact Hv|]. split; [exact Ht|].
    intros now' Hlt.
    apply contacts_duplicate_noop; [exact Hv|].
    fold st1 in Ht. rewrite Ht. exact Hlt.
  - intros env p value now Hd p1.
    destruct (begin_accepted env p value now Hd) as (Hv & Ht & Htr).
    split; [exact Htr|]. intros mid now' Hmid Hlt.
    destruct (steps_keep_window env value now mid p1 Hmid Hv
                ltac:(fold p1 in Ht; rewrite Ht; lia)) as [Hv' Ht'].
    apply begin_dropped, aadhaar_is_duplicate_true; [exact Hv'|].
    unfold duplicateCooldownMs. lia.
  - intros env steps. apply steps_armed_first. reflexivity.
  - apply handleScanResult_atomic.
  - intros env st value now Hd st1 mid now' Hlt st2.
    destruct (contacts_handle_arms env st value now Hd) as [Hv Ht].
    destruct (contacts_keep_window env value now mid st1 Hv
                ltac:(fold st1 in Ht; rewrite Ht; lia)) as [Hv' Ht'].
    apply contacts_duplicate_noop; [exact Hv'|].
    unfold duplicateCooldownMs. fold st2 in Ht'. lia.
Qed.

(** A raw string that no grammar of either program accepts. *)
Lemma failed_decode_arms_window_witness :
  let a1 := Aadhaar.handleScanResult (sample_browser true) Aadhaar.initial
              "hello" 5000 "t1" in
  let c1 := Contacts.handleScanResult sample_contacts_env (Contacts.initial None)
              "hello" 5000 in
  let p1 := handleScanResult_begin (sample_browser true) initial "hello" 5000 in
  let p2 := fold_left (step (sample_browser true))
              [Deliver "hello" 5100; Resume 0 "t1"] p1 in
  let c2 := contacts_deliver sample_contacts_env c1
              (List.map (fun t => ("hello", t)) [5100; 6100]) in
  (Aadhaar.status a1 = ("Not an Aadhaar QR format.", Aadhaar.Error)
   /\ Aadhaar.handleScanResult (sample_browser true) a1 "hello" 6199 "t2" = a1)
  /\ (Contacts.status c1 = ("QR format not recognized.", Contacts.Error)
      /\ Contacts.handleScanResult sample_contacts_env c1 "hello" 6199 = c1)
  /\ (waiting p1 = ["hello"]
      /\ handleScanResult_begin (sample_browser true) p1 "hello" 6199 = p1)
  /\ (Aadhaar.status (state p2) = ("Not an Aadhaar QR format.", Aadhaar.Error)
      /\ handleScanResult_begin (sample_browser true) p2 "hello" 6199 = p2)
  /\ Contacts.handleScanResult sample_contacts_env c2 "hello" 6199 = c2.
Proof.
  cbv zeta. split; [|split; [|split; [|split]]]; try (split; [reflexivity|]).
  - apply (proj1 failed_decode_arms_window (sample_browser true)
             Aadhaar.initial "hello" 5000 "t1"); [reflexivity|].
    vm_compute. reflexivity.
  - apply (proj1 (proj2 failed_decode_arms_window) sample_contacts_env
             (Contacts.initial None) "hello" 5000); [reflexivity|].
    vm_compute. reflexivity.
  - apply (proj2 (proj1 (proj2 (proj2 failed_decode_arms_window))
                    (sample_browser true) initial "hello" 5000 eq_refl)
             [] 6199); [constructor|].
    vm_compute. reflexivity.
  - apply (proj2 (proj1 (proj2 (proj2 failed_decode_arms_window))
                    (sample_browser true) initial "hello" 5000 eq_refl)
             [Deliver "hello" 5100; Resume 0 "t1"] 6199).
    + repeat constructor.
    + vm_compute. reflexivity.
  - apply (proj2 (proj2 (proj2 (proj2 (proj2 failed_decode_arms_window))))
             sample_contacts_env (Contacts.initial None) "hello" 5000 eq_refl
             [5100; 6100] 6199).
    vm_compute. reflexivity.
Defined.

End WindowFacts.

(** C5.  When the raw string, white space removed, is at least 50 decimal
    digits and the browser has no [DecompressionStream], a scan result that
    is not suppressed is reported with the message of the capability gap
    and an error tone; no grammar is consulted and the store is not touched.
    That message is not one of the two messages of a failed decoding, and
    with [DecompressionStream] present a failed decoding of such a string
    is reported with the second of them. *)
Theorem capability_gap_reported (env : Aadhaar.Env) (st : Aadhaar.State)
    (value : string) (now : Z) (stamp : string) :
  looks_numeric (strip_ws value) = true ->
  Aadhaar.is_duplicate st value now = false ->
  let st' := Aadhaar.handleScanResult env st value now stamp in
  (Aadhaar.hasDecompressionStream env = false ->
   Aadhaar.status st'
   = ("Secure QR needs a compatible browser to decode.", Aadhaar.Error)
   /\ fst (Aadhaar.status st') <> "Not an Aadhaar QR format."
   /\ fst (Aadhaar.status st') <> "Secure QR could not be decoded."
   /\ Aadhaar.decodeLog st' = Aadhaar.decodeLog st
   /\ Aadhaar.records st' = Aadhaar.records st
   /\ Aadhaar.order st' = Aadhaar.order st)
  /\ (Aadhaar.hasDecompressionStream env = true ->
      fst (Aadhaar.parseAadhaarPayload env value) = None ->
      Aadhaar.status st' = ("Secure QR could not be decoded.", Aadhaar.Error)).
Proof.
  intros Hnum Hdup st'. subst st'. unfold Aadhaar.handleScanResult.
  rewrite Hdup, Hnum. split.
  - intros ->. cbn [negb andb Aadhaar.status Aadhaar.setStatus fst].
    repeat split; discriminate.
  - intros ->. cbn [negb andb].
    destruct (Aadhaar.parseAadhaarPayload env value) as [record consulted].
    cbn [fst]. intros ->. reflexivity.
Qed.

Lemma capability_gap_reported_witness :
  Aadhaar.status
    (Aadhaar.handleScanResult (sample_browser false) Aadhaar.initial
       sample_digits 5000 "t1")
  = ("Secure QR needs a compatible browser to decode.", Aadhaar.Error)
  /\ Aadhaar.status
       (Aadhaar.handleScanResult (sample_browser true) Aadhaar.initial
          sample_digits 5000 "t1")
     = ("Secure QR could not be decoded.", Aadhaar.Error).
Proof.
  split.
  - apply (proj1 (capability_gap_reported (sample_browser false) Aadhaar.initial
                    sample_digits 5000 "t1" eq_refl eq_refl)).
    reflexivity.
  - apply (proj2 (capability_gap_reported (sample_browser true) Aadhaar.initial
                    sample_digits 5000 "t1" eq_refl eq_refl)).
    + reflexivity.
    + vm_compute. reflexivity.
Defined.

End HandlerFacts.

(** ** The decoder cascades *)

Section CascadeFacts.

Context {G A B : Type}.

(** What a first-success fold returns and consults: on success, the record
    of the first grammar that accepts the input, the grammars before it
    having failed, and the grammars up to that one, none after it; on
    failure, every grammar has failed and has been consulted. *)
Lemma first_success_spec (gs : list (G * (A -> option B))) (x : A) :
  match first_success gs x with
  | (Some r, consulted) =>
      exists before g f after,
        gs = (before ++ (g, f) :: after)%list
        /\ Forall (fun gf : G * (A -> option B) => snd gf x = None) before
        /\ f x = Some r
        /\ consulted = (List.map fst before ++ [g])%list
  | (None, consulted) =>
      Forall (fun gf : G * (A -> option B) => snd gf x = None) gs
      /\ consulted = List.map fst gs
  end.
Proof.
  induction gs as [|[g f] gs IH]; [split; [constructor | reflexivity]|].
  cbn [first_success]. destruct (f x) as [r|] eqn:Hf.
  - exists [], g, f, gs. repeat split; [constructor | exact Hf].
  - destruct (first_success gs x) as [[r|] consulted].
    + destruct IH as (before & g' & f' & after & -> & Hb & Hr & ->).
      exists ((g, f) :: before), g', f', after.
      repeat split; [constructor; [exact Hf | exact Hb] | exact Hr].
    + destruct IH as [Hall ->]. split; [|reflexivity].
      constructor; [exact Hf | exact Hall].
Qed.

End CascadeFacts.

Section CascadeClaims.

Lemma aadhaar_cascade (env : Aadhaar.Env) (raw : string) :
  Aadhaar.parseAadhaarPayload env raw
  = if truthy (trim raw)
    then first_success (Aadhaar.grammars env) (trim raw)
    else (None, []).
Proof.
  unfold Aadhaar.parseAadhaarPayload, Aadhaar.grammars.
  destruct (truthy (trim raw)); cbn [negb]; [|reflexivity].
  cbn [first_success]. unfold consult, mbind, traced_bind, mret, traced_ret.
  cbn [fst snd].
  destruct (Aadhaar.parseXmlPayload env (trim raw)); [reflexivity|].
  destruct (Aadhaar.parseSecureQr env (trim raw)); reflexivity.
Qed.

Lemma contacts_cascade (env : Contacts.Env) (raw : string) :
  Contacts.parseQrPayload env raw
  = if truthy (trim raw)
    then first_success (Contacts.grammars env) (trim raw)
    else (None, []).
Proof.
  unfold Contacts.parseQrPayload, Contacts.grammars.
  destruct (truthy (trim raw)); cbn [negb]; [|reflexivity].
  cbn [first_success]. unfold consult, mbind, traced_bind, mret, traced_ret.
  cbn [fst snd].
  destruct (Contacts.parseJsonPayload env (trim raw)); [reflexivity|].
  destruct (Contacts.parseKeyValuePayload env (trim raw)); [reflexivity|].
  destruct (Contacts.parseDelimitedPayload (trim raw)); reflexivity.
Qed.

(** C6.  Each decoder is a first-success fold over its grammars in their
    fixed order, applied to the trimmed raw string: it returns the record of
    the first grammar that succeeds and consults the grammars up to that
    one and no later one.  A blank raw string is answered without
    consulting any grammar, with the result that the fold would give
    ([JSON.parse] raises on the empty string). *)
Theorem cascade_first_success :
  (forall env raw,
      Aadhaar.parseAadhaarPayload env raw
      = if truthy (trim raw)
        then first_success (Aadhaar.grammars env) (trim raw)
        else (None, []))
  /\ (forall env raw,
         fst (Aadhaar.parseAadhaarPayload env raw)
         = fst (first_success (Aadhaar.grammars env) (trim raw)))
  /\ (forall env raw,
         Contacts.parseQrPayload env raw
         = if truthy (trim raw)
           then first_success (Contacts.grammars env) (trim raw)
           else (None, []))
  /\ (forall env raw,
         Contacts.JSON_parse env "" = None ->
         fst (Contacts.parseQrPayload env raw)
         = fst (first_success (Contacts.grammars env) (trim raw)))
  /\ (forall env raw r consulted,
         Aadhaar.parseAadhaarPayload env raw = (Some r, consulted) ->
         exists before g f after,
           Aadhaar.grammars env = (before ++ (g, f) :: after)%list
           /\ Forall (fun gf => snd gf (trim raw) = None) before
           /\ f (trim raw) = Some r
           /\ consulted = (List.map fst before ++ [g])%list)
  /\ (forall env raw r consulted,
         Contacts.parseQrPayload env raw = (Some r, consulted) ->
         exists before g f after,
           Contacts.grammars env = (before ++ (g, f) :: after)%list
           /\ Forall (fun gf => snd gf (trim raw) = None) before
           /\ f (trim raw) = Some r
           /\ consulted = (List.map fst before ++ [g])%list).
Proof.
  split; [exact aadhaar_cascade|].
  split.
  { intros env raw. rewrite aadhaar_cascade.
    destruct (truthy (trim raw)) eqn:Ht; [reflexivity|].
    apply truthy_false in Ht. rewrite Ht. reflexivity. }
  split; [exact contacts_cascade|].
  split.
  { intros env raw Hjson. rewrite contacts_cascade.
    destruct (truthy (trim raw)) eqn:Ht; [reflexivity|].
    apply truthy_false in Ht. rewrite Ht.
    cbn [Contacts.grammars first_success].
    unfold Contacts.parseJsonPayload. rewrite Hjson. reflexivity. }
  split.
  - intros env raw r consulted H. rewrite aadhaar_cascade in H.
    destruct (truthy (trim raw)); [|discriminate].
    pose proof (first_success_spec (Aadhaar.grammars env) (trim raw)) as Hs.
    rewrite H in Hs. exact Hs.
  - intros env raw r consulted H. rewrite contacts_cascade in H.
    destruct (truthy (trim raw)); [|discriminate].
    pose proof (first_success_spec (Contacts.grammars env) (trim raw)) as Hs.
    rewrite H in Hs. exact Hs.
Qed.

(** The delimited grammar is reached after the two grammars before it have
    failed; the markup grammar succeeds without the binary grammar being
    consulted. *)
Lemma cascade_first_success_witness :
  fst (Contacts.parseQrPayload sample_contacts_env
         " Jane|1990-01-01|34|F|9990001111|jane@x.com ")
  = fst (first_success (Contacts.grammars sample_contacts_env)
           "Jane|1990-01-01|34|F|9990001111|jane@x.com")
  /\ (exists before g f after,
       Aadhaar.grammars (sample_browser true) = (before ++ (g, f) :: after)%list
       /\ Forall (fun gf => snd gf (trim sample_card_xml) = None) before
       /\ f (trim sample_card_xml) = Some (Aadhaar.parsePrintLetter sample_card)
       /\ [Aadhaar.XmlGrammar] = (List.map fst before ++ [g])%list)
  /\ (exists before g f after,
         Contacts.grammars sample_contacts_env = (before ++ (g, f) :: after)%list
         /\ Forall (fun gf => snd gf (trim "Jane|1990|34|F|999|j@x.com") = None)
                   before
         /\ is_Some (f (trim "Jane|1990|34|F|999|j@x.com"))
         /\ [Contacts.JsonGrammar; Contacts.KeyValueGrammar;
             Contacts.DelimitedGrammar]
            = (List.map fst before ++ [g])%list).
Proof.
  split; [|split].
  - apply (proj1 (proj2 (proj2 (proj2 cascade_first_success)))
             sample_contacts_env
             " Jane|1990-01-01|34|F|9990001111|jane@x.com ").
    reflexivity.
  - apply (proj1 (proj2 (proj2 (proj2 (proj2 cascade_first_success))))
             (sample_browser true) sample_card_xml).
    reflexivity.
  - destruct (Contacts.parseQrPayload sample_contacts_env
                "Jane|1990|34|F|999|j@x.com") as [[r|] consulted] eqn:E;
      [|vm_compute in E; discriminate].
    destruct (proj2 (proj2 (proj2 (proj2 (proj2 cascade_first_success))))
                sample_contacts_env "Jane|1990|34|F|999|j@x.com" r consulted E)
      as (before & g & f & after & Hgs & Hb & Hf & Hc).
    exists before, g, f, after.
    split; [exact Hgs|]. split; [exact Hb|]. split; [eexists; exact Hf|].
    rewrite <- Hc. vm_compute in E. injection E as _ <-. reflexivity.
Defined.

End CascadeClaims.

(** ** Cleaning of the decoded fields *)

Section CleaningClaims.

Lemma contact_cleaned_intro (u d a g m e : option string) :
  contact_cleaned
    {| Contacts.username := cleanText u; Contacts.dob := cleanText d;
       Contacts.age := cleanText a; Contacts.gender := normalizeGender g;
       Contacts.mobile := Contacts.cleanPhone m;
       Contacts.email := Contacts.cleanEmail e |}.
Proof.
  unfold contact_cleaned.
  cbn [Contacts.username Contacts.dob Contacts.age Contacts.gender
       Contacts.mobile Contacts.email].
  rewrite !cleanText_idem, normalizeGender_idem, cleanPhone_idem, cleanEmail_idem.
  repeat split.
Qed.

Lemma parseJsonPayload_cleaned (env : Contacts.Env) (raw : string)
    (r : Contacts.Record_) :
  Contacts.parseJsonPayload env raw = Some r -> contact_cleaned r.
Proof.
  unfold Contacts.parseJsonPayload.
  destruct (Contacts.JSON_parse env raw) as [parsed|]; [|discriminate].
  set (p := Contacts.prop parsed).
  assert (Hgen :
    (u ← Contacts.text_arg
           (Contacts.js_or (Contacts.js_or (p "username") (p "user")) (p "name"));
     d ← Contacts.text_arg
           (Contacts.js_or
              (Contacts.js_or (Contacts.js_or (p "dob") (p "dateOfBirth"))
                 (p "birth")) (p "birthDate"));
     a ← Contacts.text_arg (p "age");
     g ← Contacts.text_arg (p "gender");
     m ← Contacts.text_arg
           (Contacts.js_or (Contacts.js_or (p "mobile") (p "phone"))
              (p "phoneNumber"));
     e ← Contacts.text_arg (Contacts.js_or (p "email") (p "mail"));
     Some {| Contacts.username := cleanText (Some u);
             Contacts.dob := cleanText (Some d);
             Contacts.age := cleanText (Some a);
             Contacts.gender := normalizeGender (Some g);
             Contacts.mobile := Contacts.cleanPhone (Some m);
             Contacts.email := Contacts.cleanEmail (Some e) |}) = Some r ->
    contact_cleaned r).
  { intros H.
    apply bind_Some in H as (u & _ & H). apply bind_Some in H as (d & _ & H).
    apply bind_Some in H as (a & _ & H). apply bind_Some in H as (g & _ & H).
    apply bind_Some in H as (m & _ & H). apply bind_Some in H as (e & _ & H).
    injection H as <-.
    exact (contact_cleaned_intro (Some u) (Some d) (Some a) (Some g) (Some m) (Some e)). }
  destruct parsed; try discriminate; exact Hgen.
Qed.

Lemma parseKeyValuePayload_cleaned (env : Contacts.Env) (raw : string)
    (r : Contacts.Record_) :
  Contacts.parseKeyValuePayload env raw = Some r -> contact_cleaned r.
Proof.
  unfold Contacts.parseKeyValuePayload.
  destruct (negb _); [discriminate|].
  destruct (decide _); [discriminate|].
  intros H. injection H as <-. apply contact_cleaned_intro.
Qed.

Lemma parseDelimitedPayload_cleaned (raw : string) (r : Contacts.Record_) :
  Contacts.parseDelimitedPayload raw = Some r -> contact_cleaned r.
Proof.
  unfold Contacts.parseDelimitedPayload.
  destruct (negb _); [discriminate|].
  match goal with
  | |- match ?choice with _ => _ end = _ -> _ =>
      destruct choice as [delimiter|]; [|discriminate]
  end.
  destruct (List.filter _ _) as [|u [|b [|a [|g [|m [|e rest]]]]]]; try discriminate.
  intros H. injection H as <-.
  exact (contact_cleaned_intro (Some u) (Some b) (Some a) (Some g) (Some m) (Some e)).
Qed.

Lemma decoded_lookup (fields : list (list Z)) (k : nat) :
  List.map (fun chunk => cleanText (Some (Aadhaar.textDecoder_decode chunk))) fields
    !! k
  = (fun chunk => cleanText (Some (Aadhaar.textDecoder_decode chunk)))
      <$> fields !! k.
Proof.
  revert k. induction fields as [|f fields IH]; intros [|k]; try reflexivity.
  apply IH.
Qed.

Lemma decoded_clean (fields : list (list Z)) (k : nat) :
  let decoded :=
    List.map (fun chunk => cleanText (Some (Aadhaar.textDecoder_decode chunk)))
             fields in
  cleanText (Some (or_empty (decoded !! k))) = or_empty (decoded !! k).
Proof.
  cbv zeta. rewrite decoded_lookup.
  destruct (fields !! k) as [chunk|]; [|reflexivity].
  apply cleanText_idem.
Qed.

(** The record of the Secure format, field by field. *)
Lemma parseSecureQrBytes_record (bytes : list Z) (r : gmap string string) :
  Aadhaar.parseSecureQrBytes bytes = Some r ->
  let decoded :=
    List.map (fun chunk => cleanText (Some (Aadhaar.textDecoder_decode chunk)))
             (Aadhaar.scan_fields bytes) in
  (16 <= length (Aadhaar.scan_fields bytes))%nat
  /\ r !! "referenceId" = Some (or_empty (decoded !! 1%nat))
  /\ r !! "name" = Some (or_empty (decoded !! 2%nat))
  /\ r !! "dob" = Some (or_empty (decoded !! 3%nat))
  /\ r !! "gender" = Some (or_empty (decoded !! 4%nat))
  /\ r !! "pin" = Some (or_empty (decoded !! 10%nat)).
Proof.
  unfold Aadhaar.parseSecureQrBytes. cbv zeta.
  destruct (length (Aadhaar.scan_fields bytes) <? 16)%nat eqn:Hlen; [discriminate|].
  apply Nat.ltb_ge in Hlen.
  destruct (negb _ || negb _)%bool; [discriminate|].
  intros H. injection H as <-.
  split; [exact Hlen|]. repeat split.
Qed.

Section MarkupFields.

Import Aadhaar.

Lemma parsePrintLetter_fields (node : Element) :
  Forall (copied (parsePrintLetter node) (Some node)) printLetter_attributes
  /\ parsePrintLetter node !! "address"
     = Some (joinAddress
               (List.map (fun a => Some (or_empty (getAttribute node a)))
                         printLetter_address))
  /\ parsePrintLetter node !! "source" = Some "PrintLetterBarcodeData".
Proof.
  split; [|split; reflexivity].
  unfold printLetter_attributes, copied. repeat constructor.
Qed.

Lemma parseOfflinePaperless_fields (root : Element) :
  let poi := head (getElementsByTagName root "Poi") in
  let poa := head (getElementsByTagName root "Poa") in
  parseOfflinePaperless root !! "referenceId"
  = Some (or_else (or_empty (getAttribute root "referenceId"))
                  (or_empty (getAttribute root "referenceid")))
  /\ Forall (copied (parseOfflinePaperless root) poi) poi_attributes
  /\ copied (parseOfflinePaperless root) poa ("pin", "pc")
  /\ parseOfflinePaperless root !! "address"
     = Some (match poa with
             | Some e =>
                 joinAddress
                   (List.map (getAttribute e) poa_address
                    ++ [Some (or_empty (getAttribute e "pc"));
                        getAttribute e "po"])
             | None => ""
             end)
  /\ parseOfflinePaperless root !! "source" = Some "OfflinePaperlessKyc".
Proof.
  cbv zeta. unfold parseOfflinePaperless, poi_attributes, copied. cbv zeta.
  destruct (head (getElementsByTagName root "Poi")) as [poi|],
    (head (getElementsByTagName root "Poa")) as [poa|];
    (split; [|split; [repeat constructor|split; [reflexivity|split; reflexivity]]]);
    change (Some (or_else (or_else (or_empty (getAttribute root "referenceId"))
                             (or_empty (getAttribute root "referenceid"))) "")
            = Some (or_else (or_empty (getAttribute root "referenceId"))
                            (or_empty (getAttribute root "referenceid"))));
    rewrite or_else_empty_r; reflexivity.
Qed.

Lemma parseOkY_fields (oky : Element) :
  Forall (copied (parseOkY oky) (Some oky)) oky_attributes
  /\ parseOkY oky !! "source" = Some "OKY".
Proof.
  split; [|reflexivity]. unfold oky_attributes, copied. repeat constructor.
Qed.

Lemma parseXmlPayload_cases (env : Env) (raw : string) (r : gmap string string) :
  parseXmlPayload env raw = Some r ->
  exists xmlText,
    extractXml raw = Some xmlText
    /\ let doc := parseFromString env xmlText in
       doc_getElementsByTagName doc "parsererror" = []
       /\ ((exists node,
              head (doc_getElementsByTagName doc "PrintLetterBarcodeData")
              = Some node
              /\ r = parsePrintLetter node)
           \/ (doc_getElementsByTagName doc "PrintLetterBarcodeData" = []
               /\ exists node,
                    head (doc_getElementsByTagName doc "OfflinePaperlessKyc")
                    = Some node
                    /\ r = parseOfflinePaperless node)
           \/ (doc_getElementsByTagName doc "PrintLetterBarcodeData" = []
               /\ doc_getElementsByTagName doc "OfflinePaperlessKyc" = []
               /\ exists node,
                    head (doc_getElementsByTagName doc "OKY") = Some node
                    /\ r = parseOkY node)).
Proof.
  unfold parseXmlPayload. intros H.
  destruct (extractXml raw) as [xmlText|]; [|discriminate].
  exists xmlText. split; [reflexivity|].
  destruct (negb (truthy xmlText)); [discriminate|].
  cbv zeta in *.
  destruct (doc_getElementsByTagName (parseFromString env xmlText) "parsererror");
    [|discriminate].
  split; [reflexivity|].
  destruct (doc_getElementsByTagName (parseFromString env xmlText)
              "PrintLetterBarcodeData") as [|node ?].
  2: { left. exists node. injection H as <-. split; reflexivity. }
  destruct (doc_getElementsByTagName (parseFromString env xmlText)
              "OfflinePaperlessKyc") as [|node ?].
  2: { right. left. split; [reflexivity|]. exists node.
       injection H as <-. split; reflexivity. }
  destruct (doc_getElementsByTagName (parseFromString env xmlText) "OKY")
    as [|node ?]; [discriminate|].
  right. right. split; [reflexivity|]. split; [reflexivity|].
  exists node. injection H as <-. split; reflexivity.
Qed.

Lemma parseSecureQrBytes_address (bytes : list Z) (r : gmap string string) :
  parseSecureQrBytes bytes = Some r ->
  let decoded :=
    List.map (fun chunk => cleanText (Some (textDecoder_decode chunk)))
             (scan_fields bytes) in
  Forall (fun fk : string * nat => r !! fk.1 = Some (or_empty (decoded !! fk.2)))
         secure_fields
  /\ r !! "address"
     = Some (joinAddress
               (List.map (fun k => Some (or_empty (decoded !! k))) secure_address))
  /\ r !! "source" = Some "Secure QR".
Proof.
  unfold parseSecureQrBytes. cbv zeta.
  destruct (length (scan_fields bytes) <? 16)%nat; [discriminate|].
  destruct (negb _ || negb _)%bool; [discriminate|].
  intros H. injection H as <-.
  split; [unfold secure_fields; repeat constructor|]. split; reflexivity.
Qed.

Lemma gender_shown (r : gmap string string) :
  r !! "gender" = Some "M" -> genderCell r = "Male".
Proof. intros H. unfold genderCell. rewrite H. reflexivity. Qed.

Lemma offline_gender (root poi : Element) (v : string) :
  head (getElementsByTagName root "Poi") = Some poi ->
  getAttribute poi "gender" = Some v ->
  parseOfflinePaperless root !! "gender" = Some v.
Proof.
  intros Hp Hg. unfold parseOfflinePaperless. cbv zeta. rewrite Hp.
  change (Some (or_empty (getAttribute poi "gender")) = Some v).
  rewrite Hg. reflexivity.
Qed.

Lemma oky_gender (oky : Element) (v : string) :
  getAttribute oky "g" = Some v -> parseOkY oky !! "gender" = Some v.
Proof.
  intros Hg. change (Some (or_empty (getAttribute oky "g")) = Some v).
  rewrite Hg. reflexivity.
Qed.

End MarkupFields.

Section ContactFields.

Import Contacts.

Lemma parseJsonPayload_fields (env : Env) (raw : string) (r : Record_) :
  parseJsonPayload env raw = Some r ->
  exists parsed u d a g m e,
    JSON_parse env raw = Some parsed
    /\ text_arg (js_or (js_or (prop parsed "username") (prop parsed "user"))
                       (prop parsed "name")) = Some u
    /\ text_arg (js_or (js_or (js_or (prop parsed "dob")
                                      (prop parsed "dateOfBirth"))
                              (prop parsed "birth"))
                       (prop parsed "birthDate")) = Some d
    /\ text_arg (prop parsed "age") = Some a
    /\ text_arg (prop parsed "gender") = Some g
    /\ text_arg (js_or (js_or (prop parsed "mobile") (prop parsed "phone"))
                       (prop parsed "phoneNumber")) = Some m
    /\ text_arg (js_or (prop parsed "email") (prop parsed "mail")) = Some e
    /\ r = cleaned_record (Some u) (Some d) (Some a) (Some g) (Some m) (Some e).
Proof.
  unfold parseJsonPayload.
  destruct (JSON_parse env raw) as [parsed|]; [|discriminate].
  intros H. exists parsed.
  assert (Hgen :
    (u ← text_arg (js_or (js_or (prop parsed "username") (prop parsed "user"))
                         (prop parsed "name"));
     d ← text_arg (js_or (js_or (js_or (prop parsed "dob")
                                        (prop parsed "dateOfBirth"))
                                (prop parsed "birth"))
                         (prop parsed "birthDate"));
     a ← text_arg (prop parsed "age");
     g ← text_arg (prop parsed "gender");
     m ← text_arg (js_or (js_or (prop parsed "mobile") (prop parsed "phone"))
                         (prop parsed "phoneNumber"));
     e ← text_arg (js_or (prop parsed "email") (prop parsed "mail"));
     Some {| username := cleanText (Some u); dob := cleanText (Some d);
             age := cleanText (Some a); gender := normalizeGender (Some g);
             mobile := cleanPhone (Some m); email := cleanEmail (Some e) |})
    = Some r).
  { destruct parsed; try discriminate; exact H. }
  clear H.
  apply bind_Some in Hgen as (u & Hu & H). apply bind_Some in H as (d & Hd & H).
  apply bind_Some in H as (a & Ha & H). apply bind_Some in H as (g & Hg & H).
  apply bind_Some in H as (m & Hm & H). apply bind_Some in H as (e & He & H).
  injection H as <-. exists u, d, a, g, m, e.
  split; [reflexivity|]. repeat (split; [assumption|]). reflexivity.
Qed.

Lemma parseKeyValuePayload_fields (env : Env) (raw : string) (r : Record_) :
  parseKeyValuePayload env raw = Some r ->
  let p := fun name : string =>
             fold_left kv_assign (kv_matches env raw) ∅ !! name in
  r = cleaned_record
        (alt (alt (p "username") (p "user")) (p "name"))
        (alt (alt (alt (p "dob") (p "dateofbirth")) (p "birth")) (p "birthdate"))
        (p "age") (p "gender")
        (alt (alt (p "mobile") (p "phone")) (p "phonenumber"))
        (alt (p "email") (p "mail")).
Proof.
  unfold parseKeyValuePayload.
  destruct (negb _); [discriminate|].
  destruct (decide _); [discriminate|].
  intros H. injection H as <-. reflexivity.
Qed.

Lemma parseDelimitedPayload_fields (raw : string) (r : Record_) :
  parseDelimitedPayload raw = Some r ->
  exists u b a g m e rest,
    List.filter truthy
      (List.map trim (split_on (chosen_delimiter (trim raw)) (trim raw)))
    = u :: b :: a :: g :: m :: e :: rest
    /\ r = cleaned_record (Some u) (Some b) (Some a) (Some g) (Some m) (Some e).
Proof.
  unfold parseDelimitedPayload, chosen_delimiter. cbv zeta.
  destruct (negb (truthy (trim raw))); [discriminate|].
  destruct (includes (trim raw) "|").
  2: destruct (includes (trim raw) ",").
  3: destruct (includes (trim raw) ";"); [|discriminate].
  all: match goal with
       | |- match ?l with _ => _ end = _ -> _ =>
           destruct l as [|u [|b [|a [|g [|m [|e rest]]]]]]; try discriminate
       end;
       intros H; injection H as <-;
       exists u, b, a, g, m, e, rest; split; reflexivity.
Qed.

End ContactFields.

(** C2, as stated, fails on [src/app.js]: the record that the markup grammar
    gives for an element with [gender='M'], and that the handler stores,
    has the gender ["M"], not ["Male"]. *)
Lemma markup_gender_not_normalized :
  let env := sample_browser true in
  let st := Aadhaar.handleScanResult env Aadhaar.initial sample_card_xml 5000 "t1" in
  fst (Aadhaar.parseAadhaarPayload env sample_card_xml) ≫= (.!! "gender") = Some "M"
  /\ Aadhaar.records st !! "123412341234" ≫= (.!! "gender") = Some "M"
  /\ Some "M" <> Some "Male".
Proof. vm_compute. repeat split. discriminate. Qed.

(** C2, amended.  The contact-card decoder cleans every field with the
    helper of that field: [cleanText] for the user name, the date of birth
    and the age, [normalizeGender] for the gender, [cleanPhone] for the
    mobile number and [cleanEmail] for the address; this holds for each of
    its three grammars, on the raw values that the grammar reads, and each
    field of a decoded record is in the form its helper gives.  In
    [src/app.js] the Secure format passes its text fields through
    [cleanText], the gender included, which is not normalized: each field
    of its record is the cleaned text of one chunk, and the address is
    joined from cleaned chunks.  The markup grammar cleans nothing: a
    print letter gives the attributes of its element as they are, the
    offline form those of its root, of its first [Poi] and of its first
    [Poa] descendant, the short form its attributes [r], [n], [g], [d] and
    [a]; only the address of the first two is joined from cleaned parts.
    The gender is normalized when the record is rendered: a print letter
    with [gender='M'], a short form with [g='M'] and an offline form whose
    first [Poi] has [gender='M'] give a record with gender ["M"] and a
    gender cell ["Male"]. *)
Theorem decoded_fields_cleaning :
  (forall env raw r consulted,
      Contacts.parseQrPayload env raw = (Some r, consulted) ->
      contact_cleaned r)
  /\ (forall bytes r,
         Aadhaar.parseSecureQrBytes bytes = Some r ->
         Forall (fun field : string =>
                   exists v, r !! field = Some v /\ cleanText (Some v) = v)
                ["referenceId"; "name"; "dob"; "gender"; "pin"]
         /\ exists chunk,
              Aadhaar.scan_fields bytes !! 4%nat = Some chunk
              /\ r !! "gender"
                 = Some (cleanText (Some (Aadhaar.textDecoder_decode chunk))))
  /\ (forall node,
         Forall (fun field : string =>
                   Aadhaar.parsePrintLetter node !! field
                   = Some (or_empty (Aadhaar.getAttribute node field)))
                ["uid"; "name"; "gender"; "dob"; "yob"])
  /\ (forall oky,
         Aadhaar.parseOkY oky !! "gender"
         = Some (or_empty (Aadhaar.getAttribute oky "g")))
  /\ (forall node,
         Aadhaar.getAttribute node "gender" = Some "M" ->
         Aadhaar.parsePrintLetter node !! "gender" = Some "M"
         /\ Aadhaar.genderCell (Aadhaar.parsePrintLetter node) = "Male")
  /\ (forall env raw r,
         Contacts.parseJsonPayload env raw = Some r ->
         exists parsed u d a g m e,
           Contacts.JSON_parse env raw = Some parsed
           /\ Contacts.text_arg
                (Contacts.js_or
                   (Contacts.js_or (Contacts.prop parsed "username")
                                   (Contacts.prop parsed "user"))
                   (Contacts.prop parsed "name")) = Some u
           /\ Contacts.text_arg
                (Contacts.js_or
                   (Contacts.js_or
                      (Contacts.js_or (Contacts.prop parsed "dob")
                                      (Contacts.prop parsed "dateOfBirth"))
                      (Contacts.prop parsed "birth"))
                   (Contacts.prop parsed "birthDate")) = Some d
           /\ Contacts.text_arg (Contacts.prop parsed "age") = Some a
           /\ Contacts.text_arg (Contacts.prop parsed "gender") = Some g
           /\ Contacts.text_arg
                (Contacts.js_or
                   (Contacts.js_or (Contacts.prop parsed "mobile")
                                   (Contacts.prop parsed "phone"))
                   (Contacts.prop parsed "phoneNumber")) = Some m
           /\ Contacts.text_arg
                (Contacts.js_or (Contacts.prop parsed "email")
                                (Contacts.prop parsed "mail")) = Some e
           /\ r = cleaned_record (Some u) (Some d) (Some a) (Some g) (Some m)
                    (Some e))
  /\ (forall env raw r,
         Contacts.parseKeyValuePayload env raw = Some r ->
         let p := fun name : string =>
                    fold_left Contacts.kv_assign (Contacts.kv_matches env raw) ∅
                      !! name in
         r = cleaned_record
               (Contacts.alt (Contacts.alt (p "username") (p "user")) (p "name"))
               (Contacts.alt
                  (Contacts.alt (Contacts.alt (p "dob") (p "dateofbirth"))
                                (p "birth"))
                  (p "birthdate"))
               (p "age") (p "gender")
               (Contacts.alt (Contacts.alt (p "mobile") (p "phone"))
                             (p "phonenumber"))
               (Contacts.alt (p "email") (p "mail")))
  /\ (forall raw r,
         Contacts.parseDelimitedPayload raw = Some r ->
         exists u b a g m e rest,
           List.filter truthy
             (List.map trim
                (split_on (chosen_delimiter (trim raw)) (trim raw)))
           = u :: b :: a :: g :: m :: e :: rest
           /\ r = cleaned_record (Some u) (Some b) (Some a) (Some g) (Some m)
                    (Some e))
  /\ (forall bytes r,
         Aadhaar.parseSecureQrBytes bytes = Some r ->
         let decoded :=
           List.map
             (fun chunk => cleanText (Some (Aadhaar.textDecoder_decode chunk)))
             (Aadhaar.scan_fields bytes) in
         Forall (fun fk : string * nat =>
                   r !! fk.1 = Some (or_empty (decoded !! fk.2)))
                secure_fields
         /\ r !! "address"
            = Some (Aadhaar.joinAddress
                      (List.map (fun k => Some (or_empty (decoded !! k)))
                                secure_address))
         /\ r !! "source" = Some "Secure QR")
  /\ (forall node,
         Forall (copied (Aadhaar.parsePrintLetter node) (Some node))
                printLetter_attributes
         /\ Aadhaar.parsePrintLetter node !! "address"
            = Some (Aadhaar.joinAddress
                      (List.map
                         (fun a => Some (or_empty (Aadhaar.getAttribute node a)))
                         printLetter_address))
         /\ Aadhaar.parsePrintLetter node !! "source"
            = Some "PrintLetterBarcodeData")
  /\ (forall root,
         let poi := head (Aadhaar.getElementsByTagName root "Poi") in
         let poa := head (Aadhaar.getElementsByTagName root "Poa") in
         Aadhaar.parseOfflinePaperless root !! "referenceId"
         = Some (or_else (or_empty (Aadhaar.getAttribute root "referenceId"))
                         (or_empty (Aadhaar.getAttribute root "referenceid")))
         /\ Forall (copied (Aadhaar.parseOfflinePaperless root) poi)
                   poi_attributes
         /\ copied (Aadhaar.parseOfflinePaperless root) poa ("pin", "pc")
         /\ Aadhaar.parseOfflinePaperless root !! "address"
            = Some (match poa with
                    | Some e =>
                        Aadhaar.joinAddress
                          (List.map (Aadhaar.getAttribute e) poa_address
                           ++ [Some (or_empty (Aadhaar.getAttribute e "pc"));
                               Aadhaar.getAttribute e "po"])
                    | None => ""
                    end)
         /\ Aadhaar.parseOfflinePaperless root !! "source"
            = Some "OfflinePaperlessKyc")
  /\ (forall oky,
         Forall (copied (Aadhaar.parseOkY oky) (Some oky)) oky_attributes
         /\ Aadhaar.parseOkY oky !! "source" = Some "OKY")
  /\ (forall env raw r,
         Aadhaar.parseXmlPayload env raw = Some r ->
         exists xmlText,
           Aadhaar.extractXml raw = Some xmlText
           /\ let doc := Aadhaar.parseFromString env xmlText in
              Aadhaar.doc_getElementsByTagName doc "parsererror" = []
              /\ ((exists node,
                     head (Aadhaar.doc_getElementsByTagName doc
                             "PrintLetterBarcodeData") = Some node
                     /\ r = Aadhaar.parsePrintLetter node)
                  \/ (Aadhaar.doc_getElementsByTagName doc
                        "PrintLetterBarcodeData" = []
                      /\ exists node,
                           head (Aadhaar.doc_getElementsByTagName doc
                                   "OfflinePaperlessKyc") = Some node
                           /\ r = Aadhaar.parseOfflinePaperless node)
                  \/ (Aadhaar.doc_getElementsByTagName doc
                        "PrintLetterBarcodeData" = []
                      /\ Aadhaar.doc_getElementsByTagName doc
                           "OfflinePaperlessKyc" = []
                      /\ exists node,
                           head (Aadhaar.doc_getElementsByTagName doc "OKY")
                           = Some node
                           /\ r = Aadhaar.parseOkY node)))
  /\ (forall oky,
         Aadhaar.getAttribute oky "g" = Some "M" ->
         Aadhaar.parseOkY oky !! "gender" = Some "M"
         /\ Aadhaar.genderCell (Aadhaar.parseOkY oky) = "Male")
  /\ (forall root poi,
         head (Aadhaar.getElementsByTagName root "Poi") = Some poi ->
         Aadhaar.getAttribute poi "gender" = Some "M" ->
         Aadhaar.parseOfflinePaperless root !! "gender" = Some "M"
         /\ Aadhaar.genderCell (Aadhaar.parseOfflinePaperless root) = "Male").
Proof.
  split.
  { intros env raw r consulted H. rewrite contacts_cascade in H.
    destruct (truthy (trim raw)); [|discriminate].
    cbn [Contacts.grammars first_success] in H.
    destruct (Contacts.parseJsonPayload env (trim raw)) as [r1|] eqn:H1.
    { injection H as <- _. exact (parseJsonPayload_cleaned _ _ _ H1). }
    destruct (Contacts.parseKeyValuePayload env (trim raw)) as [r2|] eqn:H2.
    { injection H as <- _. exact (parseKeyValuePayload_cleaned _ _ _ H2). }
    destruct (Contacts.parseDelimitedPayload (trim raw)) as [r3|] eqn:H3.
    { injection H as <- _. exact (parseDelimitedPayload_cleaned _ _ H3). }
    discriminate. }
  split.
  { intros bytes r H.
    destruct (parseSecureQrBytes_record bytes r H)
      as (Hlen & Hid & Hname & Hdob & Hgender & Hpin).
    split.
    + repeat constructor; eexists; (split; [eassumption | apply decoded_clean]).
    + destruct (lookup_lt_is_Some_2 (Aadhaar.scan_fields bytes) 4) as [chunk Hc];
        [lia|].
      exists chunk. split; [exact Hc|].
      rewrite Hgender, decoded_lookup, Hc. reflexivity. }
  split; [intros node; repeat constructor|].
  split; [intros oky; reflexivity|].
  split.
  { intros node Hg.
    assert (H : Aadhaar.parsePrintLetter node !! "gender" = Some "M").
    { change (Some (or_empty (Aadhaar.getAttribute node "gender")) = Some "M").
      rewrite Hg. reflexivity. }
    split; [exact H | exact (gender_shown _ H)]. }
  split; [exact parseJsonPayload_fields|].
  split; [exact parseKeyValuePayload_fields|].
  split; [exact parseDelimitedPayload_fields|].
  split; [exact parseSecureQrBytes_address|].
  split; [exact parsePrintLetter_fields|].
  split; [exact parseOfflinePaperless_fields|].
  split; [exact parseOkY_fields|].
  split; [exact parseXmlPayload_cases|].
  split.
  - intros oky Hg. pose proof (oky_gender oky "M" Hg) as H.
    split; [exact H | exact (gender_shown _ H)].
  - intros root poi Hp Hg. pose proof (offline_gender root poi "M" Hp Hg) as H.
    split; [exact H | exact (gender_shown _ H)].
Qed.

Lemma decoded_fields_cleaning_witness :
  (Aadhaar.parsePrintLetter sample_card !! "gender" = Some "M"
   /\ Aadhaar.genderCell (Aadhaar.parsePrintLetter sample_card) = "Male")
  /\ contact_cleaned sample_contact
  /\ (exists r chunk,
        Aadhaar.parseSecureQrBytes sample_secure_bytes = Some r
        /\ Aadhaar.scan_fields sample_secure_bytes !! 4%nat = Some chunk
        /\ r !! "gender"
           = Some (cleanText (Some (Aadhaar.textDecoder_decode chunk))))
  /\ (Aadhaar.parseOkY sample_short_form !! "gender" = Some "M"
      /\ Aadhaar.genderCell (Aadhaar.parseOkY sample_short_form) = "Male")
  /\ (Aadhaar.parseOfflinePaperless sample_offline_form !! "gender" = Some "M"
      /\ Aadhaar.genderCell (Aadhaar.parseOfflinePaperless sample_offline_form)
         = "Male")
  /\ (exists u b a g m e rest,
        List.filter truthy
          (List.map trim
             (split_on
                (chosen_delimiter
                   (trim "Jane | 1990-01-01 | 34 | F | 9990001111 | Jane@X.com"))
                (trim "Jane | 1990-01-01 | 34 | F | 9990001111 | Jane@X.com")))
        = u :: b :: a :: g :: m :: e :: rest
        /\ sample_contact
           = cleaned_record (Some u) (Some b) (Some a) (Some g) (Some m)
               (Some e)).
Proof.
  destruct decoded_fields_cleaning
    as (Hcontact & Hsecure & _ & _ & Hprint & _ & _ & Hdelimited & _ & _ & _
        & _ & _ & Hshort & Hoffline).
  split; [|split; [|split; [|split; [|split]]]].
  - apply (Hprint sample_card). reflexivity.
  - apply (Hcontact sample_contacts_env
             "Jane | 1990-01-01 | 34 | F | 9990001111 | Jane@X.com"
             sample_contact
             [Contacts.JsonGrammar; Contacts.KeyValueGrammar;
              Contacts.DelimitedGrammar]).
    reflexivity.
  - destruct (Aadhaar.parseSecureQrBytes sample_secure_bytes) as [r|] eqn:E;
      [|vm_compute in E; discriminate].
    destruct (proj2 (Hsecure sample_secure_bytes r E)) as (chunk & Hc & Hg).
    exists r, chunk. split; [reflexivity|]. split; [exact Hc | exact Hg].
  - apply (Hshort sample_short_form). reflexivity.
  - apply (Hoffline sample_offline_form
             (Aadhaar.Elem "Poi" (list_to_map [("gender", "M")]) []));
      reflexivity.
  - apply (Hdelimited "Jane | 1990-01-01 | 34 | F | 9990001111 | Jane@X.com").
    reflexivity.
Defined.

End CleaningClaims.

(** * Further properties *)

(** ** The cleaning helpers *)

Section HelperProperties.

Lemma all_ws_trimStart (s : string) :
  all_chars is_ws (trimStart s) = all_chars is_ws s.
Proof.
  induction s as [|c s IH]; [reflexivity|].
  cbn. destruct (is_ws c) eqn:Hc; cbn; [exact IH | rewrite Hc; reflexivity].
Qed.

Lemma all_ws_collapse (b : bool) (s : string) :
  all_chars is_ws (collapse_from b s) = all_chars is_ws s.
Proof.
  revert b. induction s as [|c s IH]; intros b; [reflexivity|].
  cbn. destruct (is_ws c) eqn:Hc; cbn.
  - destruct b; cbn; rewrite ?is_ws_space; apply IH.
  - rewrite Hc. reflexivity.
Qed.

Lemma trim_empty_iff (s : string) :
  trim s = "" <-> all_chars is_ws s = true.
Proof.
  unfold trim. rewrite <- (all_ws_trimStart s).
  pose proof (trimEnd_truthy (trimStart s)) as H.
  destruct (all_chars is_ws (trimStart s)); cbn in H.
  - split; [reflexivity|]. intros _. apply truthy_false, H.
  - split; [|discriminate]. intros E. rewrite E in H. discriminate.
Qed.

(** X1.  The text that [cleanText] returns is in normal form: trimming it,
    collapsing its white space or cleaning it again changes nothing; and it
    is empty exactly when the argument is missing or holds white space
    only. *)
Theorem cleanText_normal_form (v : option string) :
  trim (cleanText v) = cleanText v
  /\ collapse_ws (cleanText v) = cleanText v
  /\ cleanText (Some (cleanText v)) = cleanText v
  /\ (cleanText v = "" <-> all_chars is_ws (or_empty v) = true).
Proof.
  split; [apply trim_idem|].
  split.
  { unfold cleanText. rewrite <- trim_collapse, collapse_ws_idem. reflexivity. }
  split; [apply cleanText_idem|].
  unfold cleanText. rewrite trim_empty_iff. unfold collapse_ws.
  rewrite all_ws_collapse. reflexivity.
Qed.

Lemma startsWith_lower (c : ascii) (rest : string) (m : ascii) :
  startsWith (toLowerCase (String c rest)) m
  = if ascii_dec (lower_char c) m then true else false.
Proof. reflexivity. Qed.

(** X2.  [normalizeGender] looks at the first character of the trimmed
    value only, whatever its case: [m] gives Male, [f] Female, [t]
    Transgender, and any other value comes back trimmed.  The result is
    empty exactly for a blank value, and normalizing it again changes
    nothing. *)
Theorem normalizeGender_cases (v : option string) :
  (forall c rest,
      trim (or_empty v) = String c rest ->
      normalizeGender v
      = if ascii_dec (lower_char c) "m" then "Male"
        else if ascii_dec (lower_char c) "f" then "Female"
        else if ascii_dec (lower_char c) "t" then "Transgender"
        else String c rest)
  /\ (normalizeGender v = "" <-> all_chars is_ws (or_empty v) = true)
  /\ normalizeGender (Some (normalizeGender v)) = normalizeGender v.
Proof.
  split; [|split; [|apply normalizeGender_idem]].
  - intros c rest H. unfold normalizeGender. rewrite H. cbn [truthy negb].
    rewrite !startsWith_lower.
    destruct (ascii_dec (lower_char c) "m"); [reflexivity|].
    destruct (ascii_dec (lower_char c) "f"); [reflexivity|].
    destruct (ascii_dec (lower_char c) "t"); reflexivity.
  - rewrite <- trim_empty_iff. unfold normalizeGender.
    destruct (trim (or_empty v)) as [|c rest] eqn:H; [split; reflexivity|].
    cbn [truthy negb]. rewrite !startsWith_lower.
    split; [|discriminate].
    destruct (ascii_dec (lower_char c) "m"); [discriminate|].
    destruct (ascii_dec (lower_char c) "f"); [discriminate|].
    destruct (ascii_dec (lower_char c) "t"); discriminate.
Qed.

Lemma normalizeGender_cases_witness :
  normalizeGender (Some "  male ") = "Male"
  /\ normalizeGender (Some "other") = "other".
Proof.
  split.
  - exact (proj1 (normalizeGender_cases (Some "  male ")) "m"%char "ale" eq_refl).
  - exact (proj1 (normalizeGender_cases (Some "other")) "o"%char "ther" eq_refl).
Defined.

Lemma all_chars_keep (p : ascii -> bool) (s : string) :
  all_chars p (keep p s) = true.
Proof.
  induction s as [|c s IH]; [reflexivity|].
  cbn. destruct (p c) eqn:Hc; [|exact IH]. cbn. rewrite Hc. exact IH.
Qed.

Lemma keep_keep_digits (s : string) :
  keep is_digit
    (keep (fun c => (is_digit c || if ascii_dec c "+" then true else false)%bool) s)
  = keep is_digit s.
Proof.
  induction s as [|c s IH]; [reflexivity|].
  cbn. destruct (is_digit c) eqn:Hc; cbn.
  - rewrite Hc, IH. reflexivity.
  - destruct (ascii_dec c "+"); [|exact IH]. cbn. rewrite Hc. exact IH.
Qed.

(** X3.  [cleanPhone] returns digits and plus signs only, keeps every digit
    of its argument in place, and cleaning its result again changes
    nothing. *)
Theorem cleanPhone_digits (v : option string) :
  all_chars (fun c => (is_digit c || if ascii_dec c "+" then true else false)%bool)
            (Contacts.cleanPhone v) = true
  /\ keep is_digit (Contacts.cleanPhone v) = keep is_digit (or_empty v)
  /\ Contacts.cleanPhone (Some (Contacts.cleanPhone v)) = Contacts.cleanPhone v.
Proof.
  split; [|split; [|apply cleanPhone_idem]].
  - destruct v as [[|c s]|]; try reflexivity.
    apply (all_chars_keep _ (String c s)).
  - destruct v as [[|c s]|]; try reflexivity.
    apply (keep_keep_digits (String c s)).
Qed.

(** X4.  [cleanEmail] gives the same address whatever the case of the
    letters and the white space around its argument; its result is trimmed
    and in lower case, and cleaning it again changes nothing. *)
Theorem cleanEmail_canonical (s : string) :
  Contacts.cleanEmail (Some (toLowerCase s)) = Contacts.cleanEmail (Some s)
  /\ Contacts.cleanEmail (Some (trim s)) = Contacts.cleanEmail (Some s)
  /\ toLowerCase (Contacts.cleanEmail (Some s)) = Contacts.cleanEmail (Some s)
  /\ trim (Contacts.cleanEmail (Some s)) = Contacts.cleanEmail (Some s)
  /\ Contacts.cleanEmail (Some (Contacts.cleanEmail (Some s)))
     = Contacts.cleanEmail (Some s).
Proof.
  unfold Contacts.cleanEmail. cbn [or_empty].
  split; [rewrite trim_toLowerCase; apply toLowerCase_idem|].
  split; [rewrite trim_idem; reflexivity|].
  split; [apply toLowerCase_idem|].
  split; [rewrite trim_toLowerCase, trim_idem; reflexivity|].
  rewrite trim_toLowerCase, trim_idem. apply toLowerCase_idem.
Qed.

End HelperProperties.

(** ** Addresses and identity numbers *)

Section DisplayProperties.

Import Display.

Lemma join_truthy (sep p : string) (ps : list string) :
  truthy p = true -> truthy (JsText.join sep (p :: ps)) = true.
Proof.
  destruct p as [|c p]; [discriminate|]. intros _.
  destruct ps; reflexivity.
Qed.

Lemma kept_parts_nil (parts : list (option string)) :
  List.filter truthy (List.map cleanText parts) = []
  <-> Forall (fun p => cleanText p = "") parts.
Proof.
  induction parts as [|p parts IH]; [split; [constructor | reflexivity]|].
  cbn. destruct (cleanText p) as [|c t] eqn:Hp; cbn.
  - rewrite IH. split; [intros H; constructor; [exact Hp | exact H]|].
    intros H. apply Forall_cons in H. apply H.
  - split; [discriminate|]. intros H. apply Forall_cons in H.
    destruct H as [H _]. rewrite Hp in H. discriminate.
Qed.

(** X5.  [joinAddress] drops the parts that are blank: a part that is
    missing or holds white space only never shows in the address, which is
    empty exactly when every part is blank; a single part gives its cleaned
    text. *)
Theorem joinAddress_blank_parts :
  (forall before p after,
      cleanText p = "" ->
      Aadhaar.joinAddress (before ++ p :: after)
      = Aadhaar.joinAddress (before ++ after))
  /\ (forall parts,
         Aadhaar.joinAddress parts = ""
         <-> Forall (fun p => cleanText p = "") parts)
  /\ (forall p, Aadhaar.joinAddress [p] = cleanText p).
Proof.
  split; [|split].
  - intros before p after Hp. unfold Aadhaar.joinAddress.
    rewrite !List.map_app, !List.filter_app. cbn [List.map List.filter].
    rewrite Hp. reflexivity.
  - intros parts. rewrite <- kept_parts_nil. unfold Aadhaar.joinAddress.
    destruct (List.filter truthy (List.map cleanText parts)) as [|q qs] eqn:E;
      [split; reflexivity|].
    split; [|discriminate]. intros H.
    assert (Hq : truthy q = true).
    { assert (Hin : In q (List.filter truthy (List.map cleanText parts)))
        by (rewrite E; left; reflexivity).
      apply List.filter_In in Hin. apply Hin. }
    pose proof (join_truthy ", " q qs Hq) as Ht. rewrite H in Ht. discriminate.
  - intros p. unfold Aadhaar.joinAddress. cbn.
    destruct (cleanText p); reflexivity.
Qed.

Lemma joinAddress_blank_parts_witness :
  Aadhaar.joinAddress [Some "12 Hill Road"; Some "  "; None; Some "Pune"]
  = Aadhaar.joinAddress [Some "12 Hill Road"; None; Some "Pune"].
Proof.
  exact (proj1 joinAddress_blank_parts [Some "12 Hill Road"] (Some "  ")
           [None; Some "Pune"] eq_refl).
Defined.

Lemma group4_unfold (a : ascii) (t : string) :
  group4 (String a t)
  = match t with
    | String b (String c (String d rest)) =>
        if (is_digit a && is_digit b && is_digit c && is_digit d
            && match rest with
               | String e _ => is_digit e
               | EmptyString => false
               end)%bool
        then String a (String b (String c (String d (String " " (group4 rest)))))
        else String a (group4 t)
    | _ => String a (group4 t)
    end.
Proof. destruct t as [|b [|c [|d rest]]]; reflexivity. Qed.

Lemma is_digit_not_ws (c : ascii) : is_digit c = true -> is_ws c = false.
Proof. destruct c as [[] [] [] [] [] [] [] []]; vm_compute; congruence. Qed.

(** Grouping inserts spaces only. *)
Lemma strip_ws_group4_bounded (n : nat) :
  forall s, (String.length s <= n)%nat -> strip_ws (group4 s) = strip_ws s.
Proof.
  induction n as [|n IH]; intros s Hlen.
  - destruct s; [reflexivity | cbn in Hlen; lia].
  - destruct s as [|a t]; [reflexivity|].
    cbn [String.length] in Hlen.
    assert (Htail : strip_ws (group4 (String a t)) = strip_ws (String a t)
                    \/ exists b c d rest,
                         t = String b (String c (String d rest))
                         /\ group4 (String a t)
                            = String a (String b (String c (String d
                                (String " " (group4 rest)))))).
    { rewrite group4_unfold.
      assert (Hdef : strip_ws (String a (group4 t)) = strip_ws (String a t)).
      { unfold strip_ws. cbn [keep]. fold (strip_ws (group4 t)) (strip_ws t).
        rewrite (IH t) by lia. reflexivity. }
      destruct t as [|b [|c [|d rest]]]; try (left; exact Hdef).
      destruct (_ && _)%bool; [|left; exact Hdef].
      right. exists b, c, d, rest. split; reflexivity. }
    destruct Htail as [H|(b & c & d & rest & -> & ->)]; [exact H|].
    cbn [String.length] in Hlen.
    unfold strip_ws. cbn [keep]. fold (strip_ws (group4 rest)) (strip_ws rest).
    rewrite is_ws_space. cbn [negb]. rewrite (IH rest) by lia. reflexivity.
Qed.

Lemma strip_ws_group4 (s : string) : strip_ws (group4 s) = strip_ws s.
Proof. apply (strip_ws_group4_bounded (String.length s)). lia. Qed.

Lemma strip_ws_idem (s : string) : strip_ws (strip_ws s) = strip_ws s.
Proof. apply keep_idem. Qed.

Lemma strip_ws_digits (s : string) :
  all_chars is_digit s = true -> strip_ws s = s.
Proof.
  induction s as [|c s IH]; [reflexivity|].
  cbn. intros H. apply andb_prop in H. destruct H as [Hc Hs].
  unfold strip_ws. cbn [keep]. rewrite (is_digit_not_ws c Hc). cbn [negb].
  fold (strip_ws s). rewrite (IH Hs). reflexivity.
Qed.

Lemma group4_twelve (digits : string) :
  all_chars is_digit digits = true ->
  String.length digits = 12%nat ->
  group4 digits
  = String.substring 0 4 digits +:+ " " +:+ String.substring 4 4 digits
    +:+ " " +:+ String.substring 8 4 digits.
Proof.
  intros Hd Hlen.
  do 12 (destruct digits as [|? digits]; [discriminate|]).
  destruct digits; [|discriminate].
  cbn in Hd.
  repeat match type of Hd with
         | (_ && _)%bool = true =>
             let H := fresh "H" in
             apply andb_prop in Hd; destruct Hd as [H Hd]
         end.
  cbn. repeat match goal with H : is_digit _ = true |- _ => rewrite H; clear H end.
  reflexivity.
Qed.

Lemma formatUid_unfold (value : string) :
  formatUid value
  = if truthy value
    then if (all_chars is_digit (strip_ws value)
             && (String.length (strip_ws value) =? 12)%nat)%bool
         then group4 (strip_ws value)
         else value
    else "".
Proof.
  unfold formatUid. destruct (truthy value); cbn [negb]; [|reflexivity].
  destruct (_ && _)%bool; reflexivity.
Qed.

(** X6.  [formatUid] changes the white space of its argument only; it
    writes a number of twelve digits as three groups of four separated by
    one space, gives back any other value as it is, and formatting its
    result again changes nothing. *)
Theorem formatUid_groups (value : string) :
  strip_ws (formatUid value) = strip_ws value
  /\ (all_chars is_digit (strip_ws value) = true ->
      String.length (strip_ws value) = 12%nat ->
      formatUid value
      = String.substring 0 4 (strip_ws value) +:+ " "
        +:+ String.substring 4 4 (strip_ws value) +:+ " "
        +:+ String.substring 8 4 (strip_ws value))
  /\ ((all_chars is_digit (strip_ws value)
       && (String.length (strip_ws value) =? 12)%nat)%bool = false ->
      formatUid value = value)
  /\ formatUid (formatUid value) = formatUid value.
Proof.
  assert (Hstrip : strip_ws (formatUid value) = strip_ws value).
  { rewrite formatUid_unfold. destruct value as [|c v]; [reflexivity|].
    cbn [truthy]. destruct (_ && _)%bool; [|reflexivity].
    rewrite strip_ws_group4. apply strip_ws_idem. }
  split; [exact Hstrip|]. split; [|split].
  - intros Hd Hlen. rewrite formatUid_unfold.
    destruct (truthy value) eqn:Hv.
    + rewrite Hd, Hlen. cbn [Nat.eqb andb]. apply group4_twelve; assumption.
    + apply truthy_false in Hv. subst value. discriminate.
  - intros H. rewrite formatUid_unfold, H.
    destruct value; reflexivity.
  - rewrite (formatUid_unfold (formatUid value)), Hstrip.
    destruct (truthy (formatUid value)) eqn:Hv;
      [|apply truthy_false in Hv; symmetry; exact Hv].
    destruct (_ && _)%bool eqn:Hc; [|reflexivity].
    rewrite (formatUid_unfold value), Hc.
    destruct (truthy value) eqn:Hv'; [reflexivity|].
    apply truthy_false in Hv'. subst value. discriminate.
Qed.

Lemma formatUid_groups_witness :
  formatUid "1234 56789012" = "1234 5678 9012"
  /\ formatUid "12345" = "12345".
Proof.
  split.
  - exact (proj1 (proj2 (formatUid_groups "1234 56789012")) eq_refl eq_refl).
  - exact (proj1 (proj2 (proj2 (formatUid_groups "12345"))) eq_refl).
Defined.

End DisplayProperties.

(** ** The record table *)

Section TableProperties.

Import Display.

Lemma omap_all_some {A B : Type} (f : A -> option B) (l : list A) :
  (forall x, x ∈ l -> is_Some (f x)) ->
  Forall2 (fun x y => f x = Some y) l (omap f l).
Proof.
  induction l as [|x l IH]; intros H; [constructor|].
  cbn [omap list_omap].
  destruct (H x ltac:(left)) as [y Hy]. rewrite Hy.
  constructor; [exact Hy|]. apply IH. intros z Hz. apply H. right. exact Hz.
Qed.

(** X7.  In every state that the identity-card scanner reaches, the table
    that [renderRecords] builds has one row of six cells for each key of the
    order sequence, in that order and from the record stored under the key,
    and the badge shows their number; without keys it has the single row
    "No scans yet." and the badge "0 records". *)
Theorem renderRecords_rows (env : Aadhaar.Env) (st : Aadhaar.State) :
  aadhaar_reachable env st ->
  (Aadhaar.order st = [] ->
   renderRecords st
   = {| recordsBody := [EmptyRow "No scans yet."];
        recordsBadge := "0 records" |})
  /\ (Aadhaar.order st <> [] ->
      Forall2 (fun key row =>
                 exists record,
                   Aadhaar.records st !! key = Some record
                   /\ row = record_row record)
              (Aadhaar.order st) (recordsBody (renderRecords st))
      /\ length (recordsBody (renderRecords st)) = length (Aadhaar.order st)
      /\ recordsBadge (renderRecords st)
         = pretty (length (Aadhaar.order st)) +:+ " records").
Proof.
  intros Hreach. pose proof (aadhaar_reachable_lockstep env st Hreach) as [_ Hdom].
  unfold renderRecords. split.
  - intros ->. reflexivity.
  - intros Hne. destruct (Aadhaar.order st) as [|k ks] eqn:Ho; [congruence|].
    cbn [recordsBody recordsBadge].
    assert (Hall : Forall2
                     (fun key row =>
                        record_row <$> Aadhaar.records st !! key = Some row)
                     (k :: ks)
                     (omap (fun key => record_row <$> Aadhaar.records st !! key)
                           (k :: ks))).
    { apply omap_all_some. intros key Hin.
      destruct (proj1 (Hdom key) Hin) as [r Hr]. rewrite Hr. eexists. reflexivity. }
    split; [|split; [|reflexivity]].
    + eapply Forall2_impl; [exact Hall|].
      intros key row H. cbn beta in H.
      destruct (Aadhaar.records st !! key) as [r|]; [|discriminate].
      exists r. split; [reflexivity|]. injection H as <-. reflexivity.
    + symmetry. exact (Forall2_length _ _ _ Hall).
Qed.

Lemma renderRecords_rows_witness :
  recordsBody
    (renderRecords
       (Aadhaar.handleScanResult (sample_browser true) Aadhaar.initial
          sample_card_xml 5000 "t1"))
  = [RecordRow ["1234 1234 1234"; "A"; "Male"; "-"; "-"; "t1"]]
  /\ renderRecords Aadhaar.initial
     = {| recordsBody := [EmptyRow "No scans yet."];
          recordsBadge := "0 records" |}.
Proof.
  split.
  - pose proof (proj2 (renderRecords_rows (sample_browser true)
                         (Aadhaar.handleScanResult (sample_browser true)
                            Aadhaar.initial sample_card_xml 5000 "t1")
                         (aadhaar_scan _ _ _ _ _ (aadhaar_start _)))
                      ltac:(discriminate)) as [_ [_ _]].
    vm_compute. reflexivity.
  - exact (proj1 (renderRecords_rows (sample_browser true) Aadhaar.initial
                    (aadhaar_start _)) eq_refl).
Defined.

End TableProperties.

(** ** De-duplication keys *)

Section KeyProperties.

Lemma contacts_key_truthy (r : Contacts.Record_) :
  truthy (Contacts.recordKey r)
  = (truthy (Contacts.username r) || truthy (Contacts.email r)
     || truthy (Contacts.mobile r))%bool.
Proof.
  unfold Contacts.recordKey.
  destruct (Contacts.email r), (Contacts.mobile r), (Contacts.username r),
    (Contacts.dob r); reflexivity.
Qed.

Lemma contacts_upsert_status (env : Contacts.Env) (st : Contacts.State)
    (r : Contacts.Record_) :
  truthy (Contacts.recordKey r) = true ->
  exists updated : bool,
    Contacts.status (Contacts.upsertRecord env st r)
    = (if updated then "Record updated." else "Record stored.", Contacts.Plain).
Proof.
  intros H. unfold Contacts.upsertRecord. rewrite H.
  cbn [negb Contacts.status Contacts.setStatus]. eexists. reflexivity.
Qed.

(** X8.  In the contact-card scanner a decoded record is usable exactly
    when it has a de-duplication key, so that the handler never ends on the
    message of [upsertRecord] for a record without key: after a scan result
    the status is the one before (a suppressed duplicate), "QR format not
    recognized.", "Record updated." or "Record stored.". *)
Theorem contacts_handler_status :
  (forall r, Contacts.isRecordUsable (Some r) = truthy (Contacts.recordKey r))
  /\ (forall env st value now,
         let st' := Contacts.handleScanResult env st value now in
         Contacts.status st' = Contacts.status st
         \/ Contacts.status st' = ("QR format not recognized.", Contacts.Error)
         \/ Contacts.status st' = ("Record updated.", Contacts.Plain)
         \/ Contacts.status st' = ("Record stored.", Contacts.Plain)).
Proof.
  split.
  - intros r. rewrite contacts_key_truthy. reflexivity.
  - intros env st value now st'. subst st'. unfold Contacts.handleScanResult.
    destruct (Contacts.is_duplicate st value now); [left; reflexivity|].
    destruct (Contacts.parseQrPayload env value) as [[r|] consulted];
      [|right; left; reflexivity].
    pose proof (contacts_key_truthy r) as Hk.
    change (truthy (Contacts.username r) || truthy (Contacts.email r)
            || truthy (Contacts.mobile r))%bool
      with (Contacts.isRecordUsable (Some r)) in Hk.
    destruct (Contacts.isRecordUsable (Some r)); cbn [negb];
      [|right; left; reflexivity].
    right; right.
    match goal with
    | |- context [Contacts.upsertRecord env ?s r] =>
        destruct (contacts_upsert_status env s r Hk) as [[|] ->]
    end; [left | right]; reflexivity.
Qed.

(** The record of the Secure format as the object that the code builds. *)
Lemma parseSecureQrBytes_shape (bytes : list Z) (r : gmap string string) :
  Aadhaar.parseSecureQrBytes bytes = Some r ->
  exists referenceId name gender dob address pin,
    truthy referenceId = true
    /\ r = Aadhaar.object
             [("referenceId", referenceId); ("name", name); ("gender", gender);
              ("dob", dob); ("address", address); ("pin", pin);
              ("source", "Secure QR")].
Proof.
  unfold Aadhaar.parseSecureQrBytes. cbv zeta.
  destruct (length (Aadhaar.scan_fields bytes) <? 16)%nat; [discriminate|].
  destruct (truthy (or_empty (_ !! 0%nat))); [|discriminate].
  destruct (truthy (or_empty (_ !! 1%nat))) eqn:Href; [|discriminate].
  cbn [negb orb]. intros H. injection H as <-.
  do 6 eexists. split; [exact Href | reflexivity].
Qed.

(** X9.  A record of the Secure format has no [uid] and a reference id that
    is not empty, which is its de-duplication key: upserting it never ends
    on "UID not found in QR data." and puts the reference id in front of
    the order sequence. *)
Theorem secure_record_key (bytes : list Z) (r : gmap string string) :
  Aadhaar.parseSecureQrBytes bytes = Some r ->
  r !! "uid" = None
  /\ r !! "source" = Some "Secure QR"
  /\ r !! "referenceId" = Some (Aadhaar.recordKey r)
  /\ truthy (Aadhaar.recordKey r) = true
  /\ forall st stamp,
       Aadhaar.status (Aadhaar.upsertRecord st r stamp)
       <> ("UID not found in QR data.", Aadhaar.Error)
       /\ head (Aadhaar.order (Aadhaar.upsertRecord st r stamp))
          = Some (Aadhaar.recordKey r).
Proof.
  intros H.
  destruct (parseSecureQrBytes_shape bytes r H)
    as (referenceId & name & gender & dob & address & pin & Href & ->).
  assert (Hkey : Aadhaar.recordKey
                   (Aadhaar.object
                      [("referenceId", referenceId); ("name", name);
                       ("gender", gender); ("dob", dob); ("address", address);
                       ("pin", pin); ("source", "Secure QR")]) = referenceId).
  { unfold Aadhaar.recordKey.
    change (or_else (or_else "" referenceId) "" = referenceId).
    destruct referenceId; reflexivity. }
  split; [reflexivity|]. split; [reflexivity|].
  rewrite Hkey. split; [reflexivity|]. split; [exact Href|].
  intros st stamp. unfold Aadhaar.upsertRecord. rewrite Hkey, Href.
  cbn [negb Aadhaar.status Aadhaar.order]. split; [|reflexivity].
  destruct (Aadhaar.records st !! referenceId); discriminate.
Qed.

Lemma secure_record_key_witness :
  exists r,
    Aadhaar.parseSecureQrBytes sample_secure_bytes = Some r
    /\ Aadhaar.recordKey r = "1234".
Proof.
  destruct (Aadhaar.parseSecureQrBytes sample_secure_bytes) as [r|] eqn:E;
    [|vm_compute in E; discriminate].
  exists r. split; [reflexivity|].
  pose proof (proj1 (proj2 (proj2 (secure_record_key sample_secure_bytes r E))))
    as Hid.
  vm_compute in E. injection E as <-. reflexivity.
Defined.

End KeyProperties.

(** ** Edge cases of the identity-card decoder *)

Section AadhaarDecoderProperties.

Import Aadhaar.

Lemma all_chars_trimStart (p : ascii -> bool) (s : string) :
  all_chars p s = true -> all_chars p (trimStart s) = true.
Proof.
  induction s as [|c s IH]; [reflexivity|].
  cbn. intros H. apply andb_prop in H. destruct H as [Hc Hs].
  destruct (is_ws c); [apply IH, Hs|]. cbn. rewrite Hc, Hs. reflexivity.
Qed.

Lemma all_chars_trimEnd (p : ascii -> bool) (s : string) :
  all_chars p s = true -> all_chars p (trimEnd s) = true.
Proof.
  induction s as [|c s IH]; [reflexivity|].
  cbn. intros H. apply andb_prop in H. destruct H as [Hc Hs].
  destruct (is_ws c && negb (truthy (trimEnd s)))%bool; [reflexivity|].
  cbn. rewrite Hc, (IH Hs). reflexivity.
Qed.

Lemma all_chars_trim (p : ascii -> bool) (s : string) :
  all_chars p s = true -> all_chars p (trim s) = true.
Proof. intros H. apply all_chars_trimEnd, all_chars_trimStart, H. Qed.

Lemma indexOf_absent (p : ascii -> bool) (c : ascii) (s : string) :
  p c = false -> all_chars p s = true -> indexOf s c = None.
Proof.
  intros Hc. induction s as [|d s IH]; [reflexivity|].
  cbn. intros H. apply andb_prop in H. destruct H as [Hd Hs].
  destruct (ascii_dec d c) as [->|_]; [congruence|].
  rewrite (IH Hs). reflexivity.
Qed.

Lemma strip_ws_trimStart (s : string) : strip_ws (trimStart s) = strip_ws s.
Proof.
  induction s as [|c s IH]; [reflexivity|].
  cbn [trimStart]. destruct (is_ws c) eqn:Hc; [|reflexivity].
  unfold strip_ws at 2. cbn [keep]. rewrite Hc. exact IH.
Qed.

Lemma strip_ws_trimEnd (s : string) : strip_ws (trimEnd s) = strip_ws s.
Proof.
  induction s as [|c s IH]; [reflexivity|].
  cbn [trimEnd]. destruct (is_ws c) eqn:Hc; cbn [andb].
  - destruct (truthy (trimEnd s)) eqn:Ht; cbn [negb].
    + unfold strip_ws in *. cbn [keep]. rewrite Hc. exact IH.
    + apply truthy_false in Ht. rewrite Ht in IH.
      unfold strip_ws in *. cbn [keep]. rewrite Hc. exact IH.
  - unfold strip_ws in *. cbn [keep]. rewrite Hc, IH. reflexivity.
Qed.

Lemma strip_ws_trim (s : string) : strip_ws (trim s) = strip_ws s.
Proof. unfold trim. rewrite strip_ws_trimEnd. apply strip_ws_trimStart. Qed.

(** X10.  A raw string made of fewer than 50 decimal digits, with or
    without white space, fits no grammar of the identity-card decoder: the
    markup grammar finds no opening delimiter and the binary grammar asks
    for 50 digits.  The handler reports it as "Not an Aadhaar QR format."
    and leaves the store as it is. *)
Theorem short_numeric_unrecognized (env : Env) (st : State) (value : string)
    (now : Z) (stamp : string) :
  all_chars (fun c => (is_digit c || is_ws c)%bool) value = true ->
  (String.length (strip_ws value) < 50)%nat ->
  parseXmlPayload env (trim value) = None
  /\ parseSecureQr env (trim value) = None
  /\ fst (parseAadhaarPayload env value) = None
  /\ (is_duplicate st value now = false ->
      status (handleScanResult env st value now stamp)
      = ("Not an Aadhaar QR format.", Error)
      /\ records (handleScanResult env st value now stamp) = records st
      /\ order (handleScanResult env st value now stamp) = order st).
Proof.
  intros Hchars Hlen.
  assert (Hnum : looks_numeric (strip_ws value) = false).
  { unfold looks_numeric.
    replace (50 <=? String.length (strip_ws value))%nat with false
      by (symmetry; apply Nat.leb_gt; exact Hlen).
    apply andb_false_r. }
  assert (Hxml : parseXmlPayload env (trim value) = None).
  { unfold parseXmlPayload, extractXml.
    rewrite (indexOf_absent (fun c => (is_digit c || is_ws c)%bool) "<" (trim value));
      [reflexivity | reflexivity | apply all_chars_trim, Hchars]. }
  assert (Hsec : parseSecureQr env (trim value) = None).
  { unfold parseSecureQr. cbv zeta. rewrite strip_ws_trim, Hnum. reflexivity. }
  assert (Hparse : fst (parseAadhaarPayload env value) = None).
  { unfold parseAadhaarPayload. cbv zeta.
    destruct (truthy (trim value)); cbn [negb]; [|reflexivity].
    rewrite Hxml, Hsec. reflexivity. }
  split; [exact Hxml|]. split; [exact Hsec|]. split; [exact Hparse|].
  intros Hdup. unfold handleScanResult. rewrite Hdup, Hnum. cbn [andb].
  destruct (parseAadhaarPayload env value) as [record consulted].
  cbn [fst] in Hparse. subst record. repeat split.
Qed.

Lemma short_numeric_unrecognized_witness :
  status
    (handleScanResult (sample_browser true) initial
       "1234567890 1234567890 1234567890 1234567890" 5000 "t1")
  = ("Not an Aadhaar QR format.", Error).
Proof.
  apply (proj2 (proj2 (proj2
           (short_numeric_unrecognized (sample_browser true) initial
              "1234567890 1234567890 1234567890 1234567890" 5000 "t1"
              eq_refl ltac:(vm_compute; lia))))).
  reflexivity.
Defined.

Lemma closed_field_unique (f f' x x' : list Z) :
  (f ++ 255 :: x)%list = (f' ++ 255 :: x')%list ->
  255 ∉ f -> 255 ∉ f' -> f = f' /\ x = x'.
Proof.
  revert f'. induction f as [|b f IH]; intros [|b' f'] H Hf Hf'.
  - injection H as ->. split; reflexivity.
  - injection H as <- _. exfalso. apply Hf'. left.
  - injection H as -> _. exfalso. apply Hf. left.
  - injection H as -> H.
    destruct (IH f' H) as [-> ->].
    + intros Hin. apply Hf. right. exact Hin.
    + intros Hin. apply Hf'. right. exact Hin.
    + split; reflexivity.
Qed.

(** A byte sequence has one splitting only. *)
Lemma split_unique (n : nat) :
  forall fs fs' rest rest',
    (concat (List.map closed fs) ++ rest)%list
    = (concat (List.map closed fs') ++ rest')%list ->
    Forall (fun f => 255 ∉ f) fs -> Forall (fun f => 255 ∉ f) fs' ->
    (length fs <= n)%nat -> (length fs' <= n)%nat ->
    ((length fs < n)%nat -> 255 ∉ rest) ->
    ((length fs' < n)%nat -> 255 ∉ rest') ->
    fs = fs'.
Proof.
  induction n as [|n IH]; intros fs fs' rest rest' Heq Hf Hf' Hl Hl' Hr Hr'.
  - destruct fs; [|cbn in Hl; lia]. destruct fs'; [reflexivity | cbn in Hl'; lia].
  - destruct fs as [|f fs], fs' as [|f' fs']; [reflexivity| | |].
    + exfalso. cbn in Heq. apply (Hr ltac:(cbn; lia)). rewrite Heq.
      unfold closed. rewrite <- !app_assoc. apply elem_of_app. right. left.
    + exfalso. cbn in Heq. apply (Hr' ltac:(cbn; lia)). rewrite <- Heq.
      unfold closed. rewrite <- !app_assoc. apply elem_of_app. right. left.
    + cbn [List.map concat] in Heq. unfold closed at 1 3 in Heq.
      rewrite <- !app_assoc in Heq. cbn [app] in Heq.
      apply Forall_cons in Hf, Hf'. destruct Hf as [Hf0 Hf], Hf' as [Hf0' Hf'].
      destruct (closed_field_unique _ _ _ _ Heq Hf0 Hf0') as [-> Htail].
      f_equal. cbn in Hl, Hl'.
      apply (IH fs fs' rest rest' Htail Hf Hf'); try lia.
      * intros H. apply Hr. cbn. lia.
      * intros H. apply Hr'. cbn. lia.
Qed.

(** X11.  Once a byte sequence holds 16 delimiters, what follows the
    sixteenth is not read: any bytes appended give the same fields and the
    same record. *)
Theorem trailing_bytes_ignored (bytes extra : list Z) :
  (16 <= count_occ Z.eq_dec bytes 255%Z)%nat ->
  scan_fields (bytes ++ extra) = scan_fields bytes
  /\ parseSecureQrBytes (bytes ++ extra) = parseSecureQrBytes bytes.
Proof.
  intros Hcount.
  assert (Hfields : scan_fields (bytes ++ extra) = scan_fields bytes).
  { pose proof (scan_fields_split bytes) as H1.
    pose proof (split_result_length _ _ H1) as Hlen.
    pose proof (scan_fields_split (bytes ++ extra)) as H2.
    destruct H1 as (rest & Hb & Hf & Hl & _).
    destruct H2 as (rest' & Hb' & Hf' & Hl' & Hr').
    apply (split_unique 16 _ _ rest' (rest ++ extra)%list); try assumption.
    - rewrite <- Hb'. rewrite Hb at 1. rewrite app_assoc. reflexivity.
    - intros H. lia. }
  split; [exact Hfields|].
  unfold parseSecureQrBytes. rewrite Hfields. reflexivity.
Qed.

Lemma trailing_bytes_ignored_witness :
  parseSecureQrBytes (sample_secure_bytes ++ [1; 255; 2; 3])
  = parseSecureQrBytes sample_secure_bytes.
Proof.
  apply (proj2 (trailing_bytes_ignored sample_secure_bytes [1; 255; 2; 3]
                  ltac:(vm_compute; lia))).
Defined.

Lemma bigIntToBytes_loop_length (value : Z) :
  0 <= value -> 0 < value ->
  let n := Z.of_nat (length (bigIntToBytes_loop value [])) in
  1 <= n /\ 256 ^ (n - 1) <= value < 256 ^ n.
Proof.
  intros Hnonneg. pattern value. apply Zlt_0_ind; [|exact Hnonneg].
  clear value Hnonneg. intros value IH _ Hpos. cbv zeta.
  rewrite bigIntToBytes_loop_step by lia.
  pose proof (shiftr8_lt value Hpos) as Hs.
  rewrite length_app. cbn [length].
  assert (Hdiv : Z.shiftr value 8 = value / 256)
    by (rewrite Z.shiftr_div_pow2 by lia; reflexivity).
  pose proof (Z.div_mod value 256 ltac:(lia)) as Hdm.
  pose proof (Z.mod_pos_bound value 256 ltac:(lia)) as Hmod.
  destruct (Z.eq_dec (Z.shiftr value 8) 0) as [Hz|Hnz].
  - rewrite Hz.
    assert (Hnil : bigIntToBytes_loop 0 [] = []) by reflexivity.
    rewrite Hnil. cbn. rewrite Hz in Hdiv. lia.
  - specialize (IH (Z.shiftr value 8) ltac:(lia) ltac:(lia)).
    cbv zeta in IH.
    set (m := Z.of_nat (length (bigIntToBytes_loop (Z.shiftr value 8) []))) in *.
    cbv zeta.
    replace (Z.of_nat (length (bigIntToBytes_loop (Z.shiftr value 8) []) + 1))
      with (m + 1) by (subst m; lia).
    destruct IH as (Hm & Hlo & Hhi).
    split; [lia|].
    replace (m + 1 - 1) with (Z.succ (m - 1)) by lia.
    replace (m + 1) with (Z.succ m) by lia.
    rewrite !Z.pow_succ_r by lia. rewrite Hdiv in Hlo, Hhi. lia.
Qed.

(** X12.  The byte sequence of a positive integer is as short as can be:
    with [n] bytes the integer lies between 256^(n-1) and 256^n. *)
Theorem bigIntToBytes_length (value : Z) :
  0 < value ->
  let n := Z.of_nat (length (bigIntToBytes value)) in
  1 <= n /\ 256 ^ (n - 1) <= value < 256 ^ n.
Proof.
  intros Hpos. unfold bigIntToBytes.
  destruct (Z.eqb_spec value 0) as [->|_]; [lia|].
  apply bigIntToBytes_loop_length; lia.
Qed.

Lemma bigIntToBytes_length_witness :
  256 ^ (Z.of_nat (length (bigIntToBytes 65536)) - 1) <= 65536.
Proof.
  exact (proj1 (proj2 (bigIntToBytes_length 65536 ltac:(lia)))).
Defined.

Lemma trimEnd_keeps_head (c : ascii) (s : string) :
  is_ws c = false -> trimEnd (String c s) = String c (trimEnd s).
Proof. intros H. cbn [trimEnd]. rewrite H. reflexivity. Qed.

Lemma indexOf_slice (pre rest : string) (c : ascii) :
  includes pre c = false ->
  match indexOf (pre +:+ String c rest) c with
  | Some start => slice_from start (pre +:+ String c rest) = String c rest
  | None => False
  end.
Proof.
  induction pre as [|d pre IH]; intros H.
  - change ("" +:+ String c rest) with (String c rest). cbn [indexOf].
    destruct (ascii_dec c c); [reflexivity | congruence].
  - cbn [includes] in H.
    change (String d pre +:+ String c rest)
      with (String d (pre +:+ String c rest)).
    cbn [indexOf]. destruct (ascii_dec d c); [discriminate|].
    specialize (IH H).
    destruct (indexOf (pre +:+ String c rest) c);
      cbn [option_map slice_from]; exact IH.
Qed.

Lemma indexOf_includes (s : string) (c : ascii) :
  includes s c = false -> indexOf s c = None.
Proof.
  induction s as [|d s IH]; [reflexivity|].
  cbn [includes indexOf]. destruct (ascii_dec d c); [discriminate|].
  intros H. rewrite (IH H). reflexivity.
Qed.

(** X13.  The markup grammar reads a raw string from its first opening
    delimiter on: what stands before it is dropped, and a raw string
    without one is refused before the parser is called, whatever the
    parser would say. *)
Theorem extractXml_from_delimiter :
  (forall raw,
      includes raw "<" = false ->
      extractXml raw = None /\ forall env, parseXmlPayload env raw = None)
  /\ (forall before rest,
         includes before "<" = false ->
         extractXml (before +:+ String "<" rest) = Some (String "<" (trimEnd rest))
         /\ forall env,
              parseXmlPayload env (before +:+ String "<" rest)
              = parseXmlPayload env (String "<" rest)).
Proof.
  split.
  - intros raw H. unfold parseXmlPayload, extractXml.
    rewrite (indexOf_includes raw "<" H). split; reflexivity.
  - intros before rest H.
    assert (He : forall pre,
               includes pre "<" = false ->
               extractXml (pre +:+ String "<" rest)
               = Some (String "<" (trimEnd rest))).
    { intros pre Hpre. unfold extractXml.
      pose proof (indexOf_slice pre rest "<" Hpre) as Hs.
      destruct (indexOf (pre +:+ String "<" rest) "<") as [start|]; [|contradiction].
      rewrite Hs. unfold trim. cbn [trimStart].
      change (is_ws "<") with false. cbv iota.
      rewrite trimEnd_keeps_head by reflexivity. reflexivity. }
    split; [apply He, H|].
    intros env. unfold parseXmlPayload.
    rewrite (He before H).
    pose proof (He "" eq_refl) as He0.
    change ("" +:+ String "<" rest) with (String "<" rest) in He0.
    rewrite He0. reflexivity.
Qed.

Lemma extractXml_from_delimiter_witness :
  extractXml ("QR: " +:+ String "<" "OKY r='7'/> ") = Some "<OKY r='7'/>"
  /\ parseXmlPayload (sample_browser true) "12345" = None.
Proof.
  split.
  - exact (proj1 (proj2 extractXml_from_delimiter "QR: " "OKY r='7'/> " eq_refl)).
  - exact (proj2 (proj1 extractXml_from_delimiter "12345" eq_refl)
             (sample_browser true)).
Defined.

End AadhaarDecoderProperties.

(** ** The delimited grammar of the contact-card decoder *)

Section DelimitedProperties.

Import Contacts.

Lemma trimStart_app (u x : string) :
  all_chars is_ws u = false -> trimStart (u +:+ x) = trimStart u +:+ x.
Proof.
  induction u as [|c u IH]; [discriminate|].
  change (String c u +:+ x) with (String c (u +:+ x)).
  cbn [trimStart all_chars]. destruct (is_ws c); [|reflexivity].
  cbn [andb]. exact IH.
Qed.

Lemma truthy_app_r (x t : string) : truthy t = true -> truthy (x +:+ t) = true.
Proof. destruct x; [trivial | reflexivity]. Qed.

Lemma trimEnd_app (x e : string) :
  all_chars is_ws e = false -> trimEnd (x +:+ e) = x +:+ trimEnd e.
Proof.
  intros He. induction x as [|c x IH]; [reflexivity|].
  change (String c x +:+ e) with (String c (x +:+ e)).
  cbn [trimEnd]. rewrite IH.
  rewrite (truthy_app_r x (trimEnd e)).
  - rewrite andb_false_r. reflexivity.
  - rewrite trimEnd_truthy, He. reflexivity.
Qed.

Lemma trimStart_trimEnd (s : string) :
  trimStart (trimEnd s) = trimEnd (trimStart s).
Proof.
  induction s as [|c s IH]; [reflexivity|].
  cbn [trimStart trimEnd]. destruct (is_ws c) eqn:Hc; cbn [andb].
  - destruct (truthy (trimEnd s)) eqn:Ht; cbn [negb].
    + cbn [trimStart]. rewrite Hc. exact IH.
    + apply truthy_false in Ht. rewrite Ht in IH. exact IH.
  - cbn [trimStart trimEnd]. rewrite Hc. reflexivity.
Qed.

Lemma trim_trimStart (s : string) : trim (trimStart s) = trim s.
Proof. unfold trim. rewrite trimStart_idem. reflexivity. Qed.

Lemma trim_trimEnd (s : string) : trim (trimEnd s) = trim s.
Proof. unfold trim. rewrite trimStart_trimEnd. apply trimEnd_idem. Qed.

Lemma split_on_cons (d : ascii) (s : string) :
  exists p ps, split_on d s = p :: ps.
Proof.
  induction s as [|x s (p & ps & IH)]; [eexists _, _; reflexivity|].
  cbn [split_on]. rewrite IH. destruct (ascii_dec x d); eexists _, _; reflexivity.
Qed.

Lemma split_on_single (d : ascii) (f : string) :
  includes f d = false -> split_on d f = [f].
Proof.
  induction f as [|x f IH]; [reflexivity|].
  cbn [includes split_on]. destruct (ascii_dec x d); [discriminate|].
  intros H. rewrite (IH H). reflexivity.
Qed.

Lemma split_on_field (d : ascii) (f rest : string) :
  includes f d = false ->
  split_on d (f +:+ String d rest) = f :: split_on d rest.
Proof.
  induction f as [|x f IH]; intros H.
  - change ("" +:+ String d rest) with (String d rest). cbn [split_on].
    destruct (split_on_cons d rest) as (p & ps & ->).
    destruct (ascii_dec d d); [reflexivity | congruence].
  - change (String x f +:+ String d rest) with (String x (f +:+ String d rest)).
    cbn [includes] in H. cbn [split_on].
    destruct (ascii_dec x d); [discriminate|]. rewrite (IH H). reflexivity.
Qed.

Lemma includes_trimStart (d : ascii) (s : string) :
  includes s d = false -> includes (trimStart s) d = false.
Proof.
  induction s as [|x s IH]; [reflexivity|].
  cbn [includes trimStart]. destruct (ascii_dec x d); [discriminate|].
  intros H. destruct (is_ws x); [apply IH, H|].
  cbn [includes]. destruct (ascii_dec x d); [contradiction | exact H].
Qed.

Lemma includes_trimEnd (d : ascii) (s : string) :
  includes s d = false -> includes (trimEnd s) d = false.
Proof.
  induction s as [|x s IH]; [reflexivity|].
  cbn [includes trimEnd]. destruct (ascii_dec x d); [discriminate|].
  intros H. destruct (is_ws x && negb (truthy (trimEnd s)))%bool; [reflexivity|].
  cbn [includes]. destruct (ascii_dec x d); [contradiction | apply IH, H].
Qed.

Lemma includes_app_char (d : ascii) (x y : string) :
  includes (x +:+ String d y) d = true.
Proof.
  induction x as [|c x IH].
  - change ("" +:+ String d y) with (String d y). cbn.
    destruct (ascii_dec d d); [reflexivity | congruence].
  - change (String c x +:+ String d y) with (String c (x +:+ String d y)).
    cbn [includes]. destruct (ascii_dec c d); [reflexivity | exact IH].
Qed.

Lemma truthy_trim (f : string) :
  all_chars is_ws f = false -> truthy (trim f) = true.
Proof.
  intros H. destruct (trim f) eqn:E; [|reflexivity].
  apply trim_empty_iff in E. congruence.
Qed.

Lemma cleanText_trim (f : string) :
  cleanText (Some (trim f)) = cleanText (Some f).
Proof.
  unfold cleanText. cbn [or_empty].
  rewrite <- trim_collapse. apply trim_idem.
Qed.

Lemma normalizeGender_trim (f : string) :
  normalizeGender (Some (trim f)) = normalizeGender (Some f).
Proof. unfold normalizeGender. cbn [or_empty]. rewrite trim_idem. reflexivity. Qed.

Lemma phone_char_not_ws (c : ascii) :
  is_ws c = true ->
  (is_digit c || if ascii_dec c "+" then true else false)%bool = false.
Proof.
  destruct c as [[] [] [] [] [] [] [] []]; vm_compute; congruence.
Qed.

Lemma keep_trimStart (p : ascii -> bool) (s : string) :
  (forall c, is_ws c = true -> p c = false) ->
  keep p (trimStart s) = keep p s.
Proof.
  intros Hp. induction s as [|c s IH]; [reflexivity|].
  cbn [trimStart]. destruct (is_ws c) eqn:Hc; [|reflexivity].
  cbn [keep]. rewrite (Hp c Hc). exact IH.
Qed.

Lemma keep_trimEnd (p : ascii -> bool) (s : string) :
  (forall c, is_ws c = true -> p c = false) ->
  keep p (trimEnd s) = keep p s.
Proof.
  intros Hp. induction s as [|c s IH]; [reflexivity|].
  cbn [trimEnd]. destruct (is_ws c) eqn:Hc; cbn [andb].
  - destruct (truthy (trimEnd s)) eqn:Ht; cbn [negb keep]; rewrite (Hp c Hc).
    + exact IH.
    + apply truthy_false in Ht. rewrite Ht in IH. exact IH.
  - cbn [keep]. rewrite IH. reflexivity.
Qed.

Lemma cleanPhone_trim (f : string) :
  all_chars is_ws f = false ->
  cleanPhone (Some (trim f)) = cleanPhone (Some f).
Proof.
  intros H. unfold cleanPhone. rewrite (truthy_trim f H).
  destruct f as [|c f]; [discriminate|]. cbn [truthy negb].
  unfold trim. rewrite keep_trimEnd, keep_trimStart by exact phone_char_not_ws.
  reflexivity.
Qed.

Lemma cleanEmail_trim (f : string) :
  cleanEmail (Some (trim f)) = cleanEmail (Some f).
Proof. unfold cleanEmail. cbn [or_empty]. rewrite trim_idem. reflexivity. Qed.

Lemma app_field_assoc (x y z : string) (c : ascii) :
  (x +:+ String c y) +:+ z = x +:+ String c (y +:+ z).
Proof.
  induction x as [|d x IH]; [reflexivity|].
  change ((String d (x +:+ String c y)) +:+ z
          = String d (x +:+ String c (y +:+ z))).
  change (String d ((x +:+ String c y) +:+ z)
          = String d (x +:+ String c (y +:+ z))).
  rewrite IH. reflexivity.
Qed.

(** X14.  Six fields that are not blank and hold no vertical bar, joined by
    vertical bars, are decoded by the delimited grammar into the record of
    these fields, in the order user name, date of birth, age, gender, mobile
    number and e-mail address, each cleaned by the helper of its field;
    white space around the payload and around the fields does not count. *)
Theorem delimited_six_fields (u b a g m e : string) :
  Forall (fun f => includes f "|" = false /\ all_chars is_ws f = false)
         [u; b; a; g; m; e] ->
  parseDelimitedPayload
    (u +:+ String "|" (b +:+ String "|" (a +:+ String "|" (g +:+ String "|"
       (m +:+ String "|" e)))))
  = Some {| username := cleanText (Some u); dob := cleanText (Some b);
            age := cleanText (Some a); gender := normalizeGender (Some g);
            mobile := cleanPhone (Some m); email := cleanEmail (Some e) |}.
Proof.
  intros H.
  repeat (apply Forall_cons in H; destruct H as [[? ?] H]).
  match goal with
  | Hu : includes u _ = false, Hub : all_chars is_ws u = false,
    Hb : includes b _ = false, Hbb : all_chars is_ws b = false,
    Ha : includes a _ = false, Hab : all_chars is_ws a = false,
    Hg : includes g _ = false, Hgb : all_chars is_ws g = false,
    Hm : includes m _ = false, Hmb : all_chars is_ws m = false,
    He : includes e _ = false, Heb : all_chars is_ws e = false |- _ =>
      unfold parseDelimitedPayload; cbv zeta;
      assert (Htrim :
        trim (u +:+ String "|" (b +:+ String "|" (a +:+ String "|"
                (g +:+ String "|" (m +:+ String "|" e)))))
        = trimStart u +:+ String "|" (b +:+ String "|" (a +:+ String "|"
            (g +:+ String "|" (m +:+ String "|" (trimEnd e))))))
  end.
  { unfold trim. rewrite trimStart_app by assumption.
    pose proof (trimEnd_app
                  (trimStart u +:+ String "|" (b +:+ String "|" (a +:+ String "|"
                     (g +:+ String "|" (m +:+ String "|" "")))))
                  e ltac:(assumption)) as Hend.
    assert (Hassoc : forall tail,
               (trimStart u +:+ String "|" (b +:+ String "|" (a +:+ String "|"
                  (g +:+ String "|" (m +:+ String "|" ""))))) +:+ tail
               = trimStart u +:+ String "|" (b +:+ String "|" (a +:+ String "|"
                   (g +:+ String "|" (m +:+ String "|" tail))))).
    { intros tail. rewrite !app_field_assoc. reflexivity. }
    rewrite !Hassoc in Hend. exact Hend. }
  rewrite Htrim.
  rewrite truthy_app_r by reflexivity. cbn [negb].
  rewrite includes_app_char.
  rewrite split_on_field by (apply includes_trimStart; assumption).
  rewrite !split_on_field by assumption.
  rewrite split_on_single by (apply includes_trimEnd; assumption).
  cbn [List.map].
  rewrite trim_trimStart, trim_trimEnd.
  cbn [List.filter]. rewrite !truthy_trim by assumption.
  rewrite !cleanText_trim, normalizeGender_trim, cleanEmail_trim.
  rewrite cleanPhone_trim by assumption. reflexivity.
Qed.

Lemma delimited_six_fields_witness :
  parseDelimitedPayload " Jane  Doe | 1990-01-01|34| f |999 000-1111|Jane@X.com "
  = Some {| username := "Jane Doe"; dob := "1990-01-01"; age := "34";
            gender := "Female"; mobile := "9990001111"; email := "jane@x.com" |}.
Proof.
  apply (delimited_six_fields " Jane  Doe " " 1990-01-01" "34" " f "
           "999 000-1111" "Jane@X.com ").
  repeat constructor.
Defined.

Lemma length_split_on (d : ascii) (s : string) :
  length (split_on d s) = S (occurrences d s).
Proof.
  unfold occurrences. induction s as [|x s IH]; [reflexivity|].
  cbn [split_on keep]. destruct (split_on_cons d s) as (p & ps & Hs).
  rewrite Hs in *. destruct (ascii_dec x d); cbn [length String.length] in *; lia.
Qed.

Lemma length_filter_le {A : Type} (f : A -> bool) (l : list A) :
  (length (List.filter f l) <= length l)%nat.
Proof.
  induction l as [|x l IH]; [reflexivity|].
  cbn. destruct (f x); cbn; lia.
Qed.

(** X15.  The delimited grammar needs six fields: a payload in which the
    delimiter it chooses (the vertical bar if there is one, else the comma,
    else the semicolon) occurs fewer than five times is refused, as is a
    payload without any of the three. *)
Theorem delimited_needs_six (raw : string) :
  (occurrences (chosen_delimiter (trim raw)) (trim raw) < 5)%nat ->
  parseDelimitedPayload raw = None.
Proof.
  intros Hocc. unfold parseDelimitedPayload. cbv zeta.
  destruct (truthy (trim raw)); cbn [negb]; [|reflexivity].
  assert (Hparts : forall d,
             d = chosen_delimiter (trim raw) ->
             match List.filter truthy (List.map trim (split_on d (trim raw))) with
             | u :: b :: a :: g :: m :: e :: _ =>
                 Some {| username := cleanText (Some u); dob := cleanText (Some b);
                         age := cleanText (Some a);
                         gender := normalizeGender (Some g);
                         mobile := cleanPhone (Some m);
                         email := cleanEmail (Some e) |}
             | _ => None
             end = None).
  { intros d ->.
    pose proof (length_filter_le truthy
                  (List.map trim (split_on (chosen_delimiter (trim raw)) (trim raw))))
      as Hlen.
    rewrite List.length_map, length_split_on in Hlen.
    destruct (List.filter truthy _) as [|u [|b [|a [|g [|m [|e rest]]]]]];
      try reflexivity.
    cbn [length] in Hlen. lia. }
  unfold chosen_delimiter in Hparts.
  destruct (includes (trim raw) "|"); [apply Hparts; reflexivity|].
  destruct (includes (trim raw) ","); [apply Hparts; reflexivity|].
  destruct (includes (trim raw) ";"); [apply Hparts; reflexivity | reflexivity].
Qed.

Lemma delimited_needs_six_witness :
  parseDelimitedPayload "Jane|1990-01-01|34|F|9990001111" = None.
Proof.
  apply delimited_needs_six. vm_compute. lia.
Defined.

End DelimitedProperties.

(** ** The JSON grammar of the contact-card decoder *)

Section JsonProperties.

Import Contacts.

Lemma text_arg_raises (v : Json) :
  js_truthy (Some v) = true -> (forall s, v <> JString s) ->
  text_arg (Some v) = None.
Proof.
  intros Ht Hs. unfold text_arg. rewrite Ht.
  destruct v; try reflexivity. exfalso. exact (Hs _ eq_refl).
Qed.

(** X16.  What the JSON grammar makes of values that are not objects with
    string fields: a parsed value that is neither an object nor an array is
    refused; an object whose [age] is a truthy value other than a string
    (a number that is not zero, for one) is refused, because the cleaning
    helper raises; and an array is accepted with all six fields empty, so
    that the handler reports "QR format not recognized." with the JSON
    grammar alone consulted. *)
Theorem json_edge_cases (env : Env) :
  (forall raw parsed,
      JSON_parse env raw = Some parsed ->
      (forall props, parsed <> JObject props) ->
      (forall items, parsed <> JArray items) ->
      parseJsonPayload env raw = None)
  /\ (forall raw props v,
         JSON_parse env raw = Some (JObject props) ->
         props !! "age" = Some v ->
         js_truthy (Some v) = true ->
         (forall s, v <> JString s) ->
         parseJsonPayload env raw = None)
  /\ (forall raw items,
         JSON_parse env raw = Some (JArray items) ->
         parseJsonPayload env raw
         = Some {| username := ""; dob := ""; age := ""; gender := "";
                   mobile := ""; email := "" |})
  /\ (forall st value now items,
         is_duplicate st value now = false ->
         truthy (trim value) = true ->
         JSON_parse env (trim value) = Some (JArray items) ->
         let st' := handleScanResult env st value now in
         status st' = ("QR format not recognized.", Error)
         /\ decodeLog st' = (decodeLog st ++ [(JsonGrammar, value)])%list
         /\ records st' = records st
         /\ order st' = order st).
Proof.
  assert (Harray : forall raw items,
             JSON_parse env raw = Some (JArray items) ->
             parseJsonPayload env raw
             = Some {| username := ""; dob := ""; age := ""; gender := "";
                       mobile := ""; email := "" |}).
  { intros raw items H. unfold parseJsonPayload. rewrite H. reflexivity. }
  split; [|split; [|split; [exact Harray|]]].
  - intros raw parsed H Hobj Harr. unfold parseJsonPayload. rewrite H.
    destruct parsed; try reflexivity.
    + exfalso. exact (Harr _ eq_refl).
    + exfalso. exact (Hobj _ eq_refl).
  - intros raw props v H Hage Ht Hs. unfold parseJsonPayload. rewrite H.
    cbn [prop]. rewrite Hage, (text_arg_raises v Ht Hs).
    do 2 (match goal with
          | |- ?m ≫= _ = None =>
              destruct m as [?|]; cbn [mbind option_bind]; [|reflexivity]
          end).
    reflexivity.
  - intros st value now items Hdup Ht Hjson st'. subst st'.
    unfold handleScanResult. rewrite Hdup.
    unfold parseQrPayload. cbv zeta. rewrite Ht. cbn [negb].
    rewrite (Harray _ _ Hjson). repeat split.
Qed.

(** An environment in which [JSON.parse] gives an object with a numeric age
    for the text of such an object and an array for the text of an array. *)
Lemma json_edge_cases_witness :
  let quote := String (ascii_of_N 34) EmptyString in
  let text := "{" +:+ quote +:+ "age" +:+ quote +:+ ":34}" in
  let env :=
    {| JSON_parse := fun raw =>
         if String.eqb raw text
         then Some (JObject {["age" := JNumber true]})
         else if String.eqb raw "[1,2,3,4,5,6]"
              then Some (JArray [JNumber true; JNumber true; JNumber true;
                                 JNumber true; JNumber true; JNumber true])
              else None;
       kv_matches := fun _ => [];
       setItem_ok := fun _ => true |} in
  parseJsonPayload env text = None
  /\ status (handleScanResult env (initial None) "[1,2,3,4,5,6]" 5000)
     = ("QR format not recognized.", Error).
Proof.
  intros quote text env. split.
  - apply (proj1 (proj2 (json_edge_cases env)) text
             {["age" := JNumber true]} (JNumber true));
      [reflexivity | reflexivity | reflexivity|].
    intros s. discriminate.
  - apply (proj2 (proj2 (proj2 (json_edge_cases env))) (initial None)
             "[1,2,3,4,5,6]" 5000
             [JNumber true; JNumber true; JNumber true;
              JNumber true; JNumber true; JNumber true]); reflexivity.
Defined.

End JsonProperties.

(** ** Upserting twice, and the records that an upsert leaves alone *)

Section UpsertProperties.

Lemma contact_ext (x y : Contacts.Record_) :
  Forall (fun f : Contacts.Record_ -> string => f x = f y) contact_fields ->
  x = y.
Proof.
  intros H. unfold contact_fields in H.
  repeat (apply Forall_cons in H; destruct H as [? H]).
  destruct x, y. cbn in *. congruence.
Qed.

Lemma or_else_absorb (a b : string) : or_else a (or_else a b) = or_else a b.
Proof. destruct a; reflexivity. Qed.

Lemma filter_twice {A : Type} (f : A -> bool) (l : list A) :
  List.filter f (List.filter f l) = List.filter f l.
Proof.
  induction l as [|x l IH]; [reflexivity|].
  cbn. destruct (f x) eqn:Hx; [|exact IH]. cbn. rewrite Hx, IH. reflexivity.
Qed.

Lemma without_front (key : string) (order : list string) :
  List.filter (fun item => negb (String.eqb item key))
    (key :: List.filter (fun item => negb (String.eqb item key)) order)
  = List.filter (fun item => negb (String.eqb item key)) order.
Proof. cbn. rewrite String.eqb_refl. cbn. apply filter_twice. Qed.

(** X17.  Upserting the same record twice in a row is as good as once: in
    the contact-card scanner the second upsert changes neither the records
    nor the order sequence; in [src/app.js] it leaves the store as one
    upsert with the second time stamp would, so that only [lastSeen] can
    differ. *)
Theorem upsert_twice :
  (forall env st r,
      truthy (Contacts.recordKey r) = true ->
      let st1 := Contacts.upsertRecord env st r in
      Contacts.records (Contacts.upsertRecord env st1 r) = Contacts.records st1
      /\ Contacts.order (Contacts.upsertRecord env st1 r) = Contacts.order st1)
  /\ (forall st r stamp1 stamp2,
         truthy (Aadhaar.recordKey r) = true ->
         let st1 := Aadhaar.upsertRecord st r stamp1 in
         Aadhaar.records (Aadhaar.upsertRecord st1 r stamp2)
         = Aadhaar.records (Aadhaar.upsertRecord st r stamp2)
         /\ Aadhaar.order (Aadhaar.upsertRecord st1 r stamp2)
            = Aadhaar.order st1).
Proof.
  split.
  - intros env st r Hk st1.
    destruct (contacts_upsert_store env st r Hk) as [(n1 & Hr1 & Hf1) Ho1].
    destruct (contacts_upsert_store env st1 r Hk) as [(n2 & Hr2 & Hf2) Ho2].
    fold st1 in Hr1, Ho1. rewrite Hr2, Ho2, Ho1. split; [|].
    + rewrite Hr1 in Hf2 |- *. rewrite lookup_insert_eq in Hf2.
      assert (n2 = n1) as ->.
      { apply contact_ext. unfold contact_fields in *.
        repeat (apply Forall_cons in Hf1; destruct Hf1 as [? Hf1]).
        repeat (apply Forall_cons in Hf2; destruct Hf2 as [? Hf2]).
        repeat constructor; cbn beta in *;
          match goal with
          | H2 : ?f n2 = _, H1 : ?f n1 = _ |- ?f n2 = ?f n1 =>
              rewrite H2, H1; apply or_else_absorb
          end. }
      apply insert_insert_eq.
    + rewrite without_front. reflexivity.
  - intros st r stamp1 stamp2 Hk st1.
    destruct (aadhaar_upsert_store st r stamp1 Hk) as [Hr1 Ho1].
    destruct (aadhaar_upsert_store st1 r stamp2 Hk) as [Hr2 Ho2].
    destruct (aadhaar_upsert_store st r stamp2 Hk) as [Hr3 _].
    fold st1 in Hr1, Ho1. rewrite Hr2, Ho2, Hr3, Ho1. split.
    + rewrite Hr1, lookup_insert_eq, insert_insert_eq. cbn [default id].
      f_equal. apply map_eq. intros field.
      destruct (decide (field = "lastSeen")) as [->|Hne].
      * rewrite !lookup_insert_eq. reflexivity.
      * rewrite !lookup_insert_ne by congruence.
        rewrite !lookup_union, lookup_insert_ne by congruence.
        rewrite lookup_union.
        destruct (r !! field), (default ∅ (Aadhaar.records st !! Aadhaar.recordKey r) !! field);
          reflexivity.
    + rewrite without_front. reflexivity.
Qed.

Lemma upsert_twice_witness :
  Contacts.records
    (Contacts.upsertRecord sample_contacts_env
       (Contacts.upsertRecord sample_contacts_env (Contacts.initial None)
          sample_contact) sample_contact)
  = Contacts.records
      (Contacts.upsertRecord sample_contacts_env (Contacts.initial None)
         sample_contact)
  /\ Aadhaar.order
       (Aadhaar.upsertRecord
          (Aadhaar.upsertRecord Aadhaar.initial {["uid" := "A"]} "t1")
          {["uid" := "A"]} "t2")
     = Aadhaar.order (Aadhaar.upsertRecord Aadhaar.initial {["uid" := "A"]} "t1").
Proof.
  split.
  - exact (proj1 (proj1 upsert_twice sample_contacts_env (Contacts.initial None)
                    sample_contact eq_refl)).
  - exact (proj2 (proj2 upsert_twice Aadhaar.initial {["uid" := "A"]} "t1" "t2"
                    eq_refl)).
Defined.

(** X18.  An upsert touches one key only: the record stored under any other
    key stays as it is, the other keys stay in the order sequence and keep
    their relative order.  This holds in both programs. *)
Theorem upsert_other_keys :
  (forall st r stamp,
      truthy (Aadhaar.recordKey r) = true ->
      let st' := Aadhaar.upsertRecord st r stamp in
      (forall key, key <> Aadhaar.recordKey r ->
                   Aadhaar.records st' !! key = Aadhaar.records st !! key)
      /\ List.filter (fun item => negb (String.eqb item (Aadhaar.recordKey r)))
                     (Aadhaar.order st')
         = List.filter (fun item => negb (String.eqb item (Aadhaar.recordKey r)))
                       (Aadhaar.order st))
  /\ (forall env st r,
         truthy (Contacts.recordKey r) = true ->
         let st' := Contacts.upsertRecord env st r in
         (forall key, key <> Contacts.recordKey r ->
                      Contacts.records st' !! key = Contacts.records st !! key)
         /\ List.filter (fun item => negb (String.eqb item (Contacts.recordKey r)))
                        (Contacts.order st')
            = List.filter (fun item => negb (String.eqb item (Contacts.recordKey r)))
                          (Contacts.order st)).
Proof.
  split.
  - intros st r stamp Hk st'. subst st'.
    destruct (aadhaar_upsert_store st r stamp Hk) as [-> ->]. split.
    + intros key Hne. apply lookup_insert_ne. congruence.
    + apply without_front.
  - intros env st r Hk st'. subst st'.
    destruct (contacts_upsert_store env st r Hk) as [(next & -> & _) ->]. split.
    + intros key Hne. apply lookup_insert_ne. congruence.
    + apply without_front.
Qed.

Lemma upsert_other_keys_witness :
  Contacts.records
    (Contacts.upsertRecord sample_contacts_env
       (Contacts.upsertRecord sample_contacts_env (Contacts.initial None)
          sample_contact) sample_contact_other)
    !! "email:jane@x.com"
  = Some sample_contact.
Proof.
  rewrite (proj1 (proj2 upsert_other_keys sample_contacts_env
                    (Contacts.upsertRecord sample_contacts_env
                       (Contacts.initial None) sample_contact)
                    sample_contact_other eq_refl) "email:jane@x.com")
    by discriminate.
  reflexivity.
Defined.

End UpsertProperties.

(** ** Saving and restoring the contact records *)

Section RestoreProperties.

Import Contacts.

Lemma parseQrPayload_cleaned (env : Env) (raw : string) (r : Record_)
    (consulted : list Grammar) :
  parseQrPayload env raw = (Some r, consulted) -> contact_cleaned r.
Proof.
  intros H. rewrite contacts_cascade in H.
  destruct (truthy (trim raw)); [|discriminate].
  cbn [grammars first_success] in H.
  destruct (parseJsonPayload env (trim raw)) as [r1|] eqn:H1.
  { injection H as <- _. exact (parseJsonPayload_cleaned _ _ _ H1). }
  destruct (parseKeyValuePayload env (trim raw)) as [r2|] eqn:H2.
  { injection H as <- _. exact (parseKeyValuePayload_cleaned _ _ _ H2). }
  destruct (parseDelimitedPayload (trim raw)) as [r3|] eqn:H3.
  { injection H as <- _. exact (parseDelimitedPayload_cleaned _ _ H3). }
  discriminate.
Qed.

Lemma contact_cleaned_empty :
  cleanText (Some "") = "" /\ normalizeGender (Some "") = ""
  /\ cleanPhone (Some "") = "" /\ cleanEmail (Some "") = "".
Proof. repeat split. Qed.

Lemma cleaned_or_else (clean : option string -> string) (a b : string) :
  clean (Some a) = a -> clean (Some b) = b ->
  clean (Some (or_else a b)) = or_else a b.
Proof. intros Ha Hb. destruct a; [exact Hb | exact Ha]. Qed.

Lemma upsert_store_clean (env : Env) (st : State) (r : Record_) :
  contact_cleaned r -> store_clean st -> store_clean (upsertRecord env st r).
Proof.
  intros Hr (Hls & Hkeys & Hclean).
  destruct (truthy (recordKey r)) eqn:Hk;
    [|unfold upsertRecord; rewrite Hk; cbn [negb]; split; [|split]; assumption].
  destruct (contacts_upsert_store env st r Hk) as [(next & Hrec & Hf) Hord].
  unfold store_clean. rewrite Hrec, Hord. split; [|split].
  - apply lockstep_upsert, Hls.
  - constructor; [exact Hk|].
    apply List.Forall_forall. intros key Hin.
    apply List.filter_In in Hin. destruct Hin as [Hin _].
    rewrite List.Forall_forall in Hkeys. apply Hkeys, Hin.
  - intros key x Hx.
    destruct (decide (key = recordKey r)) as [->|Hne];
      [|rewrite lookup_insert_ne in Hx by congruence; exact (Hclean _ _ Hx)].
    rewrite lookup_insert_eq in Hx. injection Hx as <-.
    assert (Hold : forall f clean,
               (forall old, records st !! recordKey r = Some old ->
                            clean (Some (f old)) = f old) ->
               clean (Some "") = "" ->
               clean (Some (match records st !! recordKey r with
                            | Some old => f old
                            | None => ""
                            end))
               = match records st !! recordKey r with
                 | Some old => f old
                 | None => ""
                 end).
    { intros f clean H1 H2.
      destruct (records st !! recordKey r) as [old|]; [apply H1; reflexivity | exact H2]. }
    unfold contact_fields in Hf.
    repeat (apply Forall_cons in Hf; destruct Hf as [? Hf]).
    destruct Hr as (Hu & Hd & Ha & Hg & Hm & He).
    unfold contact_cleaned.
    repeat match goal with H : _ next = _ |- _ => rewrite H; clear H end.
    repeat split; apply cleaned_or_else; try assumption; apply Hold;
      try reflexivity; intros old Hsome; apply (Hclean _ _ Hsome).
Qed.

Lemma load_entries_clean (entries : list Entry) :
  forall st,
    Forall (fun key => truthy key = true) (order st) ->
    (forall key r, records st !! key = Some r -> contact_cleaned r) ->
    Forall (fun key => truthy key = true)
           (order (fold_left load_entry entries st))
    /\ (forall key r,
           records (fold_left load_entry entries st) !! key = Some r ->
           contact_cleaned r).
Proof.
  induction entries as [|entry entries IH]; intros st Hkeys Hclean;
    [split; assumption|].
  cbn [fold_left]. apply IH; unfold load_entry.
  - destruct (e_key entry) as [key|]; [|exact Hkeys].
    destruct (truthy key) eqn:Hk; cbn [negb]; [|exact Hkeys].
    cbn [order with_store]. apply Forall_app. split; [exact Hkeys|].
    constructor; [exact Hk | constructor].
  - destruct (e_key entry) as [key|]; [|exact Hclean].
    destruct (truthy key); cbn [negb]; [|exact Hclean].
    cbn [records with_store]. intros k r Hr.
    destruct (decide (k = key)) as [->|Hne];
      [|rewrite lookup_insert_ne in Hr by congruence; exact (Hclean _ _ Hr)].
    rewrite lookup_insert_eq in Hr. injection Hr as <-.
    apply contact_cleaned_intro.
Qed.

Lemma loadRecords_store_clean (stored : option (list Entry)) :
  storage_ok stored -> store_clean (loadRecords (initial stored)).
Proof.
  intros Hok. split; [apply (contacts_init_inv stored Hok)|].
  unfold loadRecords. cbn [storage initial].
  destruct stored as [entries|].
  - apply load_entries_clean; [constructor|].
    intros key r Hr. cbn in Hr. rewrite lookup_empty in Hr. discriminate.
  - split; [constructor|]. intros key r Hr. cbn in Hr.
    rewrite lookup_empty in Hr. discriminate.
Qed.

Lemma handle_store_clean (env : Env) (st : State) (value : string) (now : Z) :
  store_clean st -> store_clean (handleScanResult env st value now).
Proof.
  intros H. unfold handleScanResult.
  destruct (is_duplicate st value now); [exact H|].
  destruct (parseQrPayload env value) as [record consulted] eqn:Hp.
  destruct (negb (isRecordUsable record)); [exact H|].
  destruct record as [r|]; [|exact H].
  apply upsert_store_clean; [exact (parseQrPayload_cleaned _ _ _ _ Hp) | exact H].
Qed.

(** X19.  The content of the contact store is always clean: after the
    restore of start-up, whatever the stored array holds under keys that
    are pairwise distinct, and after every list of scan results handled
    from there, the two structures are in lockstep, no key is empty and
    every stored record is in the form that the cleaning helpers give. *)
Theorem contact_store_clean (env : Env) (stored : option (list Entry))
    (scans : list (string * Z)) :
  storage_ok stored ->
  store_clean
    (fold_left (fun st scan => handleScanResult env st scan.1 scan.2) scans
       (loadRecords (initial stored))).
Proof.
  intros Hok. generalize (loadRecords_store_clean stored Hok).
  generalize (loadRecords (initial stored)) as st.
  induction scans as [|scan scans IH]; intros st H; [exact H|].
  cbn [fold_left]. apply IH, handle_store_clean, H.
Qed.

Lemma contact_store_clean_witness :
  store_clean
    (fold_left
       (fun st scan => handleScanResult sample_contacts_env st scan.1 scan.2)
       [(" Jane  Doe | 1990-01-01|34| f |999 000-1111|Jane@X.com ", 5000)]
       (loadRecords
          (initial (Some [entry_of "email:jane@x.com" sample_contact;
                          entry_of "email:joe@x.com" sample_contact_other])))).
Proof.
  apply (contact_store_clean sample_contacts_env).
  change (NoDup ["email:jane@x.com"; "email:joe@x.com"]).
  apply NoDup_cons. split; [|apply NoDup_singleton].
  rewrite list_elem_of_singleton. discriminate.
Defined.

Lemma cleaned_record_reload (key : string) (r : Record_) :
  contact_cleaned r ->
  {| username := cleanText (e_username (entry_of key r));
     dob := cleanText (e_dob (entry_of key r));
     age := cleanText (e_age (entry_of key r));
     gender := normalizeGender (e_gender (entry_of key r));
     mobile := cleanPhone (e_mobile (entry_of key r));
     email := cleanEmail (e_email (entry_of key r)) |} = r.
Proof.
  intros (Hu & Hd & Ha & Hg & Hm & He). destruct r. cbn in *. congruence.
Qed.

(** Restoring the entries saved for a list of keys. *)
Lemma load_saved_keys (recs : gmap string Record_) (keys : list string) :
  forall acc,
    (forall key, key ∈ keys ->
                 truthy key = true
                 /\ exists r, recs !! key = Some r /\ contact_cleaned r) ->
    order (fold_left load_entry
             (omap (fun key => entry_of key <$> recs !! key) keys) acc)
    = (order acc ++ keys)%list
    /\ forall key,
         records (fold_left load_entry
                    (omap (fun key => entry_of key <$> recs !! key) keys) acc)
           !! key
         = if decide (key ∈ keys) then recs !! key else records acc !! key.
Proof.
  induction keys as [|k keys IH]; intros acc H.
  - cbn. rewrite app_nil_r. split; [reflexivity|]. intros key.
    destruct (decide (key ∈ [])) as [Hin|_]; [inversion Hin | reflexivity].
  - destruct (H k ltac:(left)) as (Hk & r & Hr & Hc).
    cbn [omap list_omap]. rewrite Hr. cbn [fmap option_fmap option_map fold_left].
    assert (Hstep : load_entry acc (entry_of k r)
                    = with_store acc (<[k := r]> (records acc))
                                 (order acc ++ [k])%list).
    { unfold load_entry. cbn [e_key entry_of]. rewrite Hk. cbn [negb].
      rewrite (cleaned_record_reload k r Hc). reflexivity. }
    rewrite Hstep.
    destruct (IH (with_store acc (<[k := r]> (records acc)) (order acc ++ [k])%list))
      as [Ho Hl].
    { intros key Hin. apply H. right. exact Hin. }
    split.
    + rewrite Ho. cbn [order with_store]. rewrite <- app_assoc. reflexivity.
    + intros key. rewrite Hl. cbn [records with_store].
      destruct (decide (key ∈ keys)) as [Hin|Hnin].
      * rewrite decide_True by (right; exact Hin). reflexivity.
      * destruct (decide (key = k)) as [->|Hne].
        -- rewrite decide_True by left. rewrite lookup_insert_eq. symmetry. exact Hr.
        -- rewrite lookup_insert_ne by congruence.
           rewrite decide_False; [reflexivity|].
           intros Hin. apply elem_of_cons in Hin. destruct Hin; [congruence | contradiction].
Qed.

(** X20.  Saving and restoring is a round trip: from a store whose content
    is clean, the array that [saveRecords] writes has one entry for each key
    of the order sequence, and [loadRecords], run on it from the initial
    state, gives back the same records in the same order. *)
Theorem snapshot_restore (st : State) :
  store_clean st ->
  List.map e_key (snapshot st) = List.map Some (order st)
  /\ records (loadRecords (initial (Some (snapshot st)))) = records st
  /\ order (loadRecords (initial (Some (snapshot st)))) = order st.
Proof.
  intros ((Hnd & Hdom) & Hkeys & Hclean).
  assert (Hall : forall key, key ∈ order st ->
                   truthy key = true
                   /\ exists r, records st !! key = Some r /\ contact_cleaned r).
  { intros key Hin. split.
    - rewrite List.Forall_forall in Hkeys. apply Hkeys, list_elem_of_In, Hin.
    - destruct (proj1 (Hdom key) Hin) as [r Hr]. exists r.
      split; [exact Hr | exact (Hclean _ _ Hr)]. }
  split.
  - unfold snapshot. clear Hnd Hkeys Hdom. revert Hall.
    generalize (order st) as keys.
    induction keys as [|k ks IH]; intros Hall; [reflexivity|].
    destruct (Hall k ltac:(left)) as (_ & r & Hr & _).
    cbn [omap list_omap List.map]. rewrite Hr.
    cbn [fmap option_fmap option_map List.map e_key entry_of]. f_equal.
    apply IH. intros key Hin. apply Hall. right. exact Hin.
  - unfold loadRecords. cbn [storage initial]. unfold snapshot.
    destruct (load_saved_keys (records st) (order st)
                (initial (Some (omap (fun key => entry_of key <$> records st !! key)
                                     (order st)))) Hall)
      as [Ho Hl].
    split; [|exact Ho].
    apply map_eq. intros key. rewrite Hl.
    destruct (decide (key ∈ order st)) as [Hin|Hnin]; [reflexivity|].
    cbn [records initial]. rewrite lookup_empty.
    destruct (records st !! key) as [r|] eqn:Hr; [|reflexivity].
    exfalso. apply Hnin, Hdom. eexists. exact Hr.
Qed.

Lemma snapshot_restore_witness :
  let st := handleScanResult sample_contacts_env (loadRecords (initial None))
              " Jane  Doe | 1990-01-01|34| f |999 000-1111|Jane@X.com " 5000 in
  List.map e_key (snapshot st) = List.map Some (order st)
  /\ records (loadRecords (initial (Some (snapshot st)))) = records st
  /\ order (loadRecords (initial (Some (snapshot st)))) = order st.
Proof.
  intros st.
  apply (snapshot_restore st).
  apply handle_store_clean, (loadRecords_store_clean None). exact I.
Defined.

End RestoreProperties.

(** ** The scanner with a history *)

Section HistoryProperties.

Import History.

Lemma history_accepted (st : State) (value : string) (now : Z) (time : string) :
  handleScanResult st value now time <> st ->
  handleScanResult st value now time
  = {| scanning := scanning st; torchEnabled := torchEnabled st;
       lastValue := Some value; lastValueTs := now;
       history := (value, time) :: take 19 (history st);
       resultText := value;
       resultBadge := ("Scan captured", false);
       copyDisabled := false;
       historyList := (time, value)
                      :: List.map (fun entry => (snd entry, fst entry))
                           (take 19 (history st));
       historyBadge := pretty (S (length (take 19 (history st)))) +:+ " items" |}.
Proof.
  unfold handleScanResult.
  destruct ((if decide (lastValue st = Some value) then true else false)
            && (now - lastValueTs st <? duplicateCooldownMs))%bool;
    [intros H; contradiction|].
  intros _. reflexivity.
Qed.

Lemma history_shown_step (st : State) (ev : Event) :
  history_shown st -> history_shown (step st ev).
Proof.
  intros H. destruct ev as [value now time|]; cbn [step].
  - unfold handleScanResult.
    destruct ((if decide (lastValue st = Some value) then true else false)
              && (now - lastValueTs st <? duplicateCooldownMs))%bool;
      [exact H|].
    unfold history_shown, maxHistory.
    cbn [history historyList historyBadge resultText copyDisabled take fst].
    repeat split. cbn [length]. rewrite length_take. lia.
  - unfold history_shown. cbn. repeat split. lia.
Qed.

(** X21.  The page of the scanner with a history agrees with its state
    from the first event that changes the state, whatever was shown before:
    after that event and any events that follow, the history has at most 20
    entries, the list shows them with the badge giving their number, the
    result text is the value scanned last, or the dash when there is none,
    and the copy button is disabled exactly when the history is empty. *)
Theorem history_page_agrees (st : State) (first : Event) (evs : list Event) :
  step st first <> st ->
  history_shown (fold_left step evs (step st first)).
Proof.
  intros Hne.
  assert (H0 : history_shown (step st first)).
  { destruct first as [value now time|]; cbn [step] in *.
    - rewrite (history_accepted _ _ _ _ Hne). unfold history_shown.
      cbn [history historyList historyBadge resultText copyDisabled length fst snd].
      repeat split. unfold maxHistory. rewrite length_take. lia.
    - unfold history_shown. cbn. repeat split. lia. }
  revert H0. generalize (step st first) as s.
  induction evs as [|ev evs IH]; intros s Hs; [exact Hs|].
  cbn [fold_left]. apply IH, history_shown_step, Hs.
Qed.

Lemma history_page_agrees_witness :
  history_shown
    (fold_left step [Scan "b" 100 "10:00:01"; Scan "b" 200 "10:00:02"; Clear;
                     Scan "c" 300 "10:00:03"]
       (step {| scanning := true; torchEnabled := false; lastValue := None;
                lastValueTs := 0; history := []; resultText := "stale";
                resultBadge := ("", true); copyDisabled := false;
                historyList := [("x", "y")]; historyBadge := "7 items" |}
             (Scan "a" 50 "10:00:00"))).
Proof.
  apply history_page_agrees.
  intros H. apply (f_equal history) in H. discriminate H.
Defined.

(** X22.  A burst of scans of one value is recorded once: when a scan is
    accepted at time [now], further scans of the same value whose times are
    less than [duplicateCooldownMs] after [now], however many, leave the
    state and the page as the first scan made them. *)
Theorem burst_recorded_once (st : State) (value : string) (now : Z)
    (time : string) (later : list (Z * string)) :
  handleScanResult st value now time <> st ->
  Forall (fun scan => scan.1 - now < duplicateCooldownMs) later ->
  fold_left (fun s scan => handleScanResult s value scan.1 scan.2) later
    (handleScanResult st value now time)
  = handleScanResult st value now time.
Proof.
  intros Hne Hlater.
  assert (Hv : lastValue (handleScanResult st value now time) = Some value)
    by (rewrite (history_accepted _ _ _ _ Hne); reflexivity).
  assert (Ht : lastValueTs (handleScanResult st value now time) = now)
    by (rewrite (history_accepted _ _ _ _ Hne); reflexivity).
  revert Hv Ht. generalize (handleScanResult st value now time) as s.
  intros s Hv Ht.
  induction Hlater as [|scan later Hscan _ IH]; [reflexivity|].
  cbn [fold_left].
  assert (Hs : handleScanResult s value scan.1 scan.2 = s).
  { unfold handleScanResult. rewrite Hv, Ht.
    rewrite decide_True by reflexivity.
    apply Z.ltb_lt in Hscan. rewrite Hscan. reflexivity. }
  rewrite Hs. exact IH.
Qed.

Lemma burst_recorded_once_witness :
  fold_left (fun s scan => handleScanResult s "a" scan.1 scan.2)
    [(1100, "10:00:01"); (2199, "10:00:02"); (1300, "10:00:01")]
    (handleScanResult (clearResults (clearResults
       {| scanning := true; torchEnabled := false; lastValue := None;
          lastValueTs := 0; history := []; resultText := "";
          resultBadge := ("", true); copyDisabled := true;
          historyList := []; historyBadge := "" |})) "a" 1000 "10:00:00")
  = handleScanResult (clearResults (clearResults
       {| scanning := true; torchEnabled := false; lastValue := None;
          lastValueTs := 0; history := []; resultText := "";
          resultBadge := ("", true); copyDisabled := true;
          historyList := []; historyBadge := "" |})) "a" 1000 "10:00:00".
Proof.
  apply burst_recorded_once.
  - intros H. apply (f_equal history) in H. discriminate H.
  - repeat constructor.
Defined.

End HistoryProperties.

(** ** The frame loop *)

Section ScannerProperties.

Import Scanner.

Variable T : Type.
Variable zero : T.
Variable interval_elapsed : T -> T -> bool.

Lemma last_cons (t d : T) (l : list T) :
  List.last (t :: l) d = List.last l t.
Proof.
  revert t d. induction l as [|x l IH]; intros t d; [reflexivity|].
  change (List.last (t :: x :: l) d) with (List.last (x :: l) d).
  rewrite (IH x d), (IH x t). reflexivity.
Qed.

Lemma loop_run (frames : list T) :
  forall s : State T,
    active T s = true ->
    exists added,
      attempts T (fold_left (loop T interval_elapsed) frames s)
      = (attempts T s ++ added)%list
      /\ sublist added frames
      /\ paced T interval_elapsed (lastScanTs T s) added
      /\ lastScanTs T (fold_left (loop T interval_elapsed) frames s)
         = List.last added (lastScanTs T s)
      /\ active T (fold_left (loop T interval_elapsed) frames s) = true.
Proof.
  induction frames as [|t frames IH]; intros s Ha.
  - exists []. cbn. rewrite app_nil_r. repeat split; [constructor | exact Ha].
  - cbn [fold_left]. unfold loop at 2 4 6. rewrite Ha. cbn [negb].
    destruct (interval_elapsed t (lastScanTs T s)) eqn:Hdue.
    + destruct (IH {| active := true; lastScanTs := t;
                      attempts := (attempts T s ++ [t])%list |} eq_refl)
        as (added & H1 & H2 & H3 & H4 & H5).
      exists (t :: added). cbn [attempts lastScanTs] in *.
      rewrite H1, <- app_assoc, last_cons.
      repeat split; [constructor; exact H2 | exact Hdue | exact H3
                     | exact H4 | exact H5].
    + destruct (IH s Ha) as (added & H1 & H2 & H3 & H4 & H5).
      exists added. repeat split; [exact H1 | constructor; exact H2 | exact H3
                                   | exact H4 | exact H5].
Qed.

Lemma loop_inactive (frames : list T) (s : State T) :
  active T s = false -> fold_left (loop T interval_elapsed) frames s = s.
Proof.
  intros Ha. induction frames as [|t frames IH]; [reflexivity|].
  cbn [fold_left]. unfold loop at 2. rewrite Ha. exact IH.
Qed.

(** X23.  The attempts of a scan session: between [start()] and [stop()]
    the loop calls [scanFrame] for some of the frames, in their order, each
    attempt being due with respect to the one before and the first with
    respect to the time stamp 0 of [start()]; the frames that come after
    [stop()] lead to no attempt.  The time stamp 0 is not due with respect
    to itself. *)
Theorem scan_session_attempts (s : State T) (frames later : list T) :
  interval_elapsed zero zero = false ->
  exists added,
    attempts T
      (fold_left (loop T interval_elapsed) later
         (stop T (fold_left (loop T interval_elapsed) frames
                    (start T zero interval_elapsed s))))
    = (attempts T s ++ added)%list
    /\ sublist added frames
    /\ paced T interval_elapsed zero added.
Proof.
  intros H0.
  assert (Hstart : start T zero interval_elapsed s
                   = {| active := true; lastScanTs := zero;
                        attempts := attempts T s |}).
  { unfold start, loop. cbn [active lastScanTs negb]. rewrite H0. reflexivity. }
  rewrite Hstart.
  destruct (loop_run frames {| active := true; lastScanTs := zero;
                               attempts := attempts T s |} eq_refl)
    as (added & H1 & H2 & H3 & _).
  exists added. rewrite loop_inactive by reflexivity.
  cbn [stop attempts]. repeat split; assumption.
Qed.

End ScannerProperties.

Section ScannerRate.

Import Scanner.

Lemma scan_session_attempts_witness :
  exists added,
    attempts Z
      (fold_left (loop Z interval_elapsed_ms) [900; 1000]
         (stop Z (fold_left (loop Z interval_elapsed_ms) [16; 216; 232; 416; 620]
                    (start Z 0 interval_elapsed_ms
                       {| active := false; lastScanTs := 0; attempts := [] |}))))
    = ([] ++ added)%list
    /\ sublist added [16; 216; 232; 416; 620]
    /\ paced Z interval_elapsed_ms 0 added.
Proof.
  apply (scan_session_attempts Z 0 interval_elapsed_ms). reflexivity.
Defined.

Lemma paced_spaced (ts : list Z) :
  forall last, paced Z interval_elapsed_ms last ts -> spaced last ts.
Proof.
  induction ts as [|t ts IH]; intros last H; [exact I|].
  destruct H as [Hdue Hrest]. split; [|apply IH, Hrest].
  unfold interval_elapsed_ms in Hdue. apply Z.leb_le, Hdue.
Qed.

Lemma spaced_rate (ts : list Z) :
  forall last,
    spaced last ts -> 200 * Z.of_nat (length ts) <= List.last ts last - last.
Proof.
  induction ts as [|t ts IH]; intros last H; [cbn; lia|].
  destruct H as [Hgap Hrest]. specialize (IH t Hrest).
  rewrite last_cons. cbn [length]. lia.
Qed.

(** X24.  The loop attempts at most one scan per 200 ms of frame time:
    while the scanner is active, the attempts that a sequence of frames adds
    are at least 200 apart, and 200 times their number is no more than the
    advance of [lastScanTs]. *)
Theorem attempt_rate (s : State Z) (frames : list Z) :
  active Z s = true ->
  exists added,
    attempts Z (fold_left (loop Z interval_elapsed_ms) frames s)
    = (attempts Z s ++ added)%list
    /\ spaced (lastScanTs Z s) added
    /\ 200 * Z.of_nat (length added)
       <= lastScanTs Z (fold_left (loop Z interval_elapsed_ms) frames s)
          - lastScanTs Z s.
Proof.
  intros Ha.
  destruct (loop_run Z interval_elapsed_ms frames s Ha)
    as (added & H1 & _ & H3 & H4 & _).
  exists added. split; [exact H1|].
  apply paced_spaced in H3. split; [exact H3|].
  rewrite H4. apply spaced_rate, H3.
Qed.

Lemma attempt_rate_witness :
  exists added,
    attempts Z (fold_left (loop Z interval_elapsed_ms) [16; 216; 232; 416; 620]
                  {| active := true; lastScanTs := 0; attempts := [] |})
    = ([] ++ added)%list
    /\ spaced 0 added
    /\ 200 * Z.of_nat (length added)
       <= lastScanTs Z (fold_left (loop Z interval_elapsed_ms)
                          [16; 216; 232; 416; 620]
                          {| active := true; lastScanTs := 0; attempts := [] |})
          - 0.
Proof.
  apply (attempt_rate {| active := true; lastScanTs := 0; attempts := [] |}).
  reflexivity.
Defined.

End ScannerRate.

(** ** Starting and stopping the scan *)

Section SessionProperties.

Import Session.

Variable env : Env.

Lemma queueGestureStart_inv (st : State) :
  session_inv st -> session_inv (queueGestureStart st).
Proof.
  intros [Hc Ha]. unfold queueGestureStart.
  destruct (awaitingGesture st) eqn:Hw; [split; [rewrite Hw|]; assumption|].
  split; cbn; [rewrite Hc; reflexivity | exact Ha].
Qed.

Lemma setStatus_inv (st : State) (message : string) (tone : Tone) :
  session_inv st -> session_inv (setStatus st message tone).
Proof. intros H. exact H. Qed.

Lemma startScan_begin_inv (st : State) :
  session_inv st -> session_inv (startScan_begin env st).
Proof.
  intros H. unfold startScan_begin.
  destruct (scanning st); [exact H|].
  destruct (negb (isSecureContext env)); exact H.
Qed.

Lemma startScan_settle_inv (st : State) (outcome : StartOutcome) :
  session_inv st -> session_inv (startScan_settle st outcome).
Proof.
  intros H. unfold startScan_settle.
  destruct (inFlight st) as [|waiting]; [exact H|].
  destruct outcome; try exact H.
  - destruct H as [Hc Ha]. split; [exact Hc | reflexivity].
  - apply queueGestureStart_inv. exact H.
  - apply queueGestureStart_inv. exact H.
Qed.

Lemma stopScan_inv (st : State) : session_inv st -> session_inv (stopScan st).
Proof.
  intros H. unfold stopScan. destruct (negb (scanning st)); [exact H|].
  destruct H as [Hc Ha]. split; [exact Hc | discriminate].
Qed.

Lemma click_inv (st : State) : session_inv st -> session_inv (click env st).
Proof.
  intros [Hc Ha]. unfold click. rewrite Hc.
  destruct (awaitingGesture st) eqn:Hw; cbn [Nat.iter nat_rect].
  - apply startScan_begin_inv. split; [reflexivity | exact Ha].
  - split; [reflexivity | exact Ha].
Qed.

Lemma step_inv (st : State) (ev : Event) :
  session_inv st -> session_inv (step env st ev).
Proof.
  intros H. destruct ev; cbn [step].
  - unfold init. destruct (negb _); [exact H|].
    apply startScan_begin_inv. exact H.
  - apply click_inv, H.
  - apply startScan_settle_inv, H.
  - apply stopScan_inv, H.
  - apply stopScan_inv, H.
  - destruct H as [Hc Ha]. split; [exact Hc | discriminate].
Qed.

Lemma steps_inv (events : list Event) :
  forall st, session_inv st -> session_inv (fold_left (step env) events st).
Proof.
  induction events as [|ev events IH]; intros st H; [exact H|].
  cbn [fold_left]. apply IH, step_inv, H.
Qed.

Lemma startScan_begin_requests (st : State) :
  (cameraRequests (startScan_begin env st) <= S (cameraRequests st))%nat.
Proof.
  unfold startScan_begin. destruct (scanning st); [lia|].
  destruct (negb (isSecureContext env)); cbn; lia.
Qed.

Lemma queueGestureStart_requests (st : State) :
  cameraRequests (queueGestureStart st) = cameraRequests st.
Proof. unfold queueGestureStart. destruct (awaitingGesture st); reflexivity. Qed.

Lemma step_requests (st : State) (ev : Event) :
  session_inv st ->
  (cameraRequests (step env st ev) <= S (cameraRequests st))%nat.
Proof.
  intros [Hc Ha]. destruct ev; cbn [step].
  - unfold init. destruct (negb _); [cbn; lia|].
    apply (startScan_begin_requests (setStatus st "Ready." Plain)).
  - unfold click. rewrite Hc.
    destruct (awaitingGesture st); cbn [Nat.iter nat_rect]; [|cbn; lia].
    unfold gesture_listener.
    etrans; [apply startScan_begin_requests|]. cbn. lia.
  - unfold startScan_settle. destruct (inFlight st); [lia|].
    destruct outcome; try rewrite queueGestureStart_requests; cbn; lia.
  - unfold stopScan. destruct (negb (scanning st)); cbn; lia.
  - unfold stopScan. destruct (negb (scanning st)); cbn; lia.
  - cbn. lia.
Qed.

(** X25.  After any sequence of events on the page of [src/app.js]: a click
    listener is registered exactly when [awaitingGesture] is set, and never
    more than one; the scanner is active only while [state.scanning] is set;
    and the camera has been asked for at most once per event. *)
Theorem session_invariant (events : list Event) :
  session_inv (run env events)
  /\ (clickListeners (run env events) <= 1)%nat
  /\ (cameraRequests (run env events) <= length events)%nat.
Proof.
  assert (Hinit : session_inv initial) by (split; [reflexivity | discriminate]).
  assert (Hrun : session_inv (run env events)) by apply steps_inv, Hinit.
  split; [exact Hrun|]. split.
  - destruct Hrun as [Hc _]. rewrite Hc.
    destruct (awaitingGesture (run env events)); lia.
  - unfold run.
    enough (H : forall st, session_inv st ->
                (cameraRequests (fold_left (step env) events st)
                 <= cameraRequests st + length events)%nat)
      by exact (H initial Hinit).
    clear Hrun.
    induction events as [|ev evs IH]; intros st Hst; [cbn; lia|].
    cbn [fold_left length].
    specialize (IH (step env st ev) (step_inv st ev Hst)).
    pose proof (step_requests st ev Hst). lia.
Qed.

(** X26.  [stopScan()] is effective and idempotent: after any sequence of
    events it leaves [state.scanning] unset and the scanner inactive, and a
    second call changes nothing. *)
Theorem stopScan_effective (events : list Event) :
  scanning (stopScan (run env events)) = false
  /\ scannerActive (stopScan (run env events)) = false
  /\ stopScan (stopScan (run env events)) = stopScan (run env events).
Proof.
  pose proof (steps_inv events initial
                (conj eq_refl (fun H => False_ind _ (Bool.diff_false_true H))))
    as [_ Ha].
  fold (run env events) in Ha.
  generalize dependent (run env events). intros st Ha.
  split; [|split].
  - unfold stopScan. destruct (scanning st) eqn:Hs; cbn [negb]; [reflexivity | exact Hs].
  - unfold stopScan. destruct (scanning st) eqn:Hs; cbn [negb]; [reflexivity|].
    destruct (scannerActive st); [|reflexivity].
    symmetry. apply Ha. reflexivity.
  - unfold stopScan. destruct (scanning st) eqn:Hs; cbn [negb scanning];
      [reflexivity | rewrite Hs; reflexivity].
Qed.

Lemma insecure_step (st : State) (ev : Event) :
  isSecureContext env = false ->
  cameraRequests st = 0%nat /\ inFlight st = 0%nat
  /\ scanning st = false /\ scannerActive st = false ->
  cameraRequests (step env st ev) = 0%nat /\ inFlight (step env st ev) = 0%nat
  /\ scanning (step env st ev) = false /\ scannerActive (step env st ev) = false.
Proof.
  intros Hsec (Hr & Hf & Hs & Ha).
  assert (Hbegin : forall s,
             cameraRequests s = 0%nat /\ inFlight s = 0%nat
             /\ scanning s = false /\ scannerActive s = false ->
             cameraRequests (startScan_begin env s) = 0%nat
             /\ inFlight (startScan_begin env s) = 0%nat
             /\ scanning (startScan_begin env s) = false
             /\ scannerActive (startScan_begin env s) = false).
  { intros s (H1 & H2 & H3 & H4). unfold startScan_begin.
    rewrite H3, Hsec. cbn. repeat split; assumption. }
  destruct ev; cbn [step].
  - unfold init. rewrite Hsec. cbn. repeat split; assumption.
  - unfold click.
    generalize (clickListeners st) as n.
    induction n as [|n IH]; [cbn; repeat split; assumption|].
    cbn [Nat.iter nat_rect]. unfold gesture_listener at 1.
    apply Hbegin. cbn. exact IH.
  - unfold startScan_settle. rewrite Hf. repeat split; assumption.
  - unfold stopScan. rewrite Hs. repeat split; assumption.
  - unfold stopScan. rewrite Hs. repeat split; assumption.
  - cbn. repeat split; assumption.
Qed.

(** X27.  Outside a secure context the camera is never asked for: whatever
    the events, [camera.start()] is not called, [state.scanning] stays
    unset and the scanner stays inactive. *)
Theorem insecure_never_scans (events : list Event) :
  isSecureContext env = false ->
  cameraRequests (run env events) = 0%nat
  /\ scanning (run env events) = false
  /\ scannerActive (run env events) = false.
Proof.
  intros Hsec.
  enough (H : forall st,
             cameraRequests st = 0%nat /\ inFlight st = 0%nat
             /\ scanning st = false /\ scannerActive st = false ->
             cameraRequests (fold_left (step env) events st) = 0%nat
             /\ inFlight (fold_left (step env) events st) = 0%nat
             /\ scanning (fold_left (step env) events st) = false
             /\ scannerActive (fold_left (step env) events st) = false).
  { destruct (H initial) as (H1 & _ & H3 & H4); [repeat split|].
    repeat split; assumption. }
  induction events as [|ev evs IH]; intros st Hst; [exact Hst|].
  cbn [fold_left]. apply IH, insecure_step; assumption.
Qed.

End SessionProperties.

Lemma insecure_never_scans_witness :
  Session.cameraRequests
    (Session.run {| Session.isSecureContext := false;
                    Session.hasBarcodeDetector := true;
                    Session.hasJsQR := true |}
       [Session.Init; Session.Click; Session.CameraSettles Session.Started;
        Session.Hidden; Session.Click]) = 0%nat
  /\ Session.scanning
       (Session.run {| Session.isSecureContext := false;
                       Session.hasBarcodeDetector := true;
                       Session.hasJsQR := true |}
          [Session.Init; Session.Click; Session.CameraSettles Session.Started;
           Session.Hidden; Session.Click]) = false
  /\ Session.scannerActive
       (Session.run {| Session.isSecureContext := false;
                       Session.hasBarcodeDetector := true;
                       Session.hasJsQR := true |}
          [Session.Init; Session.Click; Session.CameraSettles Session.Started;
           Session.Hidden; Session.Click]) = false.
Proof.
  apply insecure_never_scans. reflexivity.
Defined.

(** ** The two grammars of the identity-card decoder *)

Section GrammarProperties.

Import Aadhaar.

Lemma numeric_no_delimiter (raw : string) :
  all_chars is_digit (strip_ws raw) = true -> indexOf raw "<" = None.
Proof.
  induction raw as [|c raw IH]; [reflexivity|].
  unfold strip_ws. cbn [keep indexOf].
  destruct (ascii_dec c "<") as [->|_]; [vm_compute; discriminate|].
  fold (strip_ws raw).
  destruct (negb (is_ws c)); cbn [all_chars]; intros H.
  - apply andb_prop in H. rewrite (IH (proj2 H)). reflexivity.
  - rewrite (IH H). reflexivity.
Qed.

Lemma numeric_truthy (raw : string) :
  looks_numeric (strip_ws raw) = true -> truthy (trim raw) = true.
Proof.
  intros H. rewrite <- strip_ws_trim in H.
  destruct (trim raw); [vm_compute in H; discriminate | reflexivity].
Qed.

(** X28.  The two grammars of the identity-card decoder exclude each other:
    a raw string that the markup grammar decodes is refused by the binary
    grammar, and a raw string that looks numeric is refused by the markup
    grammar whatever the parser says, so that the cascade consults both
    grammars on it and gives what the binary grammar gives. *)
Theorem aadhaar_grammars_exclusive (env : Env) (raw : string) :
  (forall r, parseXmlPayload env raw = Some r -> parseSecureQr env raw = None)
  /\ (looks_numeric (strip_ws raw) = true ->
      parseXmlPayload env (trim raw) = None
      /\ parseAadhaarPayload env raw
         = (parseSecureQr env (trim raw), [XmlGrammar; SecureGrammar])).
Proof.
  split.
  - intros r H. unfold parseSecureQr. cbv zeta.
    destruct (looks_numeric (strip_ws raw)) eqn:Hnum; [|reflexivity].
    exfalso. unfold looks_numeric in Hnum. apply andb_prop in Hnum.
    unfold parseXmlPayload, extractXml in H.
    rewrite (numeric_no_delimiter raw (proj1 Hnum)) in H. discriminate.
  - intros Hnum.
    assert (Hxml : parseXmlPayload env (trim raw) = None).
    { unfold parseXmlPayload, extractXml.
      rewrite numeric_no_delimiter; [reflexivity|].
      rewrite strip_ws_trim. unfold looks_numeric in Hnum.
      apply andb_prop in Hnum. exact (proj1 Hnum). }
    split; [exact Hxml|].
    rewrite aadhaar_cascade, (numeric_truthy raw Hnum).
    cbn [grammars first_success]. rewrite Hxml.
    destruct (parseSecureQr env (trim raw)); reflexivity.
Qed.

Lemma aadhaar_grammars_exclusive_witness :
  parseSecureQr (sample_browser true) sample_card_xml = None
  /\ parseXmlPayload (sample_browser true) (trim sample_digits) = None.
Proof.
  split.
  - apply (proj1 (aadhaar_grammars_exclusive (sample_browser true) sample_card_xml)
             (parsePrintLetter sample_card)).
    reflexivity.
  - apply (proj2 (aadhaar_grammars_exclusive (sample_browser true) sample_digits)).
    reflexivity.
Defined.

Lemma or_else_blank (a : string) : or_else (or_else a "") "" = a.
Proof. destruct a; reflexivity. Qed.

(** X29.  What a record of the markup grammar holds: the fields [name],
    [gender], [dob] and [address] and no [lastSeen]; a record of a print
    letter has no [referenceId], so that its de-duplication key is its
    [uid]; a record of the offline or of the short form has no [uid], so
    that its key is its [referenceId], and the short form has neither [yob]
    nor [pin]. *)
Theorem xml_record_shape (env : Env) (raw : string) (r : gmap string string) :
  parseXmlPayload env raw = Some r ->
  is_Some (r !! "name") /\ is_Some (r !! "gender") /\ is_Some (r !! "dob")
  /\ is_Some (r !! "address") /\ r !! "lastSeen" = None
  /\ ((r !! "source" = Some "PrintLetterBarcodeData"
       /\ r !! "referenceId" = None
       /\ r !! "uid" = Some (recordKey r))
      \/ (r !! "source" = Some "OfflinePaperlessKyc"
          /\ r !! "uid" = None
          /\ r !! "referenceId" = Some (recordKey r))
      \/ (r !! "source" = Some "OKY"
          /\ r !! "uid" = None /\ r !! "yob" = None /\ r !! "pin" = None
          /\ r !! "referenceId" = Some (recordKey r))).
Proof.
  unfold parseXmlPayload. intros H.
  destruct (extractXml raw) as [xmlText|]; [|discriminate].
  destruct (negb (truthy xmlText)); [discriminate|].
  cbv zeta in H.
  destruct (doc_getElementsByTagName (parseFromString env xmlText) "parsererror");
    [|discriminate].
  destruct (doc_getElementsByTagName (parseFromString env xmlText)
              "PrintLetterBarcodeData") as [|node ?].
  2: { injection H as <-. unfold parsePrintLetter. cbv zeta.
       generalize (or_empty (getAttribute node "uid")) as uid.
       generalize (or_empty (getAttribute node "name")) as name.
       generalize (or_empty (getAttribute node "gender")) as gender.
       generalize (or_empty (getAttribute node "dob")) as dob.
       generalize (or_empty (getAttribute node "yob")) as yob.
       generalize (or_empty (getAttribute node "pc")) as pin.
       intros pin yob dob gender name uid.
       match goal with
       | |- context [("address", ?a)] => generalize a as address
       end.
       intros address.
       repeat (split; [first [reflexivity | eexists; reflexivity]|]).
       left. split; [reflexivity|]. split; [reflexivity|].
       unfold recordKey.
       change (Some uid = Some (or_else (or_else uid "") "")).
       rewrite or_else_blank. reflexivity. }
  destruct (doc_getElementsByTagName (parseFromString env xmlText)
              "OfflinePaperlessKyc") as [|node ?].
  2: { injection H as <-. unfold parseOfflinePaperless. cbv zeta.
       match goal with
       | |- context [("referenceId", ?a)] => generalize a as referenceId
       end.
       match goal with
       | |- context [("name", ?a)] => generalize a as name
       end.
       match goal with
       | |- context [("gender", ?a)] => generalize a as gender
       end.
       match goal with
       | |- context [("dob", ?a)] => generalize a as dob
       end.
       match goal with
       | |- context [("yob", ?a)] => generalize a as yob
       end.
       match goal with
       | |- context [("address", ?a)] => generalize a as address
       end.
       match goal with
       | |- context [("pin", ?a)] => generalize a as pin
       end.
       intros pin address yob dob gender name referenceId.
       repeat (split; [first [reflexivity | eexists; reflexivity]|]).
       right. left. split; [reflexivity|]. split; [reflexivity|].
       unfold recordKey.
       change (Some referenceId = Some (or_else (or_else "" referenceId) "")).
       destruct referenceId; reflexivity. }
  destruct (doc_getElementsByTagName (parseFromString env xmlText) "OKY")
    as [|node ?]; [discriminate|].
  injection H as <-. unfold parseOkY. cbv zeta.
  generalize (or_empty (getAttribute node "n")) as name.
  generalize (or_empty (getAttribute node "r")) as referenceId.
  generalize (or_empty (getAttribute node "d")) as dob.
  generalize (or_empty (getAttribute node "g")) as gender.
  generalize (or_empty (getAttribute node "a")) as address.
  intros address gender dob referenceId name.
  repeat (split; [first [reflexivity | eexists; reflexivity]|]).
  right. right. repeat (split; [reflexivity|]).
  unfold recordKey.
  change (Some referenceId = Some (or_else (or_else "" referenceId) "")).
  destruct referenceId; reflexivity.
Qed.

Lemma xml_record_shape_witness :
  parsePrintLetter sample_card !! "uid"
  = Some (recordKey (parsePrintLetter sample_card)).
Proof.
  destruct (xml_record_shape (sample_browser true) sample_card_xml
              (parsePrintLetter sample_card) eq_refl)
    as (_ & _ & _ & _ & _ & [(_ & _ & H) | [(H & _) | (H & _)]]);
    [exact H | discriminate H | discriminate H].
Defined.

End GrammarProperties.

(** ** The de-duplication key of a contact record *)

Section ContactKeyProperties.

Import Contacts.

Lemma toLowerCase_app (a b : string) :
  toLowerCase (a +:+ b) = toLowerCase a +:+ toLowerCase b.
Proof.
  induction a as [|c a IH]; [reflexivity|].
  change (String c a +:+ b) with (String c (a +:+ b)).
  cbn [toLowerCase]. rewrite IH. reflexivity.
Qed.

(** X30.  What the key of a contact record identifies: two records with the
    same key have the same e-mail address when one of them has an address,
    and the same mobile number when one of them has a number and no
    address; a key made of the user name does not identify the user name,
    since a user name that holds a vertical bar and comes without date of
    birth has the key of the user name before the bar with what follows as
    date of birth. *)
Theorem contact_key_kinds :
  (forall r1 r2,
      recordKey r1 = recordKey r2 ->
      truthy (email r1) = true ->
      email r2 = email r1)
  /\ (forall r1 r2,
         recordKey r1 = recordKey r2 ->
         email r1 = "" ->
         truthy (mobile r1) = true ->
         email r2 = "" /\ mobile r2 = mobile r1)
  /\ (forall u d a g,
         truthy u = true -> truthy d = true -> toLowerCase d = d ->
         recordKey {| username := u +:+ "|" +:+ d; dob := ""; age := a;
                      gender := g; mobile := ""; email := "" |}
         = recordKey {| username := u; dob := d; age := a; gender := g;
                        mobile := ""; email := "" |}).
Proof.
  split; [|split].
  - intros [u1 d1 a1 g1 m1 e1] [u2 d2 a2 g2 m2 e2]. unfold recordKey.
    cbn [email mobile username dob]. intros H He.
    rewrite He in H.
    destruct e1 as [|c1 e1]; [discriminate|].
    destruct e2 as [|c2 e2], m2 as [|? m2], u2 as [|? u2], d2 as [|? d2];
      cbn [truthy andb] in H; vm_compute in H; try discriminate H;
      injection H as -> ->; reflexivity.
  - intros [u1 d1 a1 g1 m1 e1] [u2 d2 a2 g2 m2 e2]. unfold recordKey.
    cbn [email mobile username dob]. intros H -> Hm.
    cbn [truthy] in H. rewrite Hm in H.
    destruct m1 as [|c1 m1]; [discriminate|].
    destruct e2 as [|c2 e2], m2 as [|? m2], u2 as [|? u2], d2 as [|? d2];
      cbn [truthy andb] in H; vm_compute in H; try discriminate H;
      injection H as -> ->; split; reflexivity.
  - intros u d a g Hu Hd Hlow. unfold recordKey.
    cbn [email mobile username dob truthy andb]. rewrite Hu, Hd.
    destruct u as [|c u]; [discriminate|].
    change (truthy (String c u +:+ "|" +:+ d)) with true. cbn [andb].
    rewrite !toLowerCase_app, Hlow. reflexivity.
Qed.

Lemma contact_key_kinds_witness :
  email sample_contact = email sample_contact
  /\ recordKey {| username := "Jane|1990-01-01"; dob := ""; age := "";
                  gender := ""; mobile := ""; email := "" |}
     = recordKey {| username := "Jane"; dob := "1990-01-01"; age := "";
                    gender := ""; mobile := ""; email := "" |}.
Proof.
  split.
  - apply (proj1 contact_key_kinds sample_contact sample_contact);
      reflexivity.
  - apply (proj2 (proj2 contact_key_kinds) "Jane" "1990-01-01" "" "");
      reflexivity.
Defined.

End ContactKeyProperties.
